(** * Research-Agent-Demo: the pipeline core, embedded and verified

    A shallow embedding of the Python sources under [src/]:
    - [src/agents/claim_extractor_agent.py], [src/agents/fact_checker_agent.py],
      [src/agents/final_answer_agent.py], [src/agents/reranker_agent.py],
      [src/agents/query_understanding_agent.py], [src/agents/retriever_agent.py],
    - [src/utils/retrieval_utils.py],
    - [src/graph/research_graph.py].

    Conventions of the embedding.
    - A Python [str] is a [string]; one [ascii] stands for one code point
      (the code points 0..255).
    - A Python [dict] is an association list in insertion order with unique
      keys ([dict_set] updates in place or appends), so that [.items()] and
      [.values()] iterate as Python does.
    - A Python number is an exact rational ([Q]); [round(x, 2)] is rounding
      half to even on the exact value.
    - An exception is a value [Raise msg]; [msg] is what [str(e)] returns.
    - The external collaborators (language models, vector search, the
      cross-encoder) are the fields of an environment record [Env]; every
      call to one of them is recorded as an [Event]. *)

From Stdlib Require Import String Ascii List ZArith QArith Qround Bool Arith Lia Lqa.
From Stdlib Require Import Permutation Sorted DecimalString DecimalN DecimalNat DecimalFacts.
Import ListNotations.

Local Open Scope string_scope.

(* ================================================================= *)
(** * Part I: definitions *)
(* ================================================================= *)

(** ** Exceptions *)

Inductive Result (A : Type) : Type :=
| Ok (a : A)
| Raise (msg : string).

Arguments Ok {A} a.
Arguments Raise {A} msg.

Definition is_ok {A} (r : Result A) : bool :=
  match r with Ok _ => true | Raise _ => false end.

(** ** Python values (what [json.loads] can return) *)

(** [JInt] is a Python [int]; [JFloat m e] is the float written by the
    decimal literal [m * 10^e]. *)
Unset Elimination Schemes.
Inductive JValue : Type :=
| JNull
| JBool (b : bool)
| JInt (z : Z)
| JFloat (m e : Z)
| JStr (s : string)
| JArr (l : list JValue)
| JObj (d : list (string * JValue)).
Set Elimination Schemes.

(** ** Python dicts *)

Definition dict (V : Type) : Type := list (string * V).

Fixpoint dict_lookup {V} (k : string) (d : dict V) : option V :=
  match d with
  | [] => None
  | (k', v) :: d' => if String.eqb k k' then Some v else dict_lookup k d'
  end.

(** [d[k] = v] *)
Fixpoint dict_set {V} (k : string) (v : V) (d : dict V) : dict V :=
  match d with
  | [] => [(k, v)]
  | (k', v') :: d' =>
      if String.eqb k k' then (k', v) :: d' else (k', v') :: dict_set k v d'
  end.

Definition dict_keys {V} (d : dict V) : list string := map fst d.
Definition dict_values {V} (d : dict V) : list V := map snd d.

(** [d.get(k, default)] *)
Definition dict_get {V} (d : dict V) (k : string) (default : V) : V :=
  match dict_lookup k d with Some v => v | None => default end.

(** [value.get(k, default)] on a value that came out of the model's JSON:
    only a dict has [.get]; anything else raises [AttributeError]. *)
Definition py_get (v : JValue) (k : string) (default : JValue) : Result JValue :=
  match v with
  | JObj d => Ok (dict_get d k default)
  | _ => Raise "AttributeError: object has no attribute 'get'"
  end.

(** [v == "s"] for a string literal [s]. *)
Definition py_eq_str (v : JValue) (s : string) : bool :=
  match v with JStr s' => String.eqb s' s | _ => false end.

(** ** Python numbers *)

(** The numeric value of a Python object in arithmetic with a float or an
    int (a [bool] is an [int]); [None] for the types on which
    [confidence * weight] and [total += confidence] raise [TypeError]. *)
Definition py_num (v : JValue) : option Q :=
  match v with
  | JInt z => Some (inject_Z z)
  | JFloat m e => Some (inject_Z m * Qpower (inject_Z 10) e)
  | JBool true => Some 1
  | JBool false => Some 0
  | _ => None
  end.

(** The two kinds of Python numbers in arithmetic. The value of a float is
    a rational: the arithmetic of floats is exact in this embedding (no
    rounding to binary64, no infinity). What is kept of the range of the
    floats is the [OverflowError] of [int * float], which converts the
    int. *)
Inductive PyNumber : Type :=
| PyInt (z : Z)
| PyFloat (q : Q).

Definition py_number (v : JValue) : option PyNumber :=
  match v with
  | JInt z => Some (PyInt z)
  | JFloat m e => Some (PyFloat (inject_Z m * Qpower (inject_Z 10) e))
  | JBool true => Some (PyInt 1)
  | JBool false => Some (PyInt 0)
  | _ => None
  end.

Definition number_value (n : PyNumber) : Q :=
  match n with
  | PyInt z => inject_Z z
  | PyFloat q => q
  end.

(** The least int that rounds to [2^1024]: from it on, the conversion of
    an int to a float raises. *)
Definition float_limit : Z := (2 ^ 1024 - 2 ^ 970)%Z.

Definition overflow_convert : string :=
  "OverflowError: int too large to convert to float".

(** The conversion of an operand in arithmetic with a float. *)
Definition to_float (n : PyNumber) : Result Q :=
  match n with
  | PyInt z =>
      if (Z.abs z <? float_limit)%Z then Ok (inject_Z z) else Raise overflow_convert
  | PyFloat q => Ok q
  end.

(** [a * w] for a float [w] *)
Definition py_mul_float (a : PyNumber) (w : Q) : Result Q :=
  match to_float a with
  | Raise e => Raise e
  | Ok x => Ok (x * w)
  end.

(** Rounding to the nearest integer, ties to the even one. *)
Definition round_half_even (q : Q) : Z :=
  let f := Qfloor q in
  match Qcompare (q - inject_Z f) (1 # 2) with
  | Lt => f
  | Gt => (f + 1)%Z
  | Eq => if Z.even f then f else (f + 1)%Z
  end.

(** [round(x, 2)] *)
Definition py_round2 (q : Q) : Q := Qmake (round_half_even (q * 100)) 100.

(** [min(100.0, x)] *)
Definition py_min100 (q : Q) : Q := if Qle_bool 100 q then 100 else q.



(** ** Python strings *)

Definition dq : ascii := Ascii false true false false false true false false.
Definition backslash : ascii := "\"%char.

(** [str.isspace] on one character, which is also the class [\s] of [re]
    on a [str] pattern: U+0009..U+000D, U+001C..U+0020, U+0085, U+00A0. *)
Definition is_space (c : ascii) : bool :=
  let n := nat_of_ascii c in
  (((9 <=? n) && (n <=? 13)) || ((28 <=? n) && (n <=? 32))
   || (n =? 133) || (n =? 160))%nat.

Fixpoint lstrip (s : string) : string :=
  match s with
  | String c r => if is_space c then lstrip r else s
  | EmptyString => EmptyString
  end.

Fixpoint rstrip (s : string) : string :=
  match s with
  | String c r =>
      match rstrip r with
      | EmptyString => if is_space c then EmptyString else String c EmptyString
      | r' => String c r'
      end
  | EmptyString => EmptyString
  end.

(** [s.strip()] *)
Definition strip (s : string) : string := rstrip (lstrip s).

(** [prefix p s] from the standard library is [s.startswith(p)];
    [drop n s] is [s[n:]]. *)
Fixpoint drop (n : nat) (s : string) : string :=
  match n, s with
  | S n', String _ r => drop n' r
  | _, _ => s
  end.

(** [sub in s] *)
Fixpoint contains (sub s : string) : bool :=
  prefix sub s ||
  match s with
  | String _ r => contains sub r
  | EmptyString => false
  end.

(** [str(n)] for a natural number. *)
Definition str_of_nat (n : nat) : string :=
  NilZero.string_of_uint (Nat.to_uint n).

(** ** The regular expressions of the agents ([re]) *)

(** A pattern is given by its matcher at the start of a text: [Some rest]
    when the pattern matches a prefix (greedy quantifiers taken as far as
    they go), [rest] being what follows the match. *)
Definition matcher : Type := string -> option string.

(** [re.sub(pattern, repl, s)]: leftmost non-overlapping matches, scanning
    from the left; the matchers below never match the empty string, so a
    fuel of [length s + 1] is never used up. *)
Fixpoint re_sub_fuel (fuel : nat) (m : matcher) (repl s : string) : string :=
  match fuel with
  | O => s
  | S n =>
      match m s with
      | Some rest => repl ++ re_sub_fuel n m repl rest
      | None =>
          match s with
          | String c r => String c (re_sub_fuel n m repl r)
          | EmptyString => EmptyString
          end
      end
  end.

Definition re_sub (m : matcher) (repl s : string) : string :=
  re_sub_fuel (S (String.length s)) m repl s.

(** The pattern [lit\s*] for a literal [lit]. *)
Definition lit_spaces (lit : string) : matcher :=
  fun s => if prefix lit s then Some (lstrip (drop (String.length lit) s)) else None.

Definition backticks : string := "```".

(** [r'```json\s*'] and [r'```\s*'] *)
Definition fence_json : matcher := lit_spaces (backticks ++ "json").
Definition fence : matcher := lit_spaces backticks.

(** [r',\s*]'] and [r',\s*}'] *)
Definition comma_before (close : ascii) : matcher :=
  fun s =>
    match s with
    | String "," r =>
        match lstrip r with
        | String c rest => if Ascii.eqb c close then Some rest else None
        | EmptyString => None
        end
    | _ => None
    end.

(** The text from the first occurrence of [c] on. *)
Fixpoint from_first (c : ascii) (s : string) : option string :=
  match s with
  | String a r => if Ascii.eqb a c then Some s else from_first c r
  | EmptyString => None
  end.

(** The text up to and including the last occurrence of [c]. *)
Fixpoint upto_last (c : ascii) (s : string) : option string :=
  match s with
  | String a r =>
      match upto_last c r with
      | Some t => Some (String a t)
      | None => if Ascii.eqb a c then Some (String a EmptyString) else None
      end
  | EmptyString => None
  end.

(** [re.search(r'\[.*\]', s, re.DOTALL)] and [re.search(r'\{.*\}', ...)],
    [.group()] of the match: the leftmost opening bracket that has a closing
    bracket after it is the first one, and the greedy [.*] runs to the last
    closing bracket of the text. *)
Definition search_span (open close : ascii) (s : string) : option string :=
  match from_first open s with
  | Some (String _ r) =>
      match upto_last close r with
      | Some t => Some (String open t)
      | None => None
      end
  | _ => None
  end.

(** [re.split(r'[.!?]+', s)] *)
Definition is_sentence_end (c : ascii) : bool :=
  Ascii.eqb c "." || Ascii.eqb c "!" || Ascii.eqb c "?".

Fixpoint split_sentences_aux (s : string) (cur : string) (in_sep : bool)
  : list string :=
  match s with
  | EmptyString => [cur]
  | String c r =>
      if is_sentence_end c then
        if in_sep then split_sentences_aux r cur true
        else cur :: split_sentences_aux r EmptyString true
      else split_sentences_aux r (cur ++ String c EmptyString) false
  end.

Definition split_sentences (s : string) : list string :=
  split_sentences_aux s EmptyString false.

(** ** [json.loads] and [json.dumps]

    The decoder follows [json.decoder] and [json.scanner] of the Python
    standard library on texts over the code points 0..255: whitespace is
    space, tab, line feed and carriage return; a string is closed by the
    next unescaped quote, rejects raw control characters and knows the
    escapes of [BACKSLASH] and the four-digit hexadecimal escape; a number
    is an optional minus sign, an integer part without leading zeros, an
    optional fraction and an optional exponent ([NUMBER_RE]). Outside the
    embedding, and rejected by the model: hexadecimal escapes above 00ff,
    [NaN] and [Infinity]. *)

Inductive parse_result (A : Type) : Type :=
| POk (a : A) (rest : string)
| PErr
| PFuel.

Arguments POk {A} a rest.
Arguments PErr {A}.
Arguments PFuel {A}.

Definition is_jws (c : ascii) : bool :=
  Ascii.eqb c " " || (nat_of_ascii c =? 9)%nat || (nat_of_ascii c =? 10)%nat
  || (nat_of_ascii c =? 13)%nat.

Fixpoint skip_jws (s : string) : string :=
  match s with
  | String c r => if is_jws c then skip_jws r else s
  | EmptyString => EmptyString
  end.

Definition is_digit (c : ascii) : bool :=
  ((48 <=? nat_of_ascii c) && (nat_of_ascii c <=? 57))%nat.

Fixpoint take_digits (s : string) : string * string :=
  match s with
  | String c r =>
      if is_digit c then let (ds, rest) := take_digits r in (String c ds, rest)
      else (EmptyString, s)
  | EmptyString => (EmptyString, EmptyString)
  end.

Definition digits_value (ds : string) : N :=
  match NilEmpty.uint_of_string ds with
  | Some d => N.of_uint d
  | None => 0%N
  end.

Definition hex_val (c : ascii) : option nat :=
  let n := nat_of_ascii c in
  if ((48 <=? n) && (n <=? 57))%nat then Some (n - 48)%nat
  else if ((97 <=? n) && (n <=? 102))%nat then Some (n - 87)%nat
  else if ((65 <=? n) && (n <=? 70))%nat then Some (n - 55)%nat
  else None.

Definition hex4 (a b c d : ascii) : option ascii :=
  match hex_val a, hex_val b, hex_val c, hex_val d with
  | Some x, Some y, Some z, Some w =>
      let n := (4096 * x + 256 * y + 16 * z + w)%nat in
      if (n <? 256)%nat then Some (ascii_of_nat n) else None
  | _, _, _, _ => None
  end.

(** [BACKSLASH] of [json.decoder] *)
Definition unescape (e : ascii) : option ascii :=
  if Ascii.eqb e dq then Some dq
  else if Ascii.eqb e backslash then Some backslash
  else if Ascii.eqb e "/" then Some "/"%char
  else if Ascii.eqb e "b" then Some (ascii_of_nat 8)
  else if Ascii.eqb e "f" then Some (ascii_of_nat 12)
  else if Ascii.eqb e "n" then Some (ascii_of_nat 10)
  else if Ascii.eqb e "r" then Some (ascii_of_nat 13)
  else if Ascii.eqb e "t" then Some (ascii_of_nat 9)
  else None.

(** [py_scanstring], from the character after the opening quote. *)
Fixpoint scan_string (s : string) : option (string * string) :=
  match s with
  | EmptyString => None
  | String c r =>
      if Ascii.eqb c dq then Some (EmptyString, r)
      else if Ascii.eqb c backslash then
        match r with
        | String e r2 =>
            if Ascii.eqb e "u" then
              match r2 with
              | String h1 (String h2 (String h3 (String h4 r3))) =>
                  match hex4 h1 h2 h3 h4 with
                  | Some ch =>
                      match scan_string r3 with
                      | Some (str, rest) => Some (String ch str, rest)
                      | None => None
                      end
                  | None => None
                  end
              | _ => None
              end
            else
              match unescape e with
              | Some ch =>
                  match scan_string r2 with
                  | Some (str, rest) => Some (String ch str, rest)
                  | None => None
                  end
              | None => None
              end
        | EmptyString => None
        end
      else if (nat_of_ascii c <? 32)%nat then None
      else
        match scan_string r with
        | Some (str, rest) => Some (String c str, rest)
        | None => None
        end
  end.

Definition signed (neg : bool) (n : N) : Z :=
  if neg then (- Z.of_N n)%Z else Z.of_N n.

(** [NUMBER_RE] of [json.scanner], group by group: the integer part after
    the sign, a single zero or digits that do not start with a zero. *)
Definition scan_int (s : string) : option (string * string) :=
  match s with
  | String c r =>
      if is_digit c then
        if Ascii.eqb c "0" then Some (String c EmptyString, r)
        else Some (take_digits s)
      else None
  | EmptyString => None
  end.

(** The optional fraction: a dot and at least one digit. *)
Definition scan_frac (s : string) : option string * string :=
  match s with
  | String "." (String d r) =>
      if is_digit d
      then let (f, rest) := take_digits (String d r) in (Some f, rest)
      else (None, s)
  | _ => (None, s)
  end.

(** The optional exponent: [e] or [E], an optional sign and at least one
    digit. *)
Definition scan_exp (s : string) : option Z * string :=
  match s with
  | String e r =>
      if Ascii.eqb e "e" || Ascii.eqb e "E" then
        let '(eneg, r') :=
          match r with
          | String "-" t => (true, t)
          | String "+" t => (false, t)
          | _ => (false, r)
          end in
        match take_digits r' with
        | (EmptyString, _) => (None, s)
        | (ds, rest) => (Some (signed eneg (digits_value ds)), rest)
        end
      else (None, s)
  | EmptyString => (None, s)
  end.

(** A number without fraction and exponent is an [int], any other a
    [float]. *)
Definition scan_number (s : string) : option (JValue * string) :=
  let '(neg, s1) :=
    match s with
    | String "-" r => (true, r)
    | _ => (false, s)
    end in
  match scan_int s1 with
  | Some (ip, r1) =>
      let '(fp, r2) := scan_frac r1 in
      let '(ep, r3) := scan_exp r2 in
      match fp, ep with
      | None, None => Some (JInt (signed neg (digits_value ip)), r3)
      | _, _ =>
          let f := match fp with Some f => f | None => EmptyString end in
          let e := match ep with Some e => e | None => 0%Z end in
          Some (JFloat (signed neg (digits_value (ip ++ f)))
                       (e - Z.of_nat (String.length f)), r3)
      end
  | None => None
  end.

(** [dict(pairs)]: a repeated key keeps its first position and its last
    value. *)
Definition dict_of_pairs {V} (pairs : list (string * V)) : dict V :=
  fold_left (fun d kv => dict_set (fst kv) (snd kv) d) pairs [].

(** [s[0] == c], with what follows. *)
Definition starts_with (c : ascii) (s : string) : option string :=
  match s with
  | String a r => if Ascii.eqb a c then Some r else None
  | EmptyString => None
  end.

(** [scan_once], [JSONArray] and [JSONObject]. *)
Fixpoint parse_value (fuel : nat) (s : string) {struct fuel}
  : parse_result JValue :=
  match fuel with
  | O => PFuel
  | S n =>
      match s with
      | EmptyString => PErr
      | String c r =>
          if Ascii.eqb c dq then
            match scan_string r with
            | Some (str, rest) => POk (JStr str) rest
            | None => PErr
            end
          else if Ascii.eqb c "{" then
            match starts_with "}" (skip_jws r) with
            | Some r2 => POk (JObj []) r2
            | None =>
                match parse_members n (skip_jws r) with
                | POk ms rest => POk (JObj (dict_of_pairs ms)) rest
                | PErr => PErr
                | PFuel => PFuel
                end
            end
          else if Ascii.eqb c "[" then
            match starts_with "]" (skip_jws r) with
            | Some r2 => POk (JArr []) r2
            | None =>
                match parse_elems n (skip_jws r) with
                | POk vs rest => POk (JArr vs) rest
                | PErr => PErr
                | PFuel => PFuel
                end
            end
          else if prefix "null" s then POk JNull (drop 4 s)
          else if prefix "true" s then POk (JBool true) (drop 4 s)
          else if prefix "false" s then POk (JBool false) (drop 5 s)
          else
            match scan_number s with
            | Some (v, rest) => POk v rest
            | None => PErr
            end
      end
  end
with parse_elems (fuel : nat) (s : string) {struct fuel}
  : parse_result (list JValue) :=
  match fuel with
  | O => PFuel
  | S n =>
      match parse_value n s with
      | POk v rest =>
          match starts_with "," (skip_jws rest) with
          | Some r2 =>
              match parse_elems n (skip_jws r2) with
              | POk vs rest' => POk (v :: vs) rest'
              | PErr => PErr
              | PFuel => PFuel
              end
          | None =>
              match starts_with "]" (skip_jws rest) with
              | Some r2 => POk [v] r2
              | None => PErr
              end
          end
      | PErr => PErr
      | PFuel => PFuel
      end
  end
with parse_members (fuel : nat) (s : string) {struct fuel}
  : parse_result (list (string * JValue)) :=
  match fuel with
  | O => PFuel
  | S n =>
      match starts_with dq s with
      | Some r =>
          match scan_string r with
          | Some (key, r1) =>
              match starts_with ":" (skip_jws r1) with
              | Some r2 =>
                  match parse_value n (skip_jws r2) with
                  | POk v r3 =>
                      match starts_with "}" (skip_jws r3) with
                      | Some r4 => POk [(key, v)] r4
                      | None =>
                          match starts_with "," (skip_jws r3) with
                          | Some r4 =>
                              match parse_members n (skip_jws r4) with
                              | POk ms rest => POk ((key, v) :: ms) rest
                              | PErr => PErr
                              | PFuel => PFuel
                              end
                          | None => PErr
                          end
                      end
                  | PErr => PErr
                  | PFuel => PFuel
                  end
              | None => PErr
              end
          | None => PErr
          end
      | None => PErr
      end
  end.

(** [json.loads(s)]; [None] is [json.JSONDecodeError]. Every call of the
    parser consumes a character before it calls itself twice, so the fuel
    [2 * len(s) + 2] is never used up. *)
Definition json_loads (s : string) : option JValue :=
  match parse_value (2 * String.length s + 2) (skip_jws s) with
  | POk v rest =>
      match skip_jws rest with
      | EmptyString => Some v
      | _ => None
      end
  | _ => None
  end.

(** [json.dumps(v)], with [ensure_ascii] and the default separators. With
    [ta] a comma is put before the closing bracket of every array that has
    an element, with [to] before the closing brace of every object that has
    a member. *)
Definition hex_digit (n : nat) : ascii :=
  if (n <? 10)%nat then ascii_of_nat (48 + n) else ascii_of_nat (87 + n).

Definition render_char (c : ascii) : string :=
  let n := nat_of_ascii c in
  if Ascii.eqb c dq then String backslash (String dq EmptyString)
  else if Ascii.eqb c backslash then String backslash (String backslash EmptyString)
  else if (n =? 8)%nat then String backslash "b"
  else if (n =? 12)%nat then String backslash "f"
  else if (n =? 10)%nat then String backslash "n"
  else if (n =? 13)%nat then String backslash "r"
  else if (n =? 9)%nat then String backslash "t"
  else if ((32 <=? n) && (n <=? 126))%nat then String c EmptyString
  else String backslash
         ("u00" ++ String (hex_digit (n / 16)) (String (hex_digit (n mod 16)) EmptyString)).

Fixpoint render_chars (s : string) : string :=
  match s with
  | String c r => render_char c ++ render_chars r
  | EmptyString => EmptyString
  end.

Definition render_string (s : string) : string :=
  String dq (render_chars s ++ String dq EmptyString).

Definition render_N (n : N) : string := NilEmpty.string_of_uint (N.to_uint n).

Definition render_int (z : Z) : string :=
  match z with
  | Z0 => "0"
  | Zpos p => render_N (Npos p)
  | Zneg p => "-" ++ render_N (Npos p)
  end.

Definition closing (tc : bool) (n : nat) (close : string) : string :=
  match n with
  | O => close
  | S _ => if tc then "," ++ close else close
  end.

Fixpoint render (ta to : bool) (v : JValue) : string :=
  match v with
  | JNull => "null"
  | JBool true => "true"
  | JBool false => "false"
  | JInt z => render_int z
  | JFloat m e => render_int m ++ "e" ++ render_int e
  | JStr s => render_string s
  | JArr l =>
      "[" ++ String.concat ", " (map (render ta to) l)
          ++ closing ta (List.length l) "]"
  | JObj d =>
      "{" ++ String.concat ", "
               (map (fun kv => render_string (fst kv) ++ ": " ++ render ta to (snd kv)) d)
          ++ closing to (List.length d) "}"
  end.

(** [json.dumps(v)] *)
Definition json_dumps (v : JValue) : string := render false false v.

(** ** Truth value and types of Python values *)

(** [bool(v)]; the Python [None] is [JNull]. *)
Definition py_truthy (v : JValue) : bool :=
  match v with
  | JNull => false
  | JBool b => b
  | JInt z => negb (z =? 0)%Z
  | JFloat m _ => negb (m =? 0)%Z
  | JStr s => negb (String.eqb s EmptyString)
  | JArr l => match l with [] => false | _ => true end
  | JObj d => match d with [] => false | _ => true end
  end.

(** [v.items()]: only a dict has it. *)
Definition py_items (v : JValue) : Result (dict JValue) :=
  match v with
  | JObj d => Ok d
  | _ => Raise "AttributeError: object has no attribute 'items'"
  end.

Definition nl : string := String (ascii_of_nat 10) EmptyString.

(** ** Effects: calls to the collaborators *)

(** A retrieved document ([langchain_core.documents.Document]). *)
Record Document : Type := mkDocument {
  page_content : string;
  doc_metadata : dict string
}.

(** The dict built by [convert_docs_to_reranker_format], with the key
    ["score"] that [RerankerAgent.rerank] adds ([None]: key absent). *)
Record RDoc : Type := mkRDoc {
  content : string;
  metadata : dict string;
  score : option Q
}.

(** The values interpolated into the two prompts of
    [generate_final_answer]; [fp_positive] tells which of the two templates
    is used. *)
Record FinalPrompt : Type := mkFinalPrompt {
  fp_positive : bool;
  fp_query : string;
  fp_supported : nat;
  fp_partially : nat;
  fp_not_supported : nat;
  fp_contradicted : nat;
  fp_context : string;
  fp_confidence : Q
}.

(** The collaborators. A language model is given the values interpolated
    into its prompt template (the fixed text of the template is the same at
    every call) and returns the text of its response or raises. *)
Record Env : Type := mkEnv {
  (** [llm(PROMPT_TEMPLATE.format(query=...))[0]["generated_text"]] *)
  qu_llm : string -> Result string;
  (** the vector store behind [retrieve_docs(query, top_k)] *)
  search : string -> nat -> Result (list Document);
  (** [CrossEncoder.predict(pairs)] *)
  predict : list (string * string) -> Result (list Q);
  (** [llm.invoke(prompt).content], from [context_text] and [query] *)
  reasoning_llm : string -> string -> Result string;
  (** [model.generate_content(prompt).text] of the claim extractor *)
  claim_model : string -> Result string;
  (** the same of the fact checker, from [context_text] and [claims_text] *)
  fact_model : string -> string -> Result string;
  (** the same of the final answer agent *)
  final_model : FinalPrompt -> Result string
}.

Inductive Event : Type :=
| EvRefine (query : string)
| EvSearch (query : string) (top_k : nat)
| EvScore (pairs : list (string * string))
| EvReason (context_text query : string)
| EvClaims (answer_text : string)
| EvFact (context_text claims_text : string)
| EvFinal (prompt : FinalPrompt).

(** A computation that may raise and that records the calls it made; the
    calls made before an exception stay recorded. *)
Definition Eff (A : Type) : Type := (Result A * list Event)%type.

Definition ret {A} (a : A) : Eff A := (Ok a, []).

Definition bind {A B} (m : Eff A) (f : A -> Eff B) : Eff B :=
  match m with
  | (Ok a, ev) => let (r, ev') := f a in (r, (ev ++ ev')%list)
  | (Raise e, ev) => (Raise e, ev)
  end.

Definition lift {A} (r : Result A) : Eff A := (r, []).

Definition call {A} (e : Event) (r : Result A) : Eff A := (r, [e]).

(** [try: m except Exception as e: h e] *)
Definition try_except {A} (m : Eff A) (h : string -> Eff A) : Eff A :=
  match m with
  | (Ok a, ev) => (Ok a, ev)
  | (Raise e, ev) => let (r, ev') := h e in (r, (ev ++ ev')%list)
  end.

Notation "x <- m ;; k" := (bind m (fun x => k))
  (at level 61, m at next level, right associativity).

(** ** [claim_extractor_agent.py] *)

Module ClaimExtractor.

Definition extract_json_from_text (text : string) : JValue :=
  let text := re_sub fence_json "" text in
  let text := re_sub fence "" text in
  let text := strip text in
  let json_match :=
    match search_span "[" "]" text with
    | Some m => Some m
    | None => search_span "{" "}" text
    end in
  match json_match with
  | Some json_str =>
      match json_loads json_str with
      | Some v => v
      | None =>
          let json_str := re_sub (comma_before "]") "]" json_str in
          let json_str := re_sub (comma_before "}") "}" json_str in
          match json_loads json_str with
          | Some v => v
          | None => JNull
          end
      end
  | None => JNull
  end.

Definition no_content : string := "No content available for claim extraction".

Definition fallback_claims : list string :=
  [ "The text discusses workflow status check scripts";
    "Chatbots handle L0 diagnostics for workflow issues";
    "The system involves escalation procedures for complex cases" ].

(** Strategy 3: the sentences of the response between 20 and 200
    characters, at most five. *)
Definition sentence_claims (response_text : string) : list string :=
  firstn 5
    (map strip
       (filter (fun s => (20 <? String.length (strip s))%nat
                         && (String.length (strip s) <? 200)%nat)
               (split_sentences response_text))).

(** The last filter: [claim and isinstance(claim, str) and
    len(claim.strip()) > 10]. *)
Definition keep_claim (claim : JValue) : option string :=
  match claim with
  | JStr c =>
      if negb (String.eqb c EmptyString) && (10 <? String.length (strip c))%nat
      then Some c else None
  | _ => None
  end.

Fixpoint filter_claims (claims : list JValue) : list string :=
  match claims with
  | [] => []
  | c :: rest =>
      match keep_claim c with
      | Some s => s :: filter_claims rest
      | None => filter_claims rest
      end
  end.

Definition extract_claims (env : Env) (answer_text : string)
  : list string * list Event :=
  if String.eqb answer_text EmptyString || String.eqb (strip answer_text) EmptyString
  then ([no_content], [])
  else
    match call (EvClaims answer_text) (claim_model env answer_text) with
    | (Ok response_text, ev) =>
        (* Strategy 1, then strategy 2 *)
        let claims :=
          match json_loads response_text with
          | Some v => v
          | None => extract_json_from_text response_text
          end in
        let claims :=
          if negb (py_truthy claims)
          then JArr (map JStr (sentence_claims response_text))
          else claims in
        let claims :=
          match claims with
          | JArr l => l
          | other => if py_truthy other then [other] else []
          end in
        (filter_claims claims, ev)
    | (Raise _, ev) => (fallback_claims, ev)
    end.

End ClaimExtractor.

(** ** [fact_checker_agent.py], the verification of the claims *)

Definition verification (status : string) (confidence : Z) (evidence explanation : string)
  : JValue :=
  JObj [ ("verification_status", JStr status);
         ("confidence", JInt confidence);
         ("evidence", JStr evidence);
         ("explanation", JStr explanation) ].

Module FactCheckerAgent.

Definition parse_failed : JValue :=
  JObj [ ("fallback",
          verification "NOT_SUPPORTED" 0 "JSON parsing failed"
                       "Could not parse verification results") ].

Definition extract_json_from_text (text : string) : JValue :=
  let text := re_sub fence_json "" text in
  let text := re_sub fence "" text in
  let text := strip text in
  match search_span "{" "}" text with
  | Some json_str =>
      match json_loads json_str with
      | Some v => v
      | None =>
          let json_str := re_sub (comma_before "}") "}" json_str in
          let json_str := re_sub (comma_before "]") "]" json_str in
          match json_loads json_str with
          | Some v => v
          | None => parse_failed
          end
      end
  | None => parse_failed
  end.

Definition not_found : JValue :=
  verification "NOT_SUPPORTED" 0 "Claim not found in verification results"
               "Verification system did not process this claim".

Definition system_error (e : string) : JValue :=
  verification "NOT_SUPPORTED" 0 ("System error: " ++ e)
               "Fact checking failed due to system error".

(** The inner loop: the first key of [results] that contains the claim or
    ["Claim i+1"]. *)
Definition find_result (i : nat) (claim : string) (results : dict JValue)
  : option JValue :=
  match find (fun kv => contains claim (fst kv)
                        || contains ("Claim " ++ str_of_nat (i + 1)) (fst kv))
             results with
  | Some kv => Some (snd kv)
  | None => None
  end.

(** The outer loop over [enumerate(claims)], from index [i]. *)
Fixpoint reconcile (i : nat) (claims : list string) (results : dict JValue)
         (final_results : dict JValue) : dict JValue :=
  match claims with
  | [] => final_results
  | claim :: rest =>
      let entry :=
        match find_result i claim results with
        | Some v => v
        | None => not_found
        end in
      reconcile (S i) rest results (dict_set claim entry final_results)
  end.

(** [{claim: value for claim in claims}] *)
Definition dict_for_each (claims : list string) (value : JValue) : dict JValue :=
  fold_left (fun d claim => dict_set claim value d) claims [].

Fixpoint numbered (i : nat) (claims : list string) : list string :=
  match claims with
  | [] => []
  | c :: rest => (str_of_nat (i + 1) ++ ". " ++ c) :: numbered (S i) rest
  end.

Definition context_text_of (context_docs : list RDoc) : string :=
  String.concat (nl ++ nl) (map content context_docs).

Definition claims_text_of (claims : list string) : string :=
  String.concat nl (numbered 0 claims).

Definition fact_check_claims (env : Env) (claims : list string)
           (context_docs : list RDoc) : dict JValue * list Event :=
  let context_text := context_text_of context_docs in
  let claims_text := claims_text_of claims in
  (* try: ... except Exception as e: the same fallback entry for every claim *)
  match call (EvFact context_text claims_text)
             (fact_model env context_text claims_text) with
  | (Ok response_text, ev) =>
      match py_items (extract_json_from_text response_text) with
      | Ok results => (reconcile 0 claims results [], ev)
      | Raise e => (dict_for_each claims (system_error e), ev)
      end
  | (Raise e, ev) => (dict_for_each claims (system_error e), ev)
  end.


(** [fact_checker_agent.calculate_overall_confidence], the weight chosen
    by the [if]/[elif] chain (the initial [weight = 1.0] stays when no
    branch matches). *)
Definition weight_of (status : JValue) : Q :=
  if py_eq_str status "SUPPORTED" then 1
  else if py_eq_str status "PARTIALLY_SUPPORTED" then 6 # 10
  else if py_eq_str status "NOT_SUPPORTED" then 1 # 10
  else if py_eq_str status "CONTRADICTED" then 0
  else 1.

(** The loop over [verified_claims.values()], threading
    [(total_confidence, count)]. *)
Fixpoint conf_loop (vals : list JValue) (total : Q) (count : nat)
  : Result (Q * nat) :=
  match vals with
  | [] => Ok (total, count)
  | claim_data :: rest =>
      match py_get claim_data "confidence" (JInt 0) with
      | Raise e => Raise e
      | Ok confidence =>
          match py_get claim_data "verification_status" (JStr "NOT_SUPPORTED") with
          | Raise e => Raise e
          | Ok status =>
              match py_number confidence with
              | None => Raise "TypeError: unsupported operand type(s)"
              | Some c =>
                  (* confidence * weight: the weight is a float *)
                  match py_mul_float c (weight_of status) with
                  | Raise e => Raise e
                  | Ok p => conf_loop rest (total + p) (S count)
                  end
              end
          end
      end
  end.

Definition calculate_overall_confidence (verified_claims : dict JValue)
  : Result Q :=
  match verified_claims with
  | [] => Ok 0
  | _ =>
      match conf_loop (dict_values verified_claims) 0 0 with
      | Raise e => Raise e
      | Ok (total, count) =>
          if (0 <? count)%nat
          then Ok (py_round2 (total / inject_Z (Z.of_nat count)))
          else Ok 0
      end
  end.

End FactCheckerAgent.

(** ** [final_answer_agent.py] *)

(** The dict under the key ["claim_breakdown"]. *)
Record ClaimBreakdown : Type := mkBreakdown {
  supported : nat;
  partially_supported : nat;
  not_supported : nat;
  contradicted : nat
}.

(** The dict stored under ["final_answer"]; [claim_breakdown] is [None]
    when the dict has no such key. *)
Record FinalAnswer : Type := mkFinalAnswer {
  final_answer_text : string;
  confidence_score : Q;
  verified_sources : list string;
  limitations : string;
  claim_breakdown : option ClaimBreakdown
}.

Definition breakdown_total (b : ClaimBreakdown) : nat :=
  supported b + partially_supported b + not_supported b + contradicted b.

Module FinalAnswerAgent.

Definition known_status (status : JValue) : bool :=
  py_eq_str status "SUPPORTED" || py_eq_str status "PARTIALLY_SUPPORTED"
  || py_eq_str status "NOT_SUPPORTED" || py_eq_str status "CONTRADICTED".

(** The loop of [final_answer_agent.calculate_overall_confidence] over
    [verified_claims.items()], threading [(total_confidence, valid_claims)].
    The sum and the quotient are exact: [total_confidence] is an int as
    long as ints are added to it, and the [OverflowError] that Python
    raises when such an int, or an int confidence, is beyond the range of
    the floats and meets a float or is divided, is outside this
    embedding. *)
Fixpoint conf_loop (items : dict JValue) (total : Q) (valid : nat)
  : Result (Q * nat) :=
  match items with
  | [] => Ok (total, valid)
  | (_, verification) :: rest =>
      match py_get verification "confidence" (JInt 0) with
      | Raise e => Raise e
      | Ok confidence =>
          match py_get verification "verification_status" (JStr "NOT_SUPPORTED") with
          | Raise e => Raise e
          | Ok status =>
              if known_status status then
                if py_eq_str status "SUPPORTED" then
                  match py_num confidence with
                  | None => Raise "TypeError: unsupported operand type(s)"
                  | Some c => conf_loop rest (total + c) (S valid)
                  end
                else if py_eq_str status "PARTIALLY_SUPPORTED" then
                  match py_num confidence with
                  | None => Raise "TypeError: unsupported operand type(s)"
                  | Some c => conf_loop rest (total + c * (7 # 10)) (S valid)
                  end
                else conf_loop rest total (S valid)
              else conf_loop rest total valid
          end
      end
  end.

Definition calculate_overall_confidence (verified_claims : dict JValue)
  : Result Q :=
  match verified_claims with
  | [] => Ok 0
  | _ =>
      match conf_loop verified_claims 0 0 with
      | Raise e => Raise e
      | Ok (total, valid) =>
          if (valid =? 0)%nat then Ok 0
          else Ok (py_min100 (py_round2 (total / inject_Z (Z.of_nat valid))))
      end
  end.

(** The four lists filled by the first loop of [generate_final_answer]. *)
Record Tally : Type := mkTally {
  supported_claims : list string;
  partially_supported_claims : list string;
  not_supported_claims : list string;
  contradicted_claims : list string
}.

Definition actual_claim (claim_key : string) : string :=
  if prefix "claim_" claim_key && contains "_text" claim_key
  then "Claim " ++ claim_key else claim_key.

(** The loop over [verified_claims.items()]; the [if]/[elif] chain has no
    [else], so any other status goes to no list. *)
Fixpoint tally (items : dict JValue) (t : Tally) : Result Tally :=
  match items with
  | [] => Ok t
  | (claim_key, verification) :: rest =>
      match py_get verification "verification_status" (JStr "UNKNOWN") with
      | Raise e => Raise e
      | Ok status =>
          let c := actual_claim claim_key in
          if py_eq_str status "SUPPORTED" then
            tally rest (mkTally (supported_claims t ++ [c])
                                (partially_supported_claims t)
                                (not_supported_claims t) (contradicted_claims t))
          else if py_eq_str status "PARTIALLY_SUPPORTED" then
            tally rest (mkTally (supported_claims t)
                                (partially_supported_claims t ++ [c])
                                (not_supported_claims t) (contradicted_claims t))
          else if py_eq_str status "NOT_SUPPORTED" then
            tally rest (mkTally (supported_claims t)
                                (partially_supported_claims t)
                                (not_supported_claims t ++ [c]) (contradicted_claims t))
          else if py_eq_str status "CONTRADICTED" then
            tally rest (mkTally (supported_claims t)
                                (partially_supported_claims t)
                                (not_supported_claims t) (contradicted_claims t ++ [c]))
          else tally rest t
      end
  end.

Definition breakdown_of (t : Tally) : ClaimBreakdown :=
  mkBreakdown (List.length (supported_claims t))
              (List.length (partially_supported_claims t))
              (List.length (not_supported_claims t))
              (List.length (contradicted_claims t)).

(** [sources_used.add(source)]; the list keeps the order of first
    insertion (the order of a Python set is unspecified). *)
Definition set_add (x : string) (l : list string) : list string :=
  if existsb (String.eqb x) l then l else (l ++ [x])%list.

(** The loop over [enumerate(context_docs)], from index [i]; the
    documents of the pipeline are [Document] objects. *)
Fixpoint sources_loop (i : nat) (docs : list Document)
         (context_with_sources sources_used : list string)
  : list string * list string :=
  match docs with
  | [] => (context_with_sources, sources_used)
  | doc :: rest =>
      let source :=
        dict_get (doc_metadata doc) "source" ("Document " ++ str_of_nat (i + 1)) in
      sources_loop (S i) rest
        (context_with_sources ++ ["[Source: " ++ source ++ "]" ++ nl ++ page_content doc])
        (set_add source sources_used)
  end.

Definition generate_final_answer (env : Env) (original_query : string)
           (verified_claims : dict JValue) (context_docs : list Document)
  : Eff FinalAnswer :=
  t <- lift (tally verified_claims (mkTally [] [] [] [])) ;;
  let '(context_with_sources, sources_used) := sources_loop 0 context_docs [] [] in
  overall_confidence <- lift (calculate_overall_confidence verified_claims) ;;
  let b := breakdown_of t in
  let prompt :=
    mkFinalPrompt (0 <? supported b)%nat original_query
                  (supported b) (partially_supported b) (not_supported b)
                  (contradicted b)
                  (String.concat nl context_with_sources) overall_confidence in
  try_except
    (response_text <- call (EvFinal prompt) (final_model env prompt) ;;
     ret (mkFinalAnswer
            response_text overall_confidence sources_used
            ("Based on verification: " ++ str_of_nat (supported b)
             ++ " supported, " ++ str_of_nat (not_supported b)
             ++ " not supported claims")
            (Some b)))
    (fun e =>
       ret (mkFinalAnswer
              ("I encountered an error while generating the final answer: " ++ e)
              overall_confidence sources_used
              "System error during answer generation"
              (Some b))).

End FinalAnswerAgent.

(** ** [reranker_agent.py] and [retrieval_utils.py] *)

Definition convert_docs_to_reranker_format (docs : list Document) : list RDoc :=
  map (fun doc => mkRDoc (page_content doc) (doc_metadata doc) None) docs.

Module RerankerAgent.

(** [for i, s in enumerate(scores): docs[i]["score"] = float(s)] *)
Fixpoint assign_scores (docs : list RDoc) (scores : list Q) : Result (list RDoc) :=
  match scores, docs with
  | [], _ => Ok docs
  | s :: scores', d :: docs' =>
      match assign_scores docs' scores' with
      | Ok rest => Ok (mkRDoc (content d) (metadata d) (Some s) :: rest)
      | Raise e => Raise e
      end
  | _ :: _, [] => Raise "IndexError: list index out of range"
  end.

(** The keys [x["score"]] that [sorted] computes for every element. *)
Fixpoint sort_keys (docs : list RDoc) : Result (list (RDoc * Q)) :=
  match docs with
  | [] => Ok []
  | d :: docs' =>
      match score d with
      | None => Raise "KeyError: 'score'"
      | Some k =>
          match sort_keys docs' with
          | Ok rest => Ok ((d, k) :: rest)
          | Raise e => Raise e
          end
      end
  end.

(** [sorted(..., reverse=True)] is stable: elements with equal keys keep
    their order. Insertion of an element that stood before all of [l]. *)
Fixpoint insert_desc {A} (x : A * Q) (l : list (A * Q)) : list (A * Q) :=
  match l with
  | [] => [x]
  | y :: l' =>
      if Qle_bool (snd y) (snd x) then x :: l else y :: insert_desc x l'
  end.

Fixpoint sorted_desc {A} (l : list (A * Q)) : list (A * Q) :=
  match l with
  | [] => []
  | x :: l' => insert_desc x (sorted_desc l')
  end.

Definition rerank (env : Env) (query : string) (docs : list RDoc) (top_k : nat)
  : Eff (list RDoc) :=
  match docs with
  | [] => ret []
  | _ =>
      let pairs := map (fun d => (query, content d)) docs in
      scores <- call (EvScore pairs) (predict env pairs) ;;
      docs <- lift (assign_scores docs scores) ;;
      keyed <- lift (sort_keys docs) ;;
      ret (firstn top_k (map fst (sorted_desc keyed)))
  end.

End RerankerAgent.

(** ** [query_understanding_agent.py] and [retriever_agent.py] *)

Definition reformulate_query (env : Env) (user_query : string) : Eff string :=
  generated_text <- call (EvRefine user_query) (qu_llm env user_query) ;;
  ret (strip generated_text).

(** [run_retriever] catches every exception of [retrieve_docs] and returns
    the empty list. *)
Definition run_retriever (env : Env) (query : string) (top_k : nat)
  : list Document * list Event :=
  match call (EvSearch query top_k) (search env query top_k) with
  | (Ok docs, ev) => (docs, ev)
  | (Raise _, ev) => ([], ev)
  end.

(** ** [research_graph.py]: the state and the nodes *)

(** [ResearchState]. The keys read with [state.get] are options ([None]:
    the key is absent); [final_answer] is [None] for the empty dict. *)
Record ResearchState : Type := mkState {
  original_query : string;
  refined_query : option string;
  retrieved_docs : list Document;
  reranked_docs : list Document;
  draft_answer : string;
  extracted_claims : list string;
  verified_claims : dict JValue;
  final_answer : option FinalAnswer;
  error : option string
}.

(** [{**state, key: value}] for each key the nodes write. *)
Definition with_refined_query (st : ResearchState) (v : string) : ResearchState :=
  mkState (original_query st) (Some v) (retrieved_docs st) (reranked_docs st)
          (draft_answer st) (extracted_claims st) (verified_claims st)
          (final_answer st) (error st).

Definition with_retrieved_docs (st : ResearchState) (v : list Document) : ResearchState :=
  mkState (original_query st) (refined_query st) v (reranked_docs st)
          (draft_answer st) (extracted_claims st) (verified_claims st)
          (final_answer st) (error st).

Definition with_reranked_docs (st : ResearchState) (v : list Document) : ResearchState :=
  mkState (original_query st) (refined_query st) (retrieved_docs st) v
          (draft_answer st) (extracted_claims st) (verified_claims st)
          (final_answer st) (error st).

Definition with_draft_answer (st : ResearchState) (v : string) : ResearchState :=
  mkState (original_query st) (refined_query st) (retrieved_docs st) (reranked_docs st)
          v (extracted_claims st) (verified_claims st)
          (final_answer st) (error st).

Definition with_extracted_claims (st : ResearchState) (v : list string) : ResearchState :=
  mkState (original_query st) (refined_query st) (retrieved_docs st) (reranked_docs st)
          (draft_answer st) v (verified_claims st)
          (final_answer st) (error st).

Definition with_verified_claims (st : ResearchState) (v : dict JValue) : ResearchState :=
  mkState (original_query st) (refined_query st) (retrieved_docs st) (reranked_docs st)
          (draft_answer st) (extracted_claims st) v
          (final_answer st) (error st).

Definition with_final_answer (st : ResearchState) (v : FinalAnswer) : ResearchState :=
  mkState (original_query st) (refined_query st) (retrieved_docs st) (reranked_docs st)
          (draft_answer st) (extracted_claims st) (verified_claims st)
          (Some v) (error st).

Definition with_error (st : ResearchState) (v : string) : ResearchState :=
  mkState (original_query st) (refined_query st) (retrieved_docs st) (reranked_docs st)
          (draft_answer st) (extracted_claims st) (verified_claims st)
          (final_answer st) (Some v).

(** What a node returns: a new dict ([{**state, ...}]) or the dict it was
    given, after an assignment into it ([state[key] = value; return state]). *)
Inductive NodeOut : Type :=
| Copy (st : ResearchState)
| InPlace (st : ResearchState).

Definition out_state (o : NodeOut) : ResearchState :=
  match o with Copy st => st | InPlace st => st end.

(** [state.get("refined_query", state["original_query"])] *)
Definition query_of (st : ResearchState) : string :=
  match refined_query st with
  | Some q => q
  | None => original_query st
  end.

Definition query_understanding_node (env : Env) (st : ResearchState)
  : NodeOut * list Event :=
  match reformulate_query env (original_query st) with
  | (Ok refined, ev) => (Copy (with_refined_query st refined), ev)
  | (Raise e, ev) => (Copy (with_error st ("Query understanding failed: " ++ e)), ev)
  end.

Definition retrieval_node (env : Env) (st : ResearchState) : NodeOut * list Event :=
  let query := query_of st in
  let (docs, ev) := run_retriever env query 5 in
  (Copy (with_retrieved_docs st docs), ev).

(** The inner loops of [reranker_node]: for every ranked dict the first
    retrieved document with the same content, if there is one. *)
Fixpoint match_back (ranked_docs : list RDoc) (retrieved : list Document)
  : list Document :=
  match ranked_docs with
  | [] => []
  | ranked_doc :: rest =>
      match find (fun original_doc =>
                    String.eqb (page_content original_doc) (content ranked_doc))
                 retrieved with
      | Some original_doc => original_doc :: match_back rest retrieved
      | None => match_back rest retrieved
      end
  end.

Definition reranker_node (env : Env) (st : ResearchState) : NodeOut * list Event :=
  let query := query_of st in
  match retrieved_docs st with
  | [] => (Copy (with_reranked_docs st []), [])
  | _ =>
      let docs_for_reranking := convert_docs_to_reranker_format (retrieved_docs st) in
      match RerankerAgent.rerank env query docs_for_reranking 3 with
      | (Ok ranked_docs, ev) =>
          (Copy (with_reranked_docs st (match_back ranked_docs (retrieved_docs st))), ev)
      | (Raise e, ev) => (Copy (with_error st ("Reranking failed: " ++ e)), ev)
      end
  end.

Definition no_documents : string :=
  "No relevant documents found to answer the query.".

Definition reasoning_node (env : Env) (st : ResearchState) : NodeOut * list Event :=
  let query := query_of st in
  let context_docs :=
    match reranked_docs st with
    | [] => retrieved_docs st
    | _ => reranked_docs st
    end in
  match context_docs with
  | [] =>
      (* state["draft_answer"] = ...; return state *)
      (InPlace (with_draft_answer st no_documents), [])
  | _ =>
      let context_text := String.concat (nl ++ nl) (map page_content context_docs) in
      match call (EvReason context_text query) (reasoning_llm env context_text query) with
      | (Ok draft, ev) => (Copy (with_draft_answer st draft), ev)
      | (Raise e, ev) => (Copy (with_error st ("Reasoning failed: " ++ e)), ev)
      end
  end.

Definition claim_extraction_node (env : Env) (st : ResearchState)
  : NodeOut * list Event :=
  let (claims, ev) := ClaimExtractor.extract_claims env (draft_answer st) in
  (Copy (with_extracted_claims st claims), ev).

Definition no_documents_entry : JValue :=
  verification "NOT_SUPPORTED" 0 "No documents available for verification"
               "Cannot verify claims without source documents".

Definition fact_checking_node (env : Env) (st : ResearchState)
  : NodeOut * list Event :=
  let context_docs :=
    match reranked_docs st with
    | [] => retrieved_docs st
    | _ => reranked_docs st
    end in
  match context_docs with
  | [] =>
      let fallback_claims :=
        fold_left (fun d claim => dict_set claim no_documents_entry d)
                  (extracted_claims st) [] in
      (Copy (with_verified_claims st fallback_claims), [])
  | _ =>
      let docs_for_fact_checking := convert_docs_to_reranker_format context_docs in
      let (verified, ev) :=
        FactCheckerAgent.fact_check_claims env (extracted_claims st)
                                           docs_for_fact_checking in
      (Copy (with_verified_claims st verified), ev)
  end.

Definition final_answer_node (env : Env) (st : ResearchState)
  : NodeOut * list Event :=
  let context_docs :=
    match reranked_docs st with
    | [] => retrieved_docs st
    | _ => reranked_docs st
    end in
  match FinalAnswerAgent.generate_final_answer
          env (original_query st) (verified_claims st) context_docs with
  | (Ok final, ev) => (Copy (with_final_answer st final), ev)
  | (Raise e, ev) =>
      (Copy (with_error st ("Final answer generation failed: " ++ e)), ev)
  end.

Definition error_limitations : string :=
  "System error prevented complete processing".

Definition error_node (st : ResearchState) : NodeOut * list Event :=
  let error_msg :=
    match error st with
    | Some e => e
    | None => "Unknown error occurred"
    end in
  (Copy (with_final_answer st
           (mkFinalAnswer ("Pipeline Error: " ++ error_msg) 0 []
                          error_limitations None)),
   []).

(** ** [build_research_graph]: the graph and how LangGraph runs it

    [StateGraph.add_edge] records an edge and
    [StateGraph.add_conditional_edges] records a branch; the compiled
    graph attaches both. When a node has run, every edge that leaves it
    triggers its target and every branch of the node triggers the node its
    function returns, on the state with the writes of the node applied. The
    triggered nodes run in the next step, all on the same state. A key of
    [ResearchState] carries no reducer, so it is a last-value channel: a
    step in which two nodes write it raises [InvalidUpdateError]; every
    node of this graph returns the whole state, so two nodes in one step
    always do. *)

Inductive Node : Type :=
| query_understanding
| retrieval
| reranking
| reasoning
| claim_extraction
| fact_checking
| final_answer_agent
| error_handler
| END.

Definition Node_eqb (a b : Node) : bool :=
  match a, b with
  | query_understanding, query_understanding
  | retrieval, retrieval
  | reranking, reranking
  | reasoning, reasoning
  | claim_extraction, claim_extraction
  | fact_checking, fact_checking
  | final_answer_agent, final_answer_agent
  | error_handler, error_handler
  | END, END => true
  | _, _ => false
  end.

(** [workflow.add_node(name, function)] *)
Definition node_function (env : Env) (n : Node) (st : ResearchState)
  : NodeOut * list Event :=
  match n with
  | query_understanding => query_understanding_node env st
  | retrieval => retrieval_node env st
  | reranking => reranker_node env st
  | reasoning => reasoning_node env st
  | claim_extraction => claim_extraction_node env st
  | fact_checking => fact_checking_node env st
  | final_answer_agent => final_answer_node env st
  | error_handler => error_node st
  | END => (Copy st, [])
  end.

(** The seven [workflow.add_edge] calls. *)
Definition edges : list (Node * Node) :=
  [ (query_understanding, retrieval);
    (retrieval, reranking);
    (reranking, reasoning);
    (reasoning, claim_extraction);
    (claim_extraction, fact_checking);
    (fact_checking, final_answer_agent);
    (final_answer_agent, END) ].

(** The truth value of [state.get("error")]. *)
Definition error_set (st : ResearchState) : bool :=
  match error st with
  | Some e => negb (String.eqb e EmptyString)
  | None => false
  end.

Definition route (next : Node) (st : ResearchState) : Node :=
  if error_set st then error_handler else next.

(** The six [workflow.add_conditional_edges] calls. *)
Definition branches : list (Node * (ResearchState -> Node)) :=
  [ (query_understanding, route retrieval);
    (retrieval, route reranking);
    (reranking, route reasoning);
    (reasoning, route claim_extraction);
    (claim_extraction, route fact_checking);
    (fact_checking, route final_answer_agent) ].

Fixpoint add_node (n : Node) (l : list Node) : list Node :=
  match l with
  | [] => [n]
  | m :: l' => if Node_eqb n m then l else m :: add_node n l'
  end.

(** The nodes triggered by node [n] that left the state [st]. *)
Definition triggered (n : Node) (st : ResearchState) : list Node :=
  let by_edge := map snd (filter (fun e => Node_eqb (fst e) n) edges) in
  let by_branch :=
    map (fun b => snd b st) (filter (fun b => Node_eqb (fst b) n) branches) in
  filter (fun m => negb (Node_eqb m END))
         (fold_left (fun acc m => add_node m acc) (by_edge ++ by_branch)%list []).

(** What a run leaves behind: the nodes that ran, in order, and the calls
    to the collaborators. *)
Record Run (A : Type) : Type := mkRun {
  outcome : A;
  executed : list Node;
  events : list Event
}.

Arguments mkRun {A} outcome executed events.
Arguments outcome {A} r.
Arguments executed {A} r.
Arguments events {A} r.

Definition invalid_update : string :=
  "At key 'original_query': Can receive only one value per step. Use an Annotated key to handle multiple values.".

(** [research_graph.invoke]: the steps from the nodes [active], at most
    [fuel] of them ([recursion_limit], 25 by default). *)
Fixpoint invoke_from (env : Env) (fuel : nat) (active : list Node)
         (st : ResearchState) (done : list Node) (evs : list Event)
  : Run (Result ResearchState) :=
  match active with
  | [] => mkRun (Ok st) done evs
  | [n] =>
      match fuel with
      | O => mkRun (Raise "GraphRecursionError") done evs
      | S fuel' =>
          let (out, ev) := node_function env n st in
          invoke_from env fuel' (triggered n (out_state out)) (out_state out)
                      (done ++ [n])%list (evs ++ ev)%list
      end
  | _ =>
      (* all of them run, then their writes collide *)
      mkRun (Raise invalid_update) (done ++ active)%list
            (evs ++ flat_map (fun n => snd (node_function env n st)) active)%list
  end.

Definition initial_state (query : string) : ResearchState :=
  mkState query (Some EmptyString) [] [] EmptyString [] [] None (Some EmptyString).

Definition invoke (env : Env) (st : ResearchState) : Run (Result ResearchState) :=
  invoke_from env 25 [query_understanding] st [] [].

(** The dict [run_research_pipeline] returns: the final state, or the dict
    of its [except] branch. *)
Inductive PipelineResult : Type :=
| Completed (st : ResearchState)
| SystemError (final : FinalAnswer) (err : string).

Definition run_research_pipeline (env : Env) (query : string)
  : Run PipelineResult :=
  let r := invoke env (initial_state query) in
  match outcome r with
  | Ok st => mkRun (Completed st) (executed r) (events r)
  | Raise e =>
      mkRun (SystemError
               (mkFinalAnswer ("System Error: " ++ e) 0 [] "Critical system failure" None)
               e)
            (executed r) (events r)
  end.

Definition result_final_answer (r : PipelineResult) : option FinalAnswer :=
  match r with
  | Completed st => final_answer st
  | SystemError final _ => Some final
  end.

(** ** Objects and references

    A heap of state dicts; a node is given the address of the dict and
    returns the address of the dict it returns. *)
Definition heap : Type := list ResearchState.

Fixpoint heap_write (h : heap) (a : nat) (st : ResearchState) : heap :=
  match h, a with
  | [], _ => []
  | _ :: h', O => st :: h'
  | x :: h', S a' => x :: heap_write h' a' st
  end.

Definition run_on_heap (node : ResearchState -> NodeOut * list Event)
           (h : heap) (a : nat) : option (heap * nat) :=
  match nth_error h a with
  | None => None
  | Some st =>
      match fst (node st) with
      | Copy st' => Some ((h ++ [st'])%list, List.length h)
      | InPlace st' => Some (heap_write h a st', a)
      end
  end.

(** ** Well-formed verification mappings (spec, section 3) *)

Definition statuses : list string :=
  ["SUPPORTED"; "PARTIALLY_SUPPORTED"; "NOT_SUPPORTED"; "CONTRADICTED"].

(** An entry with one of the four statuses and a confidence in [0,100]. *)
Definition well_formed_entry (v : JValue) : Prop :=
  exists d s c q,
    v = JObj d /\
    dict_lookup "verification_status" d = Some (JStr s) /\ In s statuses /\
    dict_lookup "confidence" d = Some c /\ py_num c = Some q /\
    0 <= q /\ q <= 100.

Definition well_formed (verified_claims : dict JValue) : Prop :=
  Forall well_formed_entry (dict_values verified_claims).

(** A number with at most two decimal places. *)
Definition two_decimals (q : Q) : Prop := exists z : Z, q == Qmake z 100.

(** The aggregators only read the mapping they are given: run on a store
    of mappings, at the address of their argument, they leave the store as
    it was. *)
Definition aggregate_at (aggregate : dict JValue -> Result Q)
           (store : list (dict JValue)) (a : nat)
  : Result Q * list (dict JValue) :=
  (aggregate (nth a store []), store).

(** ** Predicates of the statements *)

(** A claim as [extract_claims] keeps it: more than 10 characters after
    stripping. *)
Definition long_claim (c : string) : Prop := (10 < String.length (strip c))%nat.

(** The mapping [vc] has exactly one entry for every string of [claims]. *)
Definition one_entry_per_claim (claims : list string) (vc : dict JValue) : Prop :=
  NoDup (dict_keys vc)
  /\ (forall c, In c (dict_keys vc) <-> In c claims)
  /\ (forall c, In c claims -> exists v, dict_lookup c vc = Some v).

(** The synthetic record: NOT_SUPPORTED with confidence 0. *)
Definition synthetic (v : JValue) : Prop :=
  exists evidence explanation,
    v = verification "NOT_SUPPORTED" 0 evidence explanation.

(** The status that [generate_final_answer] reads from an entry. *)
Definition status_of (v : JValue) : JValue :=
  match v with
  | JObj d => dict_get d "verification_status" (JStr "UNKNOWN")
  | _ => JStr "UNKNOWN"
  end.

(** The number of entries whose status is one of the four values. *)
Definition count_known (vc : dict JValue) : nat :=
  List.length
    (filter (fun kv => FinalAnswerAgent.known_status (status_of (snd kv))) vc).

(** The status of an entry is one of the four values. *)
Definition known_entry (v : JValue) : Prop :=
  FinalAnswerAgent.known_status (status_of v) = true.

(** C3 as the spec states it, for a final answer and the extracted
    claims of its state. *)
Definition breakdown_sums_to (fa : option FinalAnswer) (n : nat) : Prop :=
  exists f b, fa = Some f /\ claim_breakdown f = Some b /\ breakdown_total b = n.

(** The dict of a retrieved document once its score is assigned. *)
Definition rdoc_of (d : Document) (q : Q) : RDoc :=
  mkRDoc (page_content d) (doc_metadata d) (Some q).





(** The pairs [reranker.rerank] sends to the scorer from [reranker_node]. *)
Definition score_pairs (st : ResearchState) : list (string * string) :=
  map (fun d => (query_of st, content d))
      (convert_docs_to_reranker_format (retrieved_docs st)).

(** ** The texts of the round trip (C7) *)

(** A bound on the fuel the decoder needs for the text of a value. *)
Fixpoint jsize (v : JValue) : nat :=
  match v with
  | JArr l => 2 + List.length l + list_sum (map jsize l)
  | JObj d => 2 + List.length d + list_sum (map (fun kv => jsize (snd kv)) d)
  | _ => 1
  end.

(** The rendering of [v] has a comma before a closing bracket. *)
Fixpoint has_trailing_comma (ta to : bool) (v : JValue) : bool :=
  match v with
  | JArr l =>
      (ta && negb (Nat.eqb (List.length l) 0))
      || existsb (has_trailing_comma ta to) l
  | JObj d =>
      (to && negb (Nat.eqb (List.length d) 0))
      || existsb (fun kv => has_trailing_comma ta to (snd kv)) d
  | _ => false
  end.

(** The decoder failed. *)
Definition failed {A} (r : parse_result A) : Prop :=
  match r with
  | POk _ _ => False
  | _ => True
  end.

(** The decoder failed when [bad], and returned [a] and left [rest]
    otherwise. *)
Definition parses_to {A} (r : parse_result A) (bad : bool) (a : A) (rest : string)
  : Prop :=
  if bad then failed r else r = POk a rest.

(** The first character of the text of a value. *)
Definition value_start (c : ascii) : bool :=
  Ascii.eqb c dq || is_digit c || Ascii.eqb c "-" || Ascii.eqb c "n"
  || Ascii.eqb c "t" || Ascii.eqb c "f" || Ascii.eqb c "[" || Ascii.eqb c "{".

(** What may stand after a value inside a JSON text: nothing, a comma or
    a closing bracket. *)
Definition follows (rest : string) : bool :=
  match rest with
  | EmptyString => true
  | String c _ => Ascii.eqb c "," || Ascii.eqb c "]" || Ascii.eqb c "}"
  end.

Definition nondigit_start (rest : string) : bool :=
  match rest with
  | EmptyString => true
  | String c _ => negb (is_digit c)
  end.

(** A value as Python has it: the keys of every dict are different. *)
Fixpoint wf_value (v : JValue) : Prop :=
  match v with
  | JArr l => fold_right (fun x acc => wf_value x /\ acc) True l
  | JObj d =>
      NoDup (dict_keys d)
      /\ fold_right (fun kv acc => wf_value (snd kv) /\ acc) True d
  | _ => True
  end.

(** The pattern given by [m] matches somewhere in [s]. *)
Fixpoint occurs (m : matcher) (s : string) : bool :=
  match m s with
  | Some _ => true
  | None =>
      match s with
      | String _ r => occurs m r
      | EmptyString => false
      end
  end.

(** The strings of a value: string values and keys. *)
Fixpoint strings_of (v : JValue) : list string :=
  match v with
  | JStr s => [s]
  | JArr l => flat_map strings_of l
  | JObj d => flat_map (fun kv => fst kv :: strings_of (snd kv)) d
  | _ => []
  end.

(** No string of [v], as it is rendered, has a match of [m]. *)
Definition strings_free_of (m : matcher) (v : JValue) : Prop :=
  Forall (fun s => occurs m (render_string s) = false) (strings_of v).

(** How a model wraps its JSON: not at all, in a plain fence, or in a
    fence tagged [json]; the fence lines are separated by line feeds. *)
Inductive Wrapping : Type := Bare | Fenced | FencedJson.

Definition wrap (w : Wrapping) (body : string) : string :=
  match w with
  | Bare => body
  | Fenced => backticks ++ nl ++ body ++ nl ++ backticks
  | FencedJson => backticks ++ "json" ++ nl ++ body ++ nl ++ backticks
  end.

Definition is_array (v : JValue) : Prop := exists l, v = JArr l.
Definition is_object (v : JValue) : Prop := exists d, v = JObj d.

(** Decoding the text of [v], written with the trailing commas [ta] and
    [to] and followed by [rest], gives [v] back and leaves [rest], or fails
    when the text has a trailing comma. *)
Definition round_trip_at (ta to : bool) (v : JValue) : Prop :=
  wf_value v ->
  forall fuel rest,
    (jsize v < fuel)%nat -> follows rest = true ->
    parses_to (parse_value fuel (render ta to v ++ rest))
              (has_trailing_comma ta to v) v rest.

(** ** Substitution passes over a text (C7) *)

(** What is left after a match of [m] is shorter than the text. *)
Definition shrinking (m : matcher) : Prop :=
  forall s rest, m s = Some rest -> (String.length rest < String.length s)%nat.

(** No match of [m] starts inside [a] when [b] follows it. *)
Fixpoint quiet (m : matcher) (a b : string) : Prop :=
  match a with
  | EmptyString => True
  | String _ r => m (a ++ b) = None /\ quiet m r b
  end.

Fixpoint all_chars (p : ascii -> bool) (s : string) : bool :=
  match s with
  | EmptyString => true
  | String c r => p c && all_chars p r
  end.

(** The characters at which none of the patterns of the parsers starts:
    all but the comma and the backtick. *)
Definition inert_char (c : ascii) : bool :=
  negb (Ascii.eqb c ",") && negb (Ascii.eqb c "`").

Definition not_dq (c : ascii) : bool := negb (Ascii.eqb c dq).

(** The sign of a rendered integer. *)
Definition sign_text (neg : bool) : string := if neg then "-" else "".

(** ** Example runs *)

Module Examples.

Definition doc_a : Document :=
  mkDocument "Workflow 789 failed to start." [("source", "kb-1")].

Definition doc_b : Document :=
  mkDocument "The trigger needs a valid API key." [("source", "kb-2")].

Definition claim_a : string := "Workflow 789 failed to start".

(** A run in which the verification model answers with a status outside
    the four values. *)
Definition env_unknown_status : Env :=
  mkEnv (fun _ => Ok "Why did workflow 789 not start?")
        (fun _ _ => Ok [doc_a; doc_b])
        (fun _ => Ok [2; 1])
        (fun _ _ => Ok "Workflow 789 failed to start.")
        (fun _ => Ok (json_dumps (JArr [JStr claim_a])))
        (fun _ _ =>
           Ok (json_dumps
                 (JObj [(claim_a,
                         JObj [("verification_status", JStr "UNVERIFIABLE");
                               ("confidence", JInt 50)])])))
        (fun _ => Ok "Limited verified information was found.").

(** A run in which the claim model lists the same claim twice. *)
Definition env_duplicate_claims : Env :=
  mkEnv (fun _ => Ok "Why did workflow 789 not start?")
        (fun _ _ => Ok [doc_a; doc_b])
        (fun _ => Ok [2; 1])
        (fun _ _ => Ok "Workflow 789 failed to start.")
        (fun _ => Ok (json_dumps (JArr [JStr claim_a; JStr claim_a])))
        (fun _ _ => Ok (json_dumps (JObj [(claim_a, verification "SUPPORTED" 90 "" "")])))
        (fun _ => Ok "Workflow 789 failed to start [Source: kb-1].").

(** A run in which the query model answers with blanks only. *)
Definition env_blank_refinement : Env :=
  mkEnv (fun _ => Ok "   ")
        (fun _ _ => Ok [doc_a; doc_b])
        (fun _ => Ok [2; 1])
        (fun _ _ => Ok "Workflow 789 failed to start.")
        (fun _ => Ok (json_dumps (JArr [JStr claim_a])))
        (fun _ _ => Ok (json_dumps (JObj [(claim_a, verification "SUPPORTED" 90 "" "")])))
        (fun _ => Ok "Workflow 789 failed to start [Source: kb-1].").

(** A run in which the query model raises. *)
Definition env_refine_fails : Env :=
  mkEnv (fun _ => Raise "model not loaded")
        (fun _ _ => Ok [doc_a; doc_b])
        (fun _ => Ok [2; 1])
        (fun _ _ => Ok "Workflow 789 failed to start.")
        (fun _ => Ok (json_dumps (JArr [JStr claim_a])))
        (fun _ _ => Ok (json_dumps (JObj [(claim_a, verification "SUPPORTED" 90 "" "")])))
        (fun _ => Ok "Workflow 789 failed to start [Source: kb-1].").

(** Two retrieved documents with the same text from different sources,
    and a scorer that gives every passage the same score. *)
Definition dup_a1 : Document :=
  mkDocument "Expense approvals are automatic." [("source", "finance-guide")].

Definition dup_b : Document :=
  mkDocument "Chatbots answer status inquiries." [("source", "chatbot-docs")].

Definition dup_a2 : Document :=
  mkDocument "Expense approvals are automatic." [("source", "audit-report")].

Definition env_equal_scores : Env :=
  mkEnv (fun _ => Ok "expense approvals")
        (fun _ _ => Ok [dup_a1; dup_b; dup_a2])
        (fun pairs => Ok (map (fun _ => 1) pairs))
        (fun _ _ => Ok "Expense approvals are automatic.")
        (fun _ => Ok (json_dumps (JArr [JStr claim_a])))
        (fun _ _ => Ok (json_dumps (JObj [(claim_a, verification "SUPPORTED" 90 "" "")])))
        (fun _ => Ok "Expense approvals are automatic.").


(** A state that reached the error handler. *)
Definition failed_state : ResearchState :=
  with_error (initial_state "q") "Reranking failed: timeout".

End Examples.

(** ** [final_answer_agent.extract_json_from_text]

    The third copy of the parser (the agent defines it and does not call
    it): the braces only, the repairs in the order of the fact checker, and
    the empty dict when nothing can be decoded. *)
Module FinalAnswerParser.

Definition extract_json_from_text (text : string) : JValue :=
  let text := re_sub fence_json "" text in
  let text := re_sub fence "" text in
  let text := strip text in
  match search_span "{" "}" text with
  | Some json_str =>
      match json_loads json_str with
      | Some v => v
      | None =>
          let json_str := re_sub (comma_before "}") "}" json_str in
          let json_str := re_sub (comma_before "]") "]" json_str in
          match json_loads json_str with
          | Some v => v
          | None => JObj []
          end
      end
  | None => JObj []
  end.

End FinalAnswerParser.

(** The text [s] has no character [c]. *)
Definition lacks (c : ascii) (s : string) : bool :=
  all_chars (fun a => negb (Ascii.eqb a c)) s.

(** ** [load_docs.py]: the normalisation of an extracted text *)

(** The longest prefix of characters in the class [p], and what follows. *)
Fixpoint span (p : ascii -> bool) (s : string) : string * string :=
  match s with
  | String c r =>
      if p c then let (run, rest) := span p r in (String c run, rest)
      else (EmptyString, s)
  | EmptyString => (EmptyString, EmptyString)
  end.

(** The pattern [[class]{n,}]: a greedy run of at least [n] characters of
    the class. *)
Definition at_least (p : ascii -> bool) (n : nat) : matcher :=
  fun s =>
    let (run, rest) := span p s in
    if (n <=? String.length run)%nat then Some rest else None.

(** A literal as a pattern; [s.replace(old, new)] for a non-empty [old]
    replaces its occurrences from the left, without overlap. *)
Definition literal (lit : string) : matcher :=
  fun s => if prefix lit s then Some (drop (String.length lit) s) else None.

Definition str_replace (old new s : string) : string := re_sub (literal old) new s.

Definition cr : string := String (ascii_of_nat 13) EmptyString.

Definition is_nl (c : ascii) : bool := Ascii.eqb c (ascii_of_nat 10).

(** The class [[ \t]]. *)
Definition is_blank (c : ascii) : bool :=
  Ascii.eqb c " " || Ascii.eqb c (ascii_of_nat 9).

Module LoadDocs.

Definition normalize_text (text : string) : string :=
  let text := str_replace cr nl (str_replace (cr ++ nl) nl text) in
  let text := re_sub (at_least is_nl 3) (nl ++ nl) text in
  let text := re_sub (at_least is_blank 2) " " text in
  strip text.

End LoadDocs.

(** The length of the run of [p] at the start of [s]. *)
Definition run_len (p : ascii -> bool) (s : string) : nat :=
  String.length (fst (span p s)).

(** A text as [normalize_text] leaves it: no carriage return, no three
    line feeds in a row, no two blanks in a row, no white space at either
    end. *)
Definition normalized (t : string) : Prop :=
  lacks (ascii_of_nat 13) t = true
  /\ occurs (at_least is_nl 3) t = false
  /\ occurs (at_least is_blank 2) t = false
  /\ strip t = t.

(** ** [streamlit_logger.py]: the capture of what the agents print

    [get_level] compares a line with markers that lie outside the code
    points of the embedding; the capture only passes the line to it, so it
    is a parameter here. The callback of the logger is not modelled: its
    exceptions are caught and it does not touch the logs. *)

(** [s.split('\n')] *)
Fixpoint split_nl (s : string) : list string :=
  match s with
  | EmptyString => [EmptyString]
  | String c r =>
      if is_nl c then EmptyString :: split_nl r
      else
        match split_nl r with
        | l :: ls => String c l :: ls
        | [] => [String c EmptyString]
        end
  end.

(** [s.split('\n', 1)] when there is a line feed in [s]. *)
Fixpoint cut_line (s : string) : option (string * string) :=
  match s with
  | EmptyString => None
  | String c r =>
      if is_nl c then Some (EmptyString, r)
      else
        match cut_line r with
        | Some (line, rest) => Some (String c line, rest)
        | None => None
        end
  end.

(** The truth value of [line.strip()]. *)
Definition nonblank (line : string) : bool := negb (String.eqb (strip line) EmptyString).

Module StreamlitLogger.

Section WithLevels.

Variable get_level : string -> string.

(** [RealTimeStdout] with the logs of its logger: what went to the
    original stdout, the buffer, and the list of [(level, message)]. *)
Record RealTimeStdout : Type := mkStdout {
  original_stdout : string;
  buffer : string;
  logs : list (string * string)
}.

(** [RealTimeStreamlitLogger.add_log] *)
Definition add_log (l : list (string * string)) (message level : string)
  : list (string * string) :=
  (l ++ [(level, message)])%list.

(** The lines, as [write], [flush] and the buffered capture log them. *)
Definition log_line (l : list (string * string)) (line : string)
  : list (string * string) :=
  if nonblank line then add_log l line (get_level line) else l.

(** [while '\n' in self.buffer: ...]; every turn removes a line feed, so
    a fuel above the length of the buffer is never used up. *)
Fixpoint drain (fuel : nat) (buf : string) (l : list (string * string))
  : string * list (string * string) :=
  match fuel with
  | O => (buf, l)
  | S fuel' =>
      match cut_line buf with
      | Some (line, rest) => drain fuel' rest (log_line l line)
      | None => (buf, l)
      end
  end.

Definition write (out : RealTimeStdout) (text : string) : RealTimeStdout :=
  let buf := buffer out ++ text in
  let (buf', l) := drain (S (String.length buf)) buf (logs out) in
  mkStdout (original_stdout out ++ text) buf' l.

Definition flush (out : RealTimeStdout) : RealTimeStdout :=
  if nonblank (buffer out)
  then mkStdout (original_stdout out) EmptyString
                (add_log (logs out) (buffer out) (get_level (buffer out)))
  else out.

(** [capture_logs(real_time=True)] around a body that writes [texts]: the
    logs of the logger afterwards. *)
Definition capture_real_time (l : list (string * string)) (texts : list string)
  : list (string * string) :=
  logs (flush (fold_left write texts (mkStdout EmptyString EmptyString l))).

(** [capture_logs(real_time=False)] around the same body. *)
Definition capture_buffered (l : list (string * string)) (texts : list string)
  : list (string * string) :=
  fold_left log_line (split_nl (String.concat EmptyString texts)) l.

End WithLevels.

End StreamlitLogger.

(** ** Replies of the fact checker that use the claims as keys *)


(** ** More example runs *)

Module MoreExamples.

(** A run in which the vector store cannot be loaded. *)
Definition env_search_down : Env :=
  mkEnv (fun _ => Ok "Why did workflow 789 not start?")
        (fun _ _ => Raise "vector store not found")
        (fun _ => Ok [])
        (fun _ _ => Ok "unused")
        (fun _ => Ok (json_dumps (JArr [JStr "No relevant documents were found"])))
        (fun _ _ => Ok "{}")
        (fun _ => Ok "Limited verified information was found.").



(** The claim model answers in prose. *)
Definition prose : string :=
  "The workflow 789 failed to start on Monday. Please retry later!".

Definition env_prose_claims : Env :=
  mkEnv (fun _ => Ok "unused")
        (fun _ _ => Ok [])
        (fun _ => Ok [])
        (fun _ _ => Ok "unused")
        (fun _ => Ok prose)
        (fun _ _ => Ok "{}")
        (fun _ => Ok "unused").

End MoreExamples.

(** ** Entries as the aggregators read them *)

(** The status the aggregators read from a dict entry. *)
Definition aggregator_status (d : dict JValue) : JValue :=
  dict_get d "verification_status" (JStr "NOT_SUPPORTED").

(** An entry the final-answer aggregator can process: a dict whose
    confidence is a number when its status is SUPPORTED or
    PARTIALLY_SUPPORTED (the only statuses for which it does arithmetic). *)
Definition usable (v : JValue) : Prop :=
  exists d,
    v = JObj d
    /\ (py_eq_str (aggregator_status d) "SUPPORTED"
         || py_eq_str (aggregator_status d) "PARTIALLY_SUPPORTED" = true ->
        exists q, py_num (dict_get d "confidence" (JInt 0)) = Some q).

(** A dict entry whose status is neither SUPPORTED nor PARTIALLY_SUPPORTED. *)
Definition unsupported (v : JValue) : Prop :=
  exists d,
    v = JObj d
    /\ py_eq_str (aggregator_status d) "SUPPORTED" = false
    /\ py_eq_str (aggregator_status d) "PARTIALLY_SUPPORTED" = false.

(** A number that arithmetic with a float accepts: a float, a bool, or an
    int below [float_limit] in absolute value. *)
Definition in_float_range (v : JValue) : Prop :=
  match v with
  | JInt z => (Z.abs z < float_limit)%Z
  | JFloat _ _ => True
  | JBool _ => True
  | _ => False
  end.

(** An entry on which the fact checker's aggregator can do its
    arithmetic: a dict whose confidence (0 when the key is missing) is
    such a number. *)
Definition convertible (v : JValue) : Prop :=
  exists d, v = JObj d /\ in_float_range (dict_get d "confidence" (JInt 0)).

(** ** The runs of the pipeline *)

(** The seven stages in the order of the [add_edge] calls. *)
Definition stage_order : list Node :=
  [ query_understanding; retrieval; reranking; reasoning; claim_extraction;
    fact_checking; final_answer_agent ].

(** The stages from [n] on. *)
Fixpoint stages_from_in (n : Node) (l : list Node) : list Node :=
  match l with
  | [] => []
  | m :: l' => if Node_eqb n m then l else stages_from_in n l'
  end.

Definition stages_from (n : Node) : list Node := stages_from_in n stage_order.

(** The state that VerifyClaims and ComposeFinalAnswer leave. *)
Definition verify_and_compose (env : Env) (st : ResearchState) : ResearchState :=
  out_state (fst (final_answer_node env (out_state (fst (fact_checking_node env st))))).

(** What a run of the graph can come to: it ends, having executed the
    nodes [ex], in a state that still holds the query [q] and whose final
    answer, if it has one, is not the record of the error handler; or two
    nodes wrote in one step, one of them the error handler. *)
Definition run_ends (r : Run (Result ResearchState)) (ex : list Node) (q : string)
  : Prop :=
  (exists st,
      outcome r = Ok st /\ executed r = ex /\ original_query st = q
      /\ forall fa, final_answer st = Some fa -> limitations fa <> error_limitations)
  \/ (outcome r = Raise invalid_update /\ In error_handler (executed r)).

(** ** The calls of a run *)

(** The position in [stage_order] of the stage that makes a call, and of
    a node. *)
Definition event_rank (e : Event) : nat :=
  match e with
  | EvRefine _ => 0
  | EvSearch _ _ => 1
  | EvScore _ => 2
  | EvReason _ _ => 3
  | EvClaims _ => 4
  | EvFact _ _ => 5
  | EvFinal _ => 6
  end.

Definition node_rank (n : Node) : nat :=
  match n with
  | query_understanding => 0
  | retrieval => 1
  | reranking => 2
  | reasoning => 3
  | claim_extraction => 4
  | fact_checking => 5
  | final_answer_agent => 6
  | error_handler => 7
  | END => 8
  end.

(** The calls [evs] were made by stages before position [k], in the order
    of the stages, and no stage made two. *)
Definition calls_in_order (k : nat) (evs : list Event) : Prop :=
  StronglySorted lt (map event_rank evs)
  /\ Forall (fun e => (event_rank e < k)%nat) evs.

(** ** Case analysis on a character *)

Ltac ascii_cases c :=
  let b0 := fresh "b" in let b1 := fresh "b" in let b2 := fresh "b" in
  let b3 := fresh "b" in let b4 := fresh "b" in let b5 := fresh "b" in
  let b6 := fresh "b" in let b7 := fresh "b" in
  destruct c as [b0 b1 b2 b3 b4 b5 b6 b7];
  destruct b0, b1, b2, b3, b4, b5, b6, b7.

(* ================================================================= *)
(** * Part II: theorems *)
(* ================================================================= *)


(** ** Rounding *)

Lemma round_half_even_bounds (q : Q) :
  (Qfloor q <= round_half_even q <= Qfloor q + 1)%Z.
Proof.
  unfold round_half_even.
  destruct (Qcompare _ _); [destruct (Z.even _) | | ]; lia.
Qed.

Lemma round_half_even_Z (z : Z) : round_half_even (inject_Z z) = z.
Proof.
  unfold round_half_even. rewrite Qfloor_Z.
  assert (H : inject_Z z - inject_Z z == 0) by ring.
  rewrite H. reflexivity.
Qed.

Lemma round_half_even_le_Z (q : Q) (z : Z) :
  q <= inject_Z z -> (round_half_even q <= z)%Z.
Proof.
  intros Hq.
  destruct (Qlt_le_dec q (inject_Z z)) as [Hlt | Hge].
  - pose proof (round_half_even_bounds q) as [_ Hub].
    assert (Qfloor q < z)%Z.
    { apply Z.lt_nge. intros Hc.
      pose proof (Qfloor_le q) as Hf.
      assert (inject_Z z <= inject_Z (Qfloor q)) by (rewrite <- Zle_Qle; exact Hc).
      lra. }
    lia.
  - assert (Heq : q == inject_Z z) by lra.
    unfold round_half_even.
    assert (Hf : Qfloor q = z) by (rewrite Heq; apply Qfloor_Z).
    rewrite Hf.
    assert (H0 : q - inject_Z z == 0) by lra.
    rewrite H0. simpl. lia.
Qed.

Lemma round_half_even_ge_Z (q : Q) (z : Z) :
  inject_Z z <= q -> (z <= round_half_even q)%Z.
Proof.
  intros Hq.
  pose proof (round_half_even_bounds q) as [Hlb _].
  assert (z <= Qfloor q)%Z.
  { rewrite <- (Qfloor_Z z). apply Qfloor_resp_le. exact Hq. }
  lia.
Qed.

Lemma py_round2_range (q : Q) :
  0 <= q -> q <= 100 -> 0 <= py_round2 q /\ py_round2 q <= 100.
Proof.
  intros H0 H100. unfold py_round2.
  assert (Hlo : (0 <= round_half_even (q * 100))%Z).
  { apply round_half_even_ge_Z. change (inject_Z 0) with 0. lra. }
  assert (Hhi : (round_half_even (q * 100) <= 10000)%Z).
  { apply round_half_even_le_Z. change (inject_Z 10000) with 10000. lra. }
  unfold Qle; simpl. split; lia.
Qed.

Lemma py_round2_two_decimals (q : Q) : two_decimals (py_round2 q).
Proof. exists (round_half_even (q * 100)). reflexivity. Qed.

(** ** Numbers and their conversion to floats *)

Lemma py_num_number (v : JValue) (q : Q) :
  py_num v = Some q ->
  exists n, py_number v = Some n /\ number_value n = q.
Proof.
  destruct v as [| [|] | z | m e | s | l | d]; cbn [py_num py_number];
    intros H; try discriminate H; injection H as <-; eexists;
    split; reflexivity.
Qed.

Lemma py_number_num (v : JValue) (n : PyNumber) :
  py_number v = Some n -> py_num v = Some (number_value n).
Proof.
  destruct v as [| [|] | z | m e | s | l | d]; cbn [py_num py_number];
    intros H; try discriminate H; injection H as <-; reflexivity.
Qed.

Lemma float_limit_large : (100 < float_limit)%Z.
Proof. vm_compute. reflexivity. Qed.

Lemma to_float_small (n : PyNumber) :
  0 <= number_value n -> number_value n <= 100 ->
  to_float n = Ok (number_value n).
Proof.
  destruct n as [z | q]; cbn [number_value to_float]; [| reflexivity].
  intros H0 H1.
  change 0 with (inject_Z 0) in H0. change 100 with (inject_Z 100) in H1.
  rewrite <- Zle_Qle in H0, H1.
  pose proof float_limit_large as HL.
  destruct (Z.ltb_spec (Z.abs z) float_limit) as [_ | Hge]; [reflexivity | lia].
Qed.

(** ** The two confidence aggregators on well-formed mappings *)

Lemma status_cases (s : string) :
  In s statuses ->
  s = "SUPPORTED" \/ s = "PARTIALLY_SUPPORTED" \/ s = "NOT_SUPPORTED"
  \/ s = "CONTRADICTED".
Proof.
  unfold statuses; simpl. intros [H | [H | [H | [H | []]]]]; subst; auto.
Qed.

Lemma weight_of_range (s : string) :
  In s statuses ->
  0 <= FactCheckerAgent.weight_of (JStr s) /\ FactCheckerAgent.weight_of (JStr s) <= 1.
Proof.
  intros H; apply status_cases in H.
  destruct H as [-> | [-> | [-> | ->]]]; vm_compute; intuition discriminate.
Qed.

Lemma Qmult_unit_interval (c w : Q) :
  0 <= c -> c <= 100 -> 0 <= w -> w <= 1 -> 0 <= c * w /\ c * w <= 100.
Proof. intros; split; nra. Qed.

Lemma inject_S (n : nat) :
  inject_Z (Z.of_nat (S n)) == inject_Z (Z.of_nat n) + 1.
Proof.
  rewrite Nat2Z.inj_succ. unfold Z.succ. rewrite inject_Z_plus. reflexivity.
Qed.

Lemma fact_checker_loop_ok (vals : list JValue) :
  Forall well_formed_entry vals ->
  forall total count,
    0 <= total -> total <= 100 * inject_Z (Z.of_nat count) ->
    exists total',
      FactCheckerAgent.conf_loop vals total count
      = Ok (total', (count + length vals)%nat)
      /\ 0 <= total'
      /\ total' <= 100 * inject_Z (Z.of_nat (count + length vals)).
Proof.
  induction 1 as [| v vals Hv _ IH]; intros total count H0 H1.
  - exists total. simpl. rewrite Nat.add_0_r. auto.
  - destruct Hv as (d & s & c & q & -> & Hs & Hin & Hc & Hq & Hq0 & Hq1).
    cbn [FactCheckerAgent.conf_loop py_get]. unfold dict_get. rewrite Hc, Hs.
    destruct (py_num_number c q Hq) as (n & -> & <-).
    unfold py_mul_float. rewrite (to_float_small n Hq0 Hq1).
    set (q := number_value n) in *.
    destruct (weight_of_range s Hin) as [Hw0 Hw1].
    destruct (Qmult_unit_interval q _ Hq0 Hq1 Hw0 Hw1) as [Hp0 Hp1].
    destruct (IH (total + q * FactCheckerAgent.weight_of (JStr s)) (S count))
      as (total' & Heq & Ht0 & Ht1).
    + lra.
    + rewrite inject_S. lra.
    + exists total'. cbn [length]. rewrite Nat.add_succ_r. auto.
Qed.

Lemma final_answer_loop_ok (items : dict JValue) :
  Forall well_formed_entry (dict_values items) ->
  forall total valid,
    0 <= total -> total <= 100 * inject_Z (Z.of_nat valid) ->
    exists total',
      FinalAnswerAgent.conf_loop items total valid
      = Ok (total', (valid + length items)%nat)
      /\ 0 <= total'
      /\ total' <= 100 * inject_Z (Z.of_nat (valid + length items)).
Proof.
  induction items as [| [k v] items IH]; intros Hwf total valid H0 H1.
  - exists total. simpl. rewrite Nat.add_0_r. auto.
  - inversion Hwf as [| ? ? Hv Hrest]; subst.
    destruct Hv as (d & s & c & q & Hvd & Hs & Hin & Hc & Hq & Hq0 & Hq1).
    simpl in Hvd. subst v.
    cbn [FinalAnswerAgent.conf_loop py_get]. unfold dict_get. rewrite Hc, Hs.
    cbn [length]. rewrite Nat.add_succ_r.
    assert (HS : 100 * inject_Z (Z.of_nat (S valid))
                 == 100 * inject_Z (Z.of_nat valid) + 100)
      by (rewrite inject_S; ring).
    apply status_cases in Hin.
    destruct Hin as [-> | [-> | [-> | ->]]]; cbn; try rewrite Hq;
      apply (IH Hrest); try lra; nra.
Qed.

Lemma mean_range (total : Q) (n : nat) :
  (0 < n)%nat -> 0 <= total -> total <= 100 * inject_Z (Z.of_nat n) ->
  0 <= total / inject_Z (Z.of_nat n) /\ total / inject_Z (Z.of_nat n) <= 100.
Proof.
  intros Hn H0 H1.
  assert (Hpos : 0 < inject_Z (Z.of_nat n)).
  { change 0 with (inject_Z 0). rewrite <- Zlt_Qlt. lia. }
  split.
  - apply Qle_shift_div_l; [exact Hpos | lra].
  - apply Qle_shift_div_r; [exact Hpos | lra].
Qed.

Lemma py_min100_range (q : Q) :
  0 <= q -> q <= 100 -> py_min100 q == q.
Proof.
  intros H0 H1. unfold py_min100.
  destruct (Qle_bool 100 q) eqn:E; [| reflexivity].
  apply Qle_bool_iff in E. lra.
Qed.

Lemma fact_checker_confidence_ok (vc : dict JValue) :
  well_formed vc ->
  exists r, FactCheckerAgent.calculate_overall_confidence vc = Ok r
            /\ 0 <= r /\ r <= 100 /\ two_decimals r.
Proof.
  intros Hwf. destruct vc as [| kv vc'] eqn:E.
  - exists 0. split; [reflexivity |]. split; [lra |]. split; [lra |].
    exists 0%Z. reflexivity.
  - rewrite <- E in *. unfold FactCheckerAgent.calculate_overall_confidence.
    destruct (fact_checker_loop_ok _ Hwf 0 0%nat) as (t & Heq & Ht0 & Ht1);
      [lra | unfold Qle; simpl; lia |].
    rewrite Heq. cbn [Nat.add].
    assert (Hlen : (0 < length (dict_values vc))%nat)
      by (subst vc; simpl; lia).
    cbn [Nat.add] in Ht1.
    destruct (0 <? length (dict_values vc))%nat eqn:Hc;
      [| apply Nat.ltb_ge in Hc; lia].
    destruct (mean_range t _ Hlen Ht0 Ht1) as [Hm0 Hm1].
    destruct (py_round2_range _ Hm0 Hm1) as [Hr0 Hr1].
    subst vc. eexists; split; [reflexivity |].
    split; [exact Hr0 |]. split; [exact Hr1 |]. apply py_round2_two_decimals.
Qed.

Lemma final_answer_confidence_ok (vc : dict JValue) :
  well_formed vc ->
  exists r, FinalAnswerAgent.calculate_overall_confidence vc = Ok r
            /\ 0 <= r /\ r <= 100 /\ two_decimals r.
Proof.
  intros Hwf. destruct vc as [| kv vc'] eqn:E.
  - exists 0. split; [reflexivity |]. split; [lra |]. split; [lra |].
    exists 0%Z. reflexivity.
  - rewrite <- E in *. unfold FinalAnswerAgent.calculate_overall_confidence.
    destruct (final_answer_loop_ok _ Hwf 0 0%nat) as (t & Heq & Ht0 & Ht1);
      [lra | unfold Qle; simpl; lia |].
    rewrite Heq. cbn [Nat.add] in *.
    assert (Hlen : (0 < length vc)%nat) by (subst vc; simpl; lia).
    destruct (length vc =? 0)%nat eqn:Hc; [apply Nat.eqb_eq in Hc; lia |].
    destruct (mean_range t _ Hlen Ht0 Ht1) as [Hm0 Hm1].
    destruct (py_round2_range _ Hm0 Hm1) as [Hr0 Hr1].
    pose proof (py_min100_range _ Hr0 Hr1) as Hmin.
    subst vc. eexists; split; [reflexivity |].
    split; [rewrite Hmin; exact Hr0 |]. split; [rewrite Hmin; exact Hr1 |].
    destruct (py_round2_two_decimals (t / inject_Z (Z.of_nat (length (kv :: vc')))))
      as [z Hz].
    exists z. rewrite Hmin. exact Hz.
Qed.

(** ** C4: the Confidence Aggregator on well-formed mappings *)

(** C4. For every well-formed verified-claims mapping (each entry with one
    of the four statuses and a confidence in [0,100]), each of the two
    aggregators returns a value in [0,100] with two decimal places; called
    a second time on the same mapping it returns the same value and the
    mapping is not modified; and it returns 0 for the empty mapping. *)
Theorem confidence_aggregator_well_formed (vc : dict JValue) :
  well_formed vc ->
  (exists r, FactCheckerAgent.calculate_overall_confidence vc = Ok r
             /\ 0 <= r /\ r <= 100 /\ two_decimals r)
  /\ (exists r, FinalAnswerAgent.calculate_overall_confidence vc = Ok r
                /\ 0 <= r /\ r <= 100 /\ two_decimals r)
  /\ (forall aggregate store a,
        In aggregate [FactCheckerAgent.calculate_overall_confidence;
                      FinalAnswerAgent.calculate_overall_confidence] ->
        nth a store [] = vc ->
        let (r1, store1) := aggregate_at aggregate store a in
        let (r2, store2) := aggregate_at aggregate store1 a in
        r1 = r2 /\ store2 = store /\ nth a store2 [] = vc)
  /\ FactCheckerAgent.calculate_overall_confidence [] = Ok 0
  /\ FinalAnswerAgent.calculate_overall_confidence [] = Ok 0.
Proof.
  intros Hwf. split; [| split; [| split; [| split]]].
  - apply fact_checker_confidence_ok, Hwf.
  - apply final_answer_confidence_ok, Hwf.
  - intros aggregate store a _ Hvc. unfold aggregate_at. auto.
  - reflexivity.
  - reflexivity.
Qed.

Lemma verification_well_formed (s : string) (c : Z) (ev ex : string) :
  In s statuses -> (0 <= c <= 100)%Z ->
  well_formed_entry (verification s c ev ex).
Proof.
  intros Hs [Hc0 Hc1].
  exists [ ("verification_status", JStr s); ("confidence", JInt c);
           ("evidence", JStr ev); ("explanation", JStr ex) ],
         s, (JInt c), (inject_Z c).
  repeat split; auto.
  - change 0 with (inject_Z 0). rewrite <- Zle_Qle. exact Hc0.
  - change 100 with (inject_Z 100). rewrite <- Zle_Qle. exact Hc1.
Qed.

Lemma confidence_aggregator_well_formed_witness :
  let vc := [ ("The report covers the third quarter",
               verification "SUPPORTED" 90 "quote" "stated") ] in
  well_formed vc
  /\ (exists r, FactCheckerAgent.calculate_overall_confidence vc = Ok r
                /\ 0 <= r /\ r <= 100 /\ two_decimals r).
Proof.
  assert (Hwf : well_formed
                  [ ("The report covers the third quarter",
                     verification "SUPPORTED" 90 "quote" "stated") ]).
  { constructor; [| constructor].
    apply verification_well_formed; [simpl; auto | lia]. }
  split; [exact Hwf |].
  exact (proj1 (confidence_aggregator_well_formed _ Hwf)).
Defined.

(** ** C8: the two aggregators differ *)

(** C8. There is a well-formed verified-claims mapping on which the
    aggregator of the fact-checker module and the aggregator of the
    final-answer module return different values: one claim that is
    PARTIALLY_SUPPORTED with confidence 100 gives 60 and 70. *)
Theorem confidence_aggregators_diverge :
  exists vc r1 r2,
    well_formed vc
    /\ FactCheckerAgent.calculate_overall_confidence vc = Ok r1
    /\ FinalAnswerAgent.calculate_overall_confidence vc = Ok r2
    /\ r1 == 60 /\ r2 == 70 /\ ~ r1 == r2.
Proof.
  exists [ ("The rollout finished in March",
            verification "PARTIALLY_SUPPORTED" 100 "quote" "indirect") ].
  eexists. eexists.
  split; [| split; [| split; [| split; [| split]]]].
  - constructor; [| constructor].
    apply verification_well_formed; [simpl; auto | lia].
  - vm_compute. reflexivity.
  - vm_compute. reflexivity.
  - reflexivity.
  - reflexivity.
  - intros H. vm_compute in H. discriminate H.
Qed.

(** ** C10: what [extract_claims] returns *)

Lemma keep_claim_long (v : JValue) (c : string) :
  ClaimExtractor.keep_claim v = Some c -> long_claim c.
Proof.
  destruct v; simpl; try discriminate.
  destruct (negb (String.eqb s "") && (10 <? String.length (strip s))%nat) eqn:E;
    [| discriminate].
  intros [= <-]. apply andb_true_iff in E. destruct E as [_ E].
  apply Nat.ltb_lt in E. exact E.
Qed.

Lemma filter_claims_long (l : list JValue) :
  Forall long_claim (ClaimExtractor.filter_claims l).
Proof.
  induction l as [| v l IH]; simpl; [constructor |].
  destruct (ClaimExtractor.keep_claim v) as [c |] eqn:E; [| exact IH].
  constructor; [eapply keep_claim_long; eassumption | exact IH].
Qed.

(** C10. For every input text and every response of the model (a text or an
    exception), every element of the list returned by [extract_claims] is a
    string whose length after stripping exceeds 10: on the parse paths, on
    the sentence-splitting fallback, on the blank-input sentinel path and on
    the fixed list returned when the collaborator fails. *)
Theorem extract_claims_long (env : Env) (answer_text : string) :
  Forall long_claim (fst (ClaimExtractor.extract_claims env answer_text)).
Proof.
  unfold ClaimExtractor.extract_claims.
  destruct (String.eqb answer_text "" || String.eqb (strip answer_text) "").
  - simpl. constructor; [| constructor]. unfold long_claim. vm_compute. lia.
  - unfold call. destruct (claim_model env answer_text) as [response_text | e].
    + simpl. apply filter_claims_long.
    + simpl. unfold ClaimExtractor.fallback_claims, long_claim.
      repeat constructor; vm_compute; lia.
Qed.

(** ** Dicts *)

Lemma dict_set_keys {V} (k : string) (v : V) (d : dict V) :
  dict_keys (dict_set k v d)
  = if existsb (String.eqb k) (dict_keys d) then dict_keys d
    else (dict_keys d ++ [k])%list.
Proof.
  induction d as [| [k' v'] d IH]; simpl; [reflexivity |].
  destruct (String.eqb k k') eqn:E; simpl; [reflexivity |].
  unfold dict_keys in *. rewrite IH.
  destruct (existsb (String.eqb k) (map fst d)); reflexivity.
Qed.

Lemma existsb_eqb_In (k : string) (l : list string) :
  existsb (String.eqb k) l = true <-> In k l.
Proof.
  rewrite existsb_exists. split.
  - intros (x & Hx & E). apply String.eqb_eq in E. subst. exact Hx.
  - intros H. exists k. split; [exact H | apply String.eqb_refl].
Qed.

Lemma dict_set_In_keys {V} (k : string) (v : V) (d : dict V) (c : string) :
  In c (dict_keys (dict_set k v d)) <-> c = k \/ In c (dict_keys d).
Proof.
  rewrite dict_set_keys.
  destruct (existsb (String.eqb k) (dict_keys d)) eqn:E.
  - apply existsb_eqb_In in E. split; [auto |].
    intros [-> | H]; assumption.
  - rewrite in_app_iff. simpl. intuition congruence.
Qed.

Lemma dict_set_NoDup {V} (k : string) (v : V) (d : dict V) :
  NoDup (dict_keys d) -> NoDup (dict_keys (dict_set k v d)).
Proof.
  intros H. rewrite dict_set_keys.
  destruct (existsb (String.eqb k) (dict_keys d)) eqn:E; [exact H |].
  assert (Hn : ~ In k (dict_keys d)).
  { intros Hin. apply existsb_eqb_In in Hin. congruence. }
  clear E. induction (dict_keys d) as [| x l IH]; simpl.
  - constructor; [intros [] | constructor].
  - inversion H; subst. constructor.
    + rewrite in_app_iff. simpl. intros [Hx | [Hx | []]]; [auto |].
      subst. apply Hn. left. reflexivity.
    + apply IH; [assumption |]. intros Hin. apply Hn. right. exact Hin.
Qed.

Lemma dict_lookup_set_same {V} (k : string) (v : V) (d : dict V) :
  dict_lookup k (dict_set k v d) = Some v.
Proof.
  induction d as [| [k' v'] d IH]; simpl.
  - rewrite String.eqb_refl. reflexivity.
  - destruct (String.eqb k k') eqn:E; simpl; rewrite E; [reflexivity | exact IH].
Qed.

Lemma dict_lookup_set_other {V} (k c : string) (v : V) (d : dict V) :
  c <> k -> dict_lookup c (dict_set k v d) = dict_lookup c d.
Proof.
  intros Hne. induction d as [| [k' v'] d IH]; simpl.
  - apply String.eqb_neq in Hne. rewrite Hne. reflexivity.
  - destruct (String.eqb k k') eqn:E; simpl.
    + apply String.eqb_eq in E. subst k'.
      apply String.eqb_neq in Hne. rewrite Hne. reflexivity.
    + rewrite IH. reflexivity.
Qed.

Lemma dict_lookup_In_keys {V} (c : string) (d : dict V) :
  In c (dict_keys d) -> exists v, dict_lookup c d = Some v.
Proof.
  induction d as [| [k v] d IH]; simpl; [intros [] |].
  intros [-> | H].
  - rewrite String.eqb_refl. eauto.
  - destruct (String.eqb c k); eauto.
Qed.

(** A loop that stores one entry per claim, whatever the entries are. *)
Lemma fold_dict_set_entries (f : string -> JValue) (claims : list string) :
  forall acc,
    NoDup (dict_keys acc) ->
    let vc := fold_left (fun d claim => dict_set claim (f claim) d) claims acc in
    NoDup (dict_keys vc)
    /\ (forall c, In c (dict_keys vc) <-> In c (dict_keys acc) \/ In c claims)
    /\ (forall c, In c claims -> dict_lookup c vc = Some (f c))
    /\ (forall c, ~ In c claims -> dict_lookup c vc = dict_lookup c acc).
Proof.
  induction claims as [| claim rest IH]; intros acc Hnd; simpl.
  - repeat split; auto; try tauto; try (intros c []).
  - destruct (IH (dict_set claim (f claim) acc) (dict_set_NoDup _ _ _ Hnd))
      as (H1 & H2 & H3 & H4).
    split; [exact H1 |]. split; [| split].
    + intros c. rewrite H2, dict_set_In_keys. intuition congruence.
    + intros c Hc.
      destruct (in_dec string_dec c rest) as [Hin | Hnin]; [auto |].
      destruct Hc as [-> | Hc]; [| contradiction].
      rewrite H4 by assumption. apply dict_lookup_set_same.
    + intros c Hc. rewrite H4 by tauto.
      apply dict_lookup_set_other. intros ->. apply Hc. left. reflexivity.
Qed.

Lemma fold_dict_set_one_entry (f : string -> JValue) (claims : list string) :
  one_entry_per_claim claims
    (fold_left (fun d claim => dict_set claim (f claim) d) claims []).
Proof.
  destruct (fold_dict_set_entries f claims [] (NoDup_nil _)) as (H1 & H2 & H3 & _).
  split; [exact H1 |]. split.
  - intros c. rewrite H2. simpl. tauto.
  - intros c Hc. eauto.
Qed.

(** ** C1: one entry per claim *)

Lemma reconcile_entries (results : dict JValue) (claims : list string) :
  forall i acc,
    NoDup (dict_keys acc) ->
    let vc := FactCheckerAgent.reconcile i claims results acc in
    NoDup (dict_keys vc)
    /\ (forall c, In c (dict_keys vc) <-> In c (dict_keys acc) \/ In c claims)
    /\ (forall c, In c claims ->
          exists v, dict_lookup c vc = Some v
            /\ (v = FactCheckerAgent.not_found
                \/ exists j, nth_error claims j = Some c
                     /\ FactCheckerAgent.find_result (i + j) c results = Some v))
    /\ (forall c, ~ In c claims -> dict_lookup c vc = dict_lookup c acc).
Proof.
  induction claims as [| claim rest IH]; intros i acc Hnd; simpl.
  - repeat split; auto; try tauto; try (intros c []).
  - set (entry := match FactCheckerAgent.find_result i claim results with
                  | Some v => v
                  | None => FactCheckerAgent.not_found
                  end).
    destruct (IH (S i) (dict_set claim entry acc) (dict_set_NoDup _ _ _ Hnd))
      as (H1 & H2 & H3 & H4).
    split; [exact H1 |]. split; [| split].
    + intros c. rewrite H2, dict_set_In_keys. intuition congruence.
    + intros c Hc.
      destruct (in_dec string_dec c rest) as [Hin | Hnin].
      * destruct (H3 c Hin) as (v & Hv & Hor). exists v. split; [exact Hv |].
        destruct Hor as [-> | (j & Hj & Hf)]; [left; reflexivity |].
        right. exists (S j). split; [exact Hj |].
        rewrite Nat.add_succ_r. exact Hf.
      * destruct Hc as [-> | Hc]; [| contradiction].
        rewrite H4 by assumption. rewrite dict_lookup_set_same.
        exists entry. split; [reflexivity |]. unfold entry.
        destruct (FactCheckerAgent.find_result i c results) as [v |] eqn:E.
        -- right. exists 0%nat. split; [reflexivity |].
           rewrite Nat.add_0_r. exact E.
        -- left. reflexivity.
    + intros c Hc. rewrite H4 by tauto.
      apply dict_lookup_set_other. intros ->. apply Hc. left. reflexivity.
Qed.

Lemma reconcile_one_entry (results : dict JValue) (claims : list string) :
  one_entry_per_claim claims (FactCheckerAgent.reconcile 0 claims results []).
Proof.
  destruct (reconcile_entries results claims 0 [] (NoDup_nil _))
    as (H1 & H2 & H3 & _).
  split; [exact H1 |]. split.
  - intros c. rewrite H2. simpl. tauto.
  - intros c Hc. destruct (H3 c Hc) as (v & Hv & _). eauto.
Qed.

Lemma synthetic_not_found : synthetic FactCheckerAgent.not_found.
Proof. unfold synthetic, FactCheckerAgent.not_found. eauto. Qed.

Lemma synthetic_system_error (e : string) :
  synthetic (FactCheckerAgent.system_error e).
Proof. unfold synthetic, FactCheckerAgent.system_error. eauto. Qed.

Lemma synthetic_no_documents : synthetic no_documents_entry.
Proof. unfold synthetic, no_documents_entry. eauto. Qed.

(** C1. For every list of extracted claims and every list of context
    documents, the mapping returned by [fact_check_claims] has exactly one
    entry for every claim string (no claim dropped, no key twice), whatever
    the model answers; when the call raises every entry is the synthetic
    NOT_SUPPORTED record with confidence 0, and when the model output has no
    key for a claim the entry of that claim is the synthetic record. The
    same holds for the mapping that [fact_checking_node] builds without a
    call when there is no context document. *)
Theorem verified_claims_one_entry_per_claim
        (env : Env) (claims : list string) (context_docs : list RDoc) :
  let vc := fst (FactCheckerAgent.fact_check_claims env claims context_docs) in
  let response :=
    fact_model env (FactCheckerAgent.context_text_of context_docs)
               (FactCheckerAgent.claims_text_of claims) in
  one_entry_per_claim claims vc
  /\ (forall e c, response = Raise e -> In c claims ->
        exists v, dict_lookup c vc = Some v /\ synthetic v)
  /\ (forall text results c,
        response = Ok text ->
        py_items (FactCheckerAgent.extract_json_from_text text) = Ok results ->
        In c claims ->
        (forall i, nth_error claims i = Some c ->
                   FactCheckerAgent.find_result i c results = None) ->
        exists v, dict_lookup c vc = Some v /\ synthetic v)
  /\ (forall st,
        reranked_docs st = [] -> retrieved_docs st = [] ->
        let vc' := verified_claims (out_state (fst (fact_checking_node env st))) in
        one_entry_per_claim (extracted_claims st) vc'
        /\ forall c, In c (extracted_claims st) ->
             exists v, dict_lookup c vc' = Some v /\ synthetic v).
Proof.
  cbv zeta. unfold FactCheckerAgent.fact_check_claims, call.
  destruct (fact_model env (FactCheckerAgent.context_text_of context_docs)
                       (FactCheckerAgent.claims_text_of claims))
    as [text | e] eqn:Hresp.
  - destruct (py_items (FactCheckerAgent.extract_json_from_text text))
      as [results | e] eqn:Hitems; cbn [fst].
    + split; [apply reconcile_one_entry |]. split; [discriminate |]. split.
      * intros text' results' c [= <-] Hr Hc Hmiss.
        rewrite Hitems in Hr. injection Hr as <-.
        destruct (reconcile_entries results claims 0 [] (NoDup_nil _))
          as (_ & _ & H3 & _).
        destruct (H3 c Hc) as (v & Hv & [-> | (j & Hj & Hf)]).
        -- exists FactCheckerAgent.not_found. split; [exact Hv |].
           apply synthetic_not_found.
        -- cbn [Nat.add] in Hf. rewrite (Hmiss j Hj) in Hf. discriminate Hf.
      * intros st Hrr Hrt. unfold fact_checking_node. rewrite Hrr, Hrt.
        cbn [fst out_state verified_claims with_verified_claims extracted_claims].
        split; [apply (fold_dict_set_one_entry (fun _ => no_documents_entry)) |].
        intros c Hc.
        destruct (fold_dict_set_entries (fun _ => no_documents_entry)
                    (extracted_claims st) [] (NoDup_nil _)) as (_ & _ & H3 & _).
        exists no_documents_entry. split; [apply H3, Hc |].
        apply synthetic_no_documents.
    + unfold FactCheckerAgent.dict_for_each.
      split; [apply (fold_dict_set_one_entry
                       (fun _ => FactCheckerAgent.system_error e)) |].
      split; [discriminate |]. split.
      * intros text' results' c [= <-] Hr. rewrite Hitems in Hr. discriminate Hr.
      * intros st Hrr Hrt. unfold fact_checking_node. rewrite Hrr, Hrt.
        cbn [fst out_state verified_claims with_verified_claims extracted_claims].
        split; [apply (fold_dict_set_one_entry (fun _ => no_documents_entry)) |].
        intros c Hc.
        destruct (fold_dict_set_entries (fun _ => no_documents_entry)
                    (extracted_claims st) [] (NoDup_nil _)) as (_ & _ & H3 & _).
        exists no_documents_entry. split; [apply H3, Hc |].
        apply synthetic_no_documents.
  - cbn [fst]. unfold FactCheckerAgent.dict_for_each.
    split; [apply (fold_dict_set_one_entry
                     (fun _ => FactCheckerAgent.system_error e)) |].
    split; [| split].
    + intros e' c [= <-] Hc.
      destruct (fold_dict_set_entries (fun _ => FactCheckerAgent.system_error e)
                  claims [] (NoDup_nil _)) as (_ & _ & H3 & _).
      exists (FactCheckerAgent.system_error e). split; [apply H3, Hc |].
      apply synthetic_system_error.
    + discriminate.
    + intros st Hrr Hrt. unfold fact_checking_node. rewrite Hrr, Hrt.
      cbn [fst out_state verified_claims with_verified_claims extracted_claims].
      split; [apply (fold_dict_set_one_entry (fun _ => no_documents_entry)) |].
      intros c Hc.
      destruct (fold_dict_set_entries (fun _ => no_documents_entry)
                  (extracted_claims st) [] (NoDup_nil _)) as (_ & _ & H3 & _).
      exists no_documents_entry. split; [apply H3, Hc |].
      apply synthetic_no_documents.
Qed.

(** ** The four statuses *)

Lemma known_status_cases (v : JValue) :
  FinalAnswerAgent.known_status v
  = if py_eq_str v "SUPPORTED" then true
    else if py_eq_str v "PARTIALLY_SUPPORTED" then true
    else if py_eq_str v "NOT_SUPPORTED" then true
    else py_eq_str v "CONTRADICTED".
Proof.
  unfold FinalAnswerAgent.known_status.
  destruct (py_eq_str v "SUPPORTED"), (py_eq_str v "PARTIALLY_SUPPORTED"),
    (py_eq_str v "NOT_SUPPORTED"); reflexivity.
Qed.

(** ** C6: the query of the Retrieve stage *)

(** C6 fails on the code. [state.get("refined_query", ...)] falls back to
    the original query only when the key is absent, and the initial state
    of [run_research_pipeline] has the key: with an empty refined query the
    search collaborator is called with the empty string. The second part is
    a run in which the query model answers with blanks only. *)
Theorem retrieval_searches_with_empty_refined_query
        (env : Env) (st : ResearchState) :
  snd (retrieval_node env (with_refined_query st "")) = [EvSearch "" 5]
  /\ firstn 2 (events (run_research_pipeline Examples.env_blank_refinement
                         "How many leads were completed?"))
     = [EvRefine "How many leads were completed?"; EvSearch "" 5].
Proof.
  split.
  - unfold retrieval_node, run_retriever, call, query_of. simpl.
    destruct (search env "" 5); reflexivity.
  - vm_compute. reflexivity.
Qed.

(** ** C9: what the stages do to the state they are given *)

Lemma nth_error_heap_write (h : heap) (a : nat) (st st' : ResearchState) :
  nth_error h a = Some st -> nth_error (heap_write h a st') a = Some st'.
Proof.
  revert a. induction h as [| x h IH]; intros [| a]; simpl; try discriminate.
  - reflexivity.
  - apply IH.
Qed.

(** The nodes that return [{**state, ...}] leave the dict they were given
    as it was. *)
Lemma copy_preserves_input
      (node : ResearchState -> NodeOut * list Event)
      (h h' : heap) (a a' : nat) (st : ResearchState) :
  nth_error h a = Some st ->
  (exists st', fst (node st) = Copy st') ->
  run_on_heap node h a = Some (h', a') ->
  nth_error h' a = Some st /\ a' <> a.
Proof.
  intros Hst (st' & Hcopy). unfold run_on_heap. rewrite Hst, Hcopy.
  intros [= <- <-].
  assert (Hlt : (a < List.length h)%nat)
    by (apply nth_error_Some; rewrite Hst; discriminate).
  split; [rewrite nth_error_app1; assumption | lia].
Qed.

(** C9 fails on the code for the Draft stage. With no context document,
    [reasoning_node] assigns into the dict it received and returns that
    same dict: after the call the caller's state holds the new
    [draft_answer]. *)
Theorem reasoning_node_mutates_its_input
        (env : Env) (h : heap) (a : nat) (st : ResearchState) :
  nth_error h a = Some st ->
  reranked_docs st = [] -> retrieved_docs st = [] ->
  exists h',
    run_on_heap (reasoning_node env) h a = Some (h', a)
    /\ nth_error h' a = Some (with_draft_answer st no_documents).
Proof.
  intros Hst Hrr Hrt. unfold run_on_heap, reasoning_node.
  rewrite Hst, Hrr, Hrt. cbn [fst].
  eexists. split; [reflexivity |].
  eapply nth_error_heap_write. exact Hst.
Qed.

Lemma reasoning_node_mutates_its_input_witness :
  let st := initial_state "How many leads were completed?" in
  nth_error [st] 0 = Some st
  /\ exists h',
       run_on_heap (reasoning_node Examples.env_blank_refinement) [st] 0
       = Some (h', 0%nat)
       /\ nth_error h' 0 = Some (with_draft_answer st no_documents)
       /\ draft_answer st <> no_documents.
Proof.
  split; [reflexivity |].
  destruct (reasoning_node_mutates_its_input
              Examples.env_blank_refinement
              [initial_state "How many leads were completed?"] 0
              (initial_state "How many leads were completed?")
              eq_refl eq_refl eq_refl) as (h' & Hrun & Hnth).
  exists h'. split; [exact Hrun |]. split; [exact Hnth |].
  discriminate.
Defined.

(** ** C2: a failure of QueryRefine *)

(** C2 fails on the code. [build_research_graph] keeps the edge from
    [query_understanding] to [retrieval] beside the conditional edge, so
    after a failure of the query model both [retrieval] and [error_handler]
    are triggered: [retrieval] runs (and calls the search collaborator),
    the two nodes write the same keys in one step, [invoke] raises, and
    [run_research_pipeline] returns the dict of its [except] branch, whose
    limitations are "Critical system failure". *)
Lemma error_set_with_error (st : ResearchState) (msg : string) :
  String.eqb msg "" = false -> error_set (with_error st msg) = true.
Proof. intros H. unfold error_set. simpl. rewrite H. reflexivity. Qed.

Lemma triggered_after_failure (st : ResearchState) :
  error_set st = true ->
  triggered query_understanding st = [retrieval; error_handler].
Proof.
  intros H. unfold triggered, branches, edges, route. simpl. rewrite H.
  reflexivity.
Qed.

Lemma retrieval_node_events (env : Env) (st : ResearchState) :
  refined_query st = Some "" ->
  snd (retrieval_node env st) = [EvSearch "" 5].
Proof.
  intros H. unfold retrieval_node, run_retriever, call, query_of. rewrite H.
  destruct (search env "" 5); reflexivity.
Qed.

Theorem query_refine_failure_still_runs_retrieval
        (env : Env) (query e : string) :
  qu_llm env query = Raise e ->
  let r := run_research_pipeline env query in
  executed r = [query_understanding; retrieval; error_handler]
  /\ events r = [EvRefine query; EvSearch "" 5]
  /\ exists f err,
       outcome r = SystemError f err
       /\ limitations f = "Critical system failure"
       /\ limitations f <> error_limitations.
Proof.
  intros Hq. cbv zeta.
  set (st' := with_error (initial_state query) ("Query understanding failed: " ++ e)).
  assert (Hnode : node_function env query_understanding (initial_state query)
                  = (Copy st', [EvRefine query])).
  { cbn [node_function].
    unfold query_understanding_node, reformulate_query, bind, call.
    cbn [initial_state original_query]. rewrite Hq. reflexivity. }
  assert (Hrun : invoke env (initial_state query)
                 = mkRun (Raise invalid_update)
                         [query_understanding; retrieval; error_handler]
                         [EvRefine query; EvSearch "" 5]).
  { unfold invoke.
    change (invoke_from env 25 [query_understanding] (initial_state query) [] [])
      with (let (out, ev) := node_function env query_understanding (initial_state query) in
            invoke_from env 24 (triggered query_understanding (out_state out))
                        (out_state out) ([] ++ [query_understanding])%list
                        ([] ++ ev)%list).
    rewrite Hnode. cbn [out_state].
    assert (Herr : error_set st' = true)
      by (apply error_set_with_error; reflexivity).
    rewrite (triggered_after_failure st' Herr).
    cbn [invoke_from flat_map node_function app].
    rewrite (retrieval_node_events env st' eq_refl). reflexivity. }
  unfold run_research_pipeline. rewrite Hrun. cbn.
  split; [reflexivity |]. split; [reflexivity |].
  eexists. eexists. split; [reflexivity |]. split; [reflexivity |].
  discriminate.
Qed.

Lemma query_refine_failure_still_runs_retrieval_witness :
  qu_llm Examples.env_refine_fails "How many leads were completed?"
  = Raise "model not loaded"
  /\ executed (run_research_pipeline Examples.env_refine_fails
                 "How many leads were completed?")
     = [query_understanding; retrieval; error_handler].
Proof.
  split; [reflexivity |].
  exact (proj1 (query_refine_failure_still_runs_retrieval
                  Examples.env_refine_fails "How many leads were completed?"
                  "model not loaded" eq_refl)).
Defined.

(** ** C5: the Rerank stage *)

Section StableSort.

Context {A : Type}.








End StableSort.

Lemma assign_scores_convert (docs : list Document) :
  forall scores,
    List.length scores = List.length docs ->
    RerankerAgent.assign_scores (convert_docs_to_reranker_format docs) scores
    = Ok (map (fun x => rdoc_of (fst x) (snd x)) (combine docs scores)).
Proof.
  induction docs as [| d docs IH]; intros [| s scores] Hlen;
    try discriminate; [reflexivity |].
  simpl in Hlen. injection Hlen as Hlen.
  change (convert_docs_to_reranker_format (d :: docs))
    with (mkRDoc (page_content d) (doc_metadata d) None
          :: convert_docs_to_reranker_format docs).
  cbn [RerankerAgent.assign_scores]. rewrite (IH _ Hlen). reflexivity.
Qed.

Lemma sort_keys_scored (l : list (Document * Q)) :
  RerankerAgent.sort_keys (map (fun x => rdoc_of (fst x) (snd x)) l)
  = Ok (map (fun x => (rdoc_of (fst x) (snd x), snd x)) l).
Proof.
  induction l as [| [d q] l IH]; simpl; [reflexivity |].
  rewrite IH. reflexivity.
Qed.



Lemma rerank_scored (env : Env) (query : string) (docs : list Document)
      (scores : list Q) (top_k : nat) :
  docs <> [] ->
  predict env (map (fun d => (query, content d))
                   (convert_docs_to_reranker_format docs)) = Ok scores ->
  List.length scores = List.length docs ->
  RerankerAgent.rerank env query (convert_docs_to_reranker_format docs) top_k
  = (Ok (map (fun x => rdoc_of (fst x) (snd x))
             (firstn top_k (RerankerAgent.sorted_desc (combine docs scores)))),
     [EvScore (map (fun d => (query, content d))
                   (convert_docs_to_reranker_format docs))]).
Proof.
  intros Hne Hp Hlen. unfold RerankerAgent.rerank.
  destruct (convert_docs_to_reranker_format docs) as [| r rs] eqn:Hconv.
  - destruct docs; [congruence | discriminate Hconv].
  - rewrite <- Hconv in *. unfold bind, call, lift, ret. rewrite Hp.
    rewrite (assign_scores_convert docs scores Hlen).
    rewrite sort_keys_scored. cbn [app].
    f_equal. f_equal.
    assert (Hs : forall l : list (Document * Q),
               RerankerAgent.sorted_desc
                 (map (fun x => (rdoc_of (fst x) (snd x), snd x)) l)
               = map (fun x => (rdoc_of (fst x) (snd x), snd x))
                     (RerankerAgent.sorted_desc l)).
    { clear. induction l as [| x l IH]; simpl; [reflexivity |].
      rewrite IH. clear IH. generalize (RerankerAgent.sorted_desc l). intros l'.
      induction l' as [| y l' IH]; simpl; [reflexivity |].
      destruct (Qle_bool (snd y) (snd x)); simpl; [reflexivity |].
      rewrite IH. reflexivity. }
    rewrite Hs, map_map. cbn [fst]. rewrite firstn_map. reflexivity.
Qed.

Lemma In_firstn_In {A} (n : nat) (l : list A) (x : A) :
  In x (firstn n l) -> In x l.
Proof.
  intros H. rewrite <- (firstn_skipn n l). apply in_or_app. left. exact H.
Qed.




(** ** Strings *)

Lemma append_assoc (a b c : string) : ((a ++ b) ++ c = a ++ (b ++ c))%string.
Proof. induction a as [| x a IH]; simpl; [reflexivity | rewrite IH; reflexivity]. Qed.

Lemma append_nil_r (a : string) : (a ++ "" = a)%string.
Proof. induction a as [| x a IH]; simpl; [reflexivity | rewrite IH; reflexivity]. Qed.

Lemma length_append (a b : string) :
  String.length (a ++ b) = (String.length a + String.length b)%nat.
Proof. induction a as [| x a IH]; simpl; [reflexivity | rewrite IH; reflexivity]. Qed.

(** ** Decoding what [json.dumps] wrote: strings *)

Lemma scan_render_char (c : ascii) (t : string) :
  scan_string (render_char c ++ t)
  = match scan_string t with
    | Some (str, rest) => Some (String c str, rest)
    | None => None
    end.
Proof.
  destruct c as [[] [] [] [] [] [] [] []]; reflexivity.
Qed.

Lemma scan_render_chars (s rest : string) :
  scan_string (render_chars s ++ String dq rest) = Some (s, rest).
Proof.
  induction s as [| c s IH]; [reflexivity |].
  cbn [render_chars]. rewrite append_assoc, scan_render_char, IH. reflexivity.
Qed.

Lemma scan_render_string (s rest : string) :
  exists t, render_string s ++ rest = String dq t
            /\ scan_string t = Some (s, rest).
Proof.
  unfold render_string. cbn [append].
  eexists. split; [reflexivity |].
  rewrite append_assoc. apply scan_render_chars.
Qed.

(** ** Decoding what [json.dumps] wrote: numbers *)

Lemma follows_nondigit (rest : string) :
  follows rest = true -> nondigit_start rest = true.
Proof.
  destruct rest as [| c r]; [reflexivity |]. simpl.
  ascii_cases c; simpl; intros H; try discriminate H; reflexivity.
Qed.

Lemma take_digits_uint (d : Decimal.uint) (rest : string) :
  nondigit_start rest = true ->
  take_digits (NilEmpty.string_of_uint d ++ rest)
  = (NilEmpty.string_of_uint d, rest).
Proof.
  intros Hr. induction d; cbn [NilEmpty.string_of_uint append take_digits];
    try (rewrite IHd; reflexivity).
  destruct rest as [| c r]; [reflexivity |].
  simpl in Hr. simpl. destruct (is_digit c); [discriminate Hr | reflexivity].
Qed.

Lemma nzhead_not_D0 (d d' : Decimal.uint) : Decimal.nzhead d <> Decimal.D0 d'.
Proof. induction d; simpl; try discriminate. exact IHd. Qed.

Lemma pos_to_uint_head (p : positive) :
  Pos.to_uint p <> Decimal.Nil /\ forall d', Pos.to_uint p <> Decimal.D0 d'.
Proof.
  split; [apply DecimalPos.Unsigned.to_uint_nonnil |].
  intros d' Hd.
  assert (Hn : Decimal.unorm (Pos.to_uint p) = Pos.to_uint p).
  { rewrite <- (DecimalPos.Unsigned.to_of (Pos.to_uint p)).
    rewrite DecimalPos.Unsigned.of_to. reflexivity. }
  rewrite Hd in Hn. unfold Decimal.unorm in Hn. simpl in Hn.
  destruct (Decimal.nzhead d') eqn:E;
    try (rewrite <- E in Hn; exact (nzhead_not_D0 _ _ Hn)).
  injection Hn as <-.
  apply (DecimalPos.Unsigned.to_uint_nonzero p). exact Hd.
Qed.

Lemma digits_value_render_N (n : N) : digits_value (render_N n) = n.
Proof.
  unfold digits_value, render_N. rewrite NilEmpty.usu.
  apply DecimalN.Unsigned.of_to.
Qed.

Lemma take_digits_render_N (n : N) (rest : string) :
  nondigit_start rest = true ->
  take_digits (render_N n ++ rest) = (render_N n, rest).
Proof. apply take_digits_uint. Qed.

(** The rendering of a positive number starts with a digit from 1 to 9. *)
Lemma render_N_pos_head (p : positive) :
  exists c r, render_N (Npos p) = String c r
              /\ is_digit c = true /\ Ascii.eqb c "0" = false.
Proof.
  unfold render_N. cbn [N.to_uint].
  destruct (pos_to_uint_head p) as [Hnil Hd0].
  destruct (Pos.to_uint p) as [| d | d | d | d | d | d | d | d | d | d];
    [congruence | exfalso; exact (Hd0 d eq_refl) | ..];
    cbn [NilEmpty.string_of_uint]; eexists; eexists;
    (split; [reflexivity | split; reflexivity]).
Qed.

Lemma render_N_head (n : N) :
  exists c r, render_N n = String c r /\ is_digit c = true.
Proof.
  destruct n as [| p]; [exists "0"%char, ""; split; reflexivity |].
  destruct (render_N_pos_head p) as (c & r & Hc & Hd & _). eauto.
Qed.

Lemma scan_int_render_N (n : N) (rest : string) :
  nondigit_start rest = true ->
  scan_int (render_N n ++ rest) = Some (render_N n, rest).
Proof.
  intros Hr. destruct n as [| p].
  - reflexivity.
  - destruct (render_N_pos_head p) as (c & r & Hc & Hd & H0).
    pose proof (take_digits_render_N (Npos p) rest Hr) as Ht.
    rewrite Hc in *. cbn [append] in *. unfold scan_int.
    rewrite Hd, H0, Ht. reflexivity.
Qed.

Lemma scan_frac_none (rest : string) :
  match rest with
  | EmptyString => true
  | String c _ => negb (Ascii.eqb c ".")
  end = true ->
  scan_frac rest = (None, rest).
Proof.
  destruct rest as [| c r]; [reflexivity |].
  intros H. ascii_cases c; try discriminate H; reflexivity.
Qed.

Lemma scan_exp_none (rest : string) :
  follows rest = true -> scan_exp rest = (None, rest).
Proof.
  destruct rest as [| c r]; [reflexivity |].
  intros H. simpl in H. ascii_cases c; try discriminate H; reflexivity.
Qed.

Lemma scan_exp_digits (neg : bool) (n : N) (rest : string) :
  nondigit_start rest = true ->
  scan_exp ("e" ++ (if neg then "-" else "") ++ render_N n ++ rest)
  = (Some (signed neg n), rest).
Proof.
  intros Hr.
  pose proof (take_digits_render_N n rest Hr) as Ht.
  pose proof (digits_value_render_N n) as Hv.
  destruct (render_N_head n) as (c & r & Hc & Hd).
  rewrite Hc in *. cbn [append] in *.
  destruct neg; cbn [append scan_exp Ascii.eqb Bool.eqb orb].
  - rewrite Ht, Hv. reflexivity.
  - assert (Hm : match String c (r ++ rest) with
                 | String "-" t => (true, t)
                 | String "+" t => (false, t)
                 | _ => (false, String c (r ++ rest))
                 end = (false, String c (r ++ rest))).
    { clear -Hd. ascii_cases c; try discriminate Hd; reflexivity. }
    rewrite Hm, Ht, Hv. reflexivity.
Qed.

Lemma scan_number_signed (neg : bool) (n : N) (cont : string) :
  nondigit_start cont = true ->
  scan_number (sign_text neg ++ render_N n ++ cont)
  = let '(fp, r2) := scan_frac cont in
    let '(ep, r3) := scan_exp r2 in
    match fp, ep with
    | None, None => Some (JInt (signed neg n), r3)
    | _, _ =>
        let f := match fp with Some f => f | None => EmptyString end in
        let e := match ep with Some e => e | None => 0%Z end in
        Some (JFloat (signed neg (digits_value (render_N n ++ f)))
                     (e - Z.of_nat (String.length f)), r3)
    end.
Proof.
  intros Hc.
  pose proof (scan_int_render_N n cont Hc) as Hi.
  pose proof (digits_value_render_N n) as Hv.
  unfold scan_number. destruct neg; cbn [sign_text append].
  - rewrite Hi. destruct (scan_frac cont) as [fp r2].
    destruct (scan_exp r2) as [ep r3]. rewrite Hv. reflexivity.
  - destruct (render_N_head n) as (c & r & Hr & Hd).
    assert (Hm : match render_N n ++ cont with
                 | String "-" t => (true, t)
                 | _ => (false, render_N n ++ cont)
                 end = (false, render_N n ++ cont)).
    { rewrite Hr. cbn [append]. clear -Hd.
      ascii_cases c; try discriminate Hd; reflexivity. }
    rewrite Hm, Hi. destruct (scan_frac cont) as [fp r2].
    destruct (scan_exp r2) as [ep r3]. rewrite Hv. reflexivity.
Qed.

Lemma render_int_signed (z : Z) :
  exists neg n, render_int z = sign_text neg ++ render_N n /\ signed neg n = z.
Proof.
  destruct z as [| p | p].
  - exists false, 0%N. split; reflexivity.
  - exists false, (Npos p). split; reflexivity.
  - exists true, (Npos p). split; reflexivity.
Qed.

Lemma scan_number_render_int (z : Z) (rest : string) :
  follows rest = true ->
  scan_number (render_int z ++ rest) = Some (JInt z, rest).
Proof.
  intros Hf. destruct (render_int_signed z) as (neg & n & Hr & Hz).
  rewrite Hr, append_assoc.
  rewrite (scan_number_signed neg n rest (follows_nondigit _ Hf)).
  rewrite scan_frac_none.
  - rewrite (scan_exp_none rest Hf). rewrite Hz. reflexivity.
  - destruct rest as [| c r]; [reflexivity |]. simpl in Hf.
    clear -Hf. ascii_cases c; try discriminate Hf; reflexivity.
Qed.

Lemma scan_number_render_float (m e : Z) (rest : string) :
  follows rest = true ->
  scan_number (render_int m ++ "e" ++ render_int e ++ rest)
  = Some (JFloat m e, rest).
Proof.
  intros Hf.
  destruct (render_int_signed m) as (neg & n & Hr & Hz).
  destruct (render_int_signed e) as (eneg & en & Her & Hez).
  rewrite Hr, Her, append_assoc.
  set (cont := "e" ++ (sign_text eneg ++ render_N en) ++ rest).
  rewrite (scan_number_signed neg n cont eq_refl).
  rewrite (scan_frac_none cont eq_refl).
  subst cont. unfold sign_text at 1. rewrite append_assoc.
  rewrite (scan_exp_digits eneg en rest (follows_nondigit _ Hf)).
  cbn [String.length Z.of_nat]. rewrite append_nil_r, digits_value_render_N.
  rewrite Hz, Hez, Z.sub_0_r. reflexivity.
Qed.

(** ** Decoding what [json.dumps] wrote: values *)

(** Induction on values, with the induction hypothesis for the elements of
    an array and the members of an object. *)
Lemma JValue_nested_ind (P : JValue -> Prop) :
  P JNull ->
  (forall b, P (JBool b)) ->
  (forall z, P (JInt z)) ->
  (forall m e, P (JFloat m e)) ->
  (forall s, P (JStr s)) ->
  (forall l, Forall P l -> P (JArr l)) ->
  (forall d, Forall (fun kv => P (snd kv)) d -> P (JObj d)) ->
  forall v, P v.
Proof.
  intros Hnull Hbool Hint Hfloat Hstr Harr Hobj.
  refine (fix IH (v : JValue) : P v :=
            match v with
            | JNull => Hnull
            | JBool b => Hbool b
            | JInt z => Hint z
            | JFloat m e => Hfloat m e
            | JStr s => Hstr s
            | JArr l =>
                Harr l ((fix F (l : list JValue) : Forall P l :=
                           match l with
                           | [] => Forall_nil _
                           | x :: l' => Forall_cons _ (IH x) (F l')
                           end) l)
            | JObj d =>
                Hobj d ((fix F (d : list (string * JValue))
                         : Forall (fun kv => P (snd kv)) d :=
                           match d with
                           | [] => Forall_nil _
                           | kv :: d' => Forall_cons _ (IH (snd kv)) (F d')
                           end) d)
            end).
Qed.

Lemma value_start_facts (c : ascii) :
  value_start c = true ->
  is_jws c = false /\ Ascii.eqb c "]" = false /\ Ascii.eqb c "}" = false
  /\ Ascii.eqb c "," = false.
Proof.
  ascii_cases c; intros H; try discriminate H; repeat split; reflexivity.
Qed.

Lemma render_int_start (z : Z) (t : string) :
  exists c r, render_int z ++ t = String c r
              /\ (is_digit c = true \/ c = "-"%char).
Proof.
  destruct (render_int_signed z) as (neg & n & Hr & _). rewrite Hr.
  destruct neg; cbn [sign_text append].
  - eexists. eexists. split; [reflexivity | right; reflexivity].
  - destruct (render_N_head n) as (c & r & Hn & Hd). rewrite Hn.
    cbn [append]. eexists. eexists. split; [reflexivity | left; exact Hd].
Qed.

Lemma value_start_render (ta to : bool) (v : JValue) :
  exists c r, render ta to v = String c r /\ value_start c = true.
Proof.
  destruct v as [| b | z | m e | s | l | d]; cbn [render].
  - eexists. eexists. split; reflexivity.
  - destruct b; eexists; eexists; split; reflexivity.
  - destruct (render_int_start z "") as (c & r & Hr & Hc).
    rewrite append_nil_r in Hr. exists c, r. split; [exact Hr |].
    destruct Hc as [Hc | ->]; [| reflexivity].
    clear -Hc. ascii_cases c; try discriminate Hc; reflexivity.
  - destruct (render_int_start m ("e" ++ render_int e)) as (c & r & Hr & Hc).
    exists c, r. split; [exact Hr |].
    destruct Hc as [Hc | ->]; [| reflexivity].
    clear -Hc. ascii_cases c; try discriminate Hc; reflexivity.
  - eexists. eexists. split; reflexivity.
  - eexists. eexists. split; reflexivity.
  - eexists. eexists. split; reflexivity.
Qed.

Lemma skip_jws_value (ta to : bool) (v : JValue) (t : string) :
  skip_jws (render ta to v ++ t) = render ta to v ++ t.
Proof.
  destruct (value_start_render ta to v) as (c & r & Hr & Hc).
  rewrite Hr. cbn [append skip_jws].
  destruct (value_start_facts c Hc) as (Hws & _). rewrite Hws. reflexivity.
Qed.

Lemma starts_with_value (ta to : bool) (v : JValue) (t : string) (c : ascii) :
  In c ["]"%char; "}"%char; ","%char] ->
  starts_with c (render ta to v ++ t) = None.
Proof.
  intros Hin.
  destruct (value_start_render ta to v) as (a & r & Hr & Ha).
  rewrite Hr. cbn [append starts_with].
  destruct (value_start_facts a Ha) as (_ & H1 & H2 & H3).
  destruct Hin as [<- | [<- | [<- | []]]]; [rewrite H1 | rewrite H2 | rewrite H3];
    reflexivity.
Qed.

Lemma parse_value_number (n : nat) (s : string) (c : ascii) (t : string) :
  s = String c t -> is_digit c = true \/ c = "-"%char ->
  parse_value (S n) s
  = match scan_number s with
    | Some (v, rest) => POk v rest
    | None => PErr
    end.
Proof.
  intros -> [Hc | ->]; [| reflexivity].
  ascii_cases c; try discriminate Hc; reflexivity.
Qed.

Lemma parse_value_string (n : nat) (s rest : string) :
  parse_value (S n) (render_string s ++ rest) = POk (JStr s) rest.
Proof.
  destruct (scan_render_string s rest) as (t & Ht & Hs).
  rewrite Ht. cbn [parse_value].
  change (Ascii.eqb dq dq) with true. cbv iota. rewrite Hs. reflexivity.
Qed.

Lemma parse_elems_at_close (n : nat) (rest : string) :
  failed (parse_elems n (String "]" rest)).
Proof.
  destruct n as [| [| n]]; [exact I | exact I |]. exact I.
Qed.

Lemma parse_members_at_close (n : nat) (rest : string) :
  failed (parse_members n (String "}" rest)).
Proof. destruct n as [| n]; exact I. Qed.

Lemma parses_to_failed {A} (r : parse_result A) (a : A) (rest : string) :
  failed r -> parses_to r true a rest.
Proof. intros H. exact H. Qed.

Lemma skip_jws_space (t : string) : skip_jws (" " ++ t) = skip_jws t.
Proof. reflexivity. Qed.

Lemma wf_value_elems (l : list JValue) :
  wf_value (JArr l) -> Forall wf_value l.
Proof.
  cbn [wf_value]. induction l as [| x l IH]; intros H; constructor.
  - apply H.
  - apply IH, H.
Qed.

Lemma wf_value_members (d : dict JValue) :
  wf_value (JObj d) ->
  NoDup (dict_keys d) /\ Forall (fun kv => wf_value (snd kv)) d.
Proof.
  cbn [wf_value]. intros [Hnd H]. split; [exact Hnd |].
  clear Hnd. induction d as [| kv d IH]; constructor.
  - apply H.
  - apply IH, H.
Qed.

(** Small computations of the scanner on the punctuation of a text. *)
Lemma skip_jws_comma (t : string) : skip_jws (String "," t) = String "," t.
Proof. reflexivity. Qed.

Lemma skip_jws_bracket (t : string) : skip_jws (String "]" t) = String "]" t.
Proof. reflexivity. Qed.

Lemma skip_jws_brace (t : string) : skip_jws (String "}" t) = String "}" t.
Proof. reflexivity. Qed.

Lemma skip_jws_colon (t : string) : skip_jws (String ":" t) = String ":" t.
Proof. reflexivity. Qed.

Lemma skip_jws_blank (t : string) : skip_jws (String " " t) = skip_jws t.
Proof. reflexivity. Qed.

Lemma starts_with_same (c : ascii) (t : string) :
  starts_with c (String c t) = Some t.
Proof. simpl. rewrite Ascii.eqb_refl. reflexivity. Qed.

Lemma starts_with_comma_bracket (t : string) :
  starts_with "," (String "]" t) = None.
Proof. reflexivity. Qed.

Lemma starts_with_comma_brace (t : string) :
  starts_with "," (String "}" t) = None.
Proof. reflexivity. Qed.

Lemma starts_with_brace_comma (t : string) :
  starts_with "}" (String "," t) = None.
Proof. reflexivity. Qed.

Create Rewrite HintDb json_scan.

#[local] Hint Rewrite skip_jws_comma skip_jws_bracket skip_jws_brace
  skip_jws_colon skip_jws_blank starts_with_same starts_with_comma_bracket
  starts_with_comma_brace starts_with_brace_comma : json_scan.

Lemma parse_elems_render (ta to : bool) (l : list JValue) :
  Forall (round_trip_at ta to) l -> Forall wf_value l -> l <> [] ->
  forall fuel rest,
    (List.length l + list_sum (map jsize l) < fuel)%nat ->
    parses_to
      (parse_elems fuel
         (String.concat ", " (map (render ta to) l)
          ++ (if ta then ",]" else "]") ++ rest))
      (ta || existsb (has_trailing_comma ta to) l) l rest.
Proof.
  induction l as [| x l IH]; intros HP Hwf Hne fuel rest Hfuel; [congruence |].
  inversion HP as [| ? ? Hx HPl]; subst.
  inversion Hwf as [| ? ? Hwx Hwl]; subst.
  destruct fuel as [| n]; [lia |].
  simpl in Hfuel.
  cbn [existsb]. cbn [parse_elems].
  destruct l as [| y l'].
  - (* the last element *)
    cbn [map String.concat existsb]. rewrite orb_false_r.
    assert (Hcont : follows ((if ta then ",]" else "]") ++ rest) = true)
      by (destruct ta; reflexivity).
    pose proof (Hx Hwx n _ ltac:(lia) Hcont) as Hpx.
    destruct (has_trailing_comma ta to x).
    + rewrite orb_true_r. apply parses_to_failed.
      destruct (parse_value n _); [destruct Hpx | exact I | exact I].
    + rewrite orb_false_r. unfold parses_to in Hpx. rewrite Hpx.
      destruct ta; cbn [append]; autorewrite with json_scan.
      * apply parses_to_failed.
        pose proof (parse_elems_at_close n rest) as Hf.
        destruct (parse_elems n (String "]" rest)); [destruct Hf | exact I | exact I].
      * reflexivity.
  - (* an element followed by another *)
    assert (Htext : String.concat ", " (map (render ta to) (x :: y :: l'))
                    ++ (if ta then ",]" else "]") ++ rest
                    = render ta to x
                      ++ ", " ++ (String.concat ", " (map (render ta to) (y :: l'))
                                  ++ (if ta then ",]" else "]") ++ rest)).
    { cbn [map String.concat]. rewrite !append_assoc. reflexivity. }
    rewrite Htext. clear Htext.
    pose proof (Hx Hwx n
                   (", " ++ (String.concat ", " (map (render ta to) (y :: l'))
                             ++ (if ta then ",]" else "]") ++ rest))
                   ltac:(lia) eq_refl) as Hpx.
    destruct (has_trailing_comma ta to x).
    + cbn [orb]. rewrite orb_true_r. apply parses_to_failed.
      destruct (parse_value n _); [destruct Hpx | exact I | exact I].
    + cbn [orb]. unfold parses_to in Hpx. rewrite Hpx.
      cbn [append]. autorewrite with json_scan.
      assert (Hskip : forall t,
                 skip_jws (String.concat ", " (map (render ta to) (y :: l')) ++ t)
                 = String.concat ", " (map (render ta to) (y :: l')) ++ t).
      { intros t. destruct l' as [| z l'']; cbn [map String.concat].
        - apply skip_jws_value.
        - rewrite !append_assoc. apply skip_jws_value. }
      rewrite Hskip.
      pose proof (IH HPl Hwl ltac:(discriminate) n rest ltac:(simpl in Hfuel |- *; lia))
        as Hrest.
      destruct (ta || existsb (has_trailing_comma ta to) (y :: l')).
      * apply parses_to_failed.
        destruct (parse_elems n _); [destruct Hrest | exact I | exact I].
      * unfold parses_to in Hrest. rewrite Hrest. reflexivity.
Qed.

Lemma member_text (ta to : bool) (k : string) (x : JValue) (cont : string) :
  (render_string k ++ ": " ++ render ta to x) ++ cont
  = String dq (render_chars k
               ++ String dq (String ":" (String " " (render ta to x ++ cont)))).
Proof.
  unfold render_string. cbn [append]. rewrite !append_assoc. reflexivity.
Qed.

Lemma skip_jws_member (ta to : bool) (kv : string * JValue) (t : string) :
  skip_jws ((render_string (fst kv) ++ ": " ++ render ta to (snd kv)) ++ t)
  = (render_string (fst kv) ++ ": " ++ render ta to (snd kv)) ++ t.
Proof. rewrite member_text. reflexivity. Qed.

Lemma parse_members_render (ta to : bool) (d : dict JValue) :
  Forall (fun kv => round_trip_at ta to (snd kv)) d ->
  Forall (fun kv => wf_value (snd kv)) d -> d <> [] ->
  forall fuel rest,
    (List.length d + list_sum (map (fun kv => jsize (snd kv)) d) < fuel)%nat ->
    parses_to
      (parse_members fuel
         (String.concat ", "
            (map (fun kv => render_string (fst kv) ++ ": " ++ render ta to (snd kv)) d)
          ++ (if to then ",}" else "}") ++ rest))
      (to || existsb (fun kv => has_trailing_comma ta to (snd kv)) d) d rest.
Proof.
  induction d as [| [k x] d IH]; intros HP Hwf Hne fuel rest Hfuel; [congruence |].
  inversion HP as [| ? ? Hx HPl]; subst.
  inversion Hwf as [| ? ? Hwx Hwl]; subst.
  cbn [snd] in Hx, Hwx.
  destruct fuel as [| n]; [lia |].
  simpl in Hfuel.
  cbn [existsb snd]. cbn [parse_members].
  destruct d as [| kv d'].
  - (* the last member *)
    cbn [map String.concat existsb fst snd]. rewrite orb_false_r.
    rewrite member_text. rewrite starts_with_same, scan_render_chars.
    autorewrite with json_scan. rewrite skip_jws_value.
    assert (Hcont : follows ((if to then ",}" else "}") ++ rest) = true)
      by (destruct to; reflexivity).
    pose proof (Hx Hwx n _ ltac:(lia) Hcont) as Hpx.
    destruct (has_trailing_comma ta to x).
    + rewrite orb_true_r. apply parses_to_failed.
      destruct (parse_value n _); [destruct Hpx | exact I | exact I].
    + rewrite orb_false_r. unfold parses_to in Hpx. rewrite Hpx.
      destruct to; cbn [append]; autorewrite with json_scan.
      * apply parses_to_failed.
        pose proof (parse_members_at_close n rest) as Hf.
        destruct (parse_members n (String "}" rest)); [destruct Hf | exact I | exact I].
      * reflexivity.
  - (* a member followed by another *)
    set (member := fun kv : string * JValue =>
                     render_string (fst kv) ++ ": " ++ render ta to (snd kv)).
    assert (Htext : String.concat ", " (map member ((k, x) :: kv :: d'))
                    ++ (if to then ",}" else "}") ++ rest
                    = (render_string k ++ ": " ++ render ta to x)
                      ++ ", " ++ (String.concat ", " (map member (kv :: d'))
                                  ++ (if to then ",}" else "}") ++ rest)).
    { cbn [map String.concat]. unfold member at 1. cbn [fst snd].
      rewrite !append_assoc. reflexivity. }
    rewrite Htext. clear Htext.
    rewrite member_text. rewrite starts_with_same, scan_render_chars.
    autorewrite with json_scan. rewrite skip_jws_value.
    pose proof (Hx Hwx n
                   (", " ++ (String.concat ", " (map member (kv :: d'))
                             ++ (if to then ",}" else "}") ++ rest))
                   ltac:(lia) eq_refl) as Hpx.
    destruct (has_trailing_comma ta to x).
    + cbn [orb]. rewrite orb_true_r. apply parses_to_failed.
      destruct (parse_value n _); [destruct Hpx | exact I | exact I].
    + cbn [orb]. unfold parses_to in Hpx. rewrite Hpx.
      cbn [append]. autorewrite with json_scan.
      assert (Hskip : forall t,
                 skip_jws (String.concat ", " (map member (kv :: d')) ++ t)
                 = String.concat ", " (map member (kv :: d')) ++ t).
      { intros t. destruct d' as [| kv' d'']; cbn [map String.concat].
        - exact (skip_jws_member ta to kv t).
        - rewrite append_assoc. exact (skip_jws_member ta to kv _). }
      rewrite Hskip.
      pose proof (IH HPl Hwl ltac:(discriminate) n rest
                     ltac:(simpl in Hfuel |- *; lia)) as Hrest.
      fold member in Hrest.
      destruct (to || existsb (fun kv => has_trailing_comma ta to (snd kv)) (kv :: d')).
      * apply parses_to_failed.
        destruct (parse_members n _); [destruct Hrest | exact I | exact I].
      * unfold parses_to in Hrest. rewrite Hrest. reflexivity.
Qed.

(** [dict(pairs)] of pairs whose keys are different is the pairs. *)
Lemma dict_set_fresh {V} (k : string) (v : V) (d : dict V) :
  ~ In k (dict_keys d) -> dict_set k v d = (d ++ [(k, v)])%list.
Proof.
  induction d as [| [k' v'] d IH]; intros Hk; [reflexivity |].
  cbn [dict_set]. destruct (String.eqb k k') eqn:E.
  - apply String.eqb_eq in E. subst. exfalso. apply Hk. left. reflexivity.
  - cbn [app]. rewrite IH; [reflexivity |].
    intros Hin. apply Hk. right. exact Hin.
Qed.

Lemma fold_dict_set_fresh {V} (d : dict V) :
  forall acc,
    NoDup (dict_keys (acc ++ d)%list) ->
    fold_left (fun a kv => dict_set (fst kv) (snd kv) a) d acc = (acc ++ d)%list.
Proof.
  induction d as [| [k v] d IH]; intros acc Hnd; cbn [fold_left fst snd].
  - rewrite List.app_nil_r. reflexivity.
  - assert (Hk : ~ In k (dict_keys acc)).
    { unfold dict_keys in *. rewrite map_app in Hnd. cbn [map fst] in Hnd.
      apply NoDup_remove_2 in Hnd. intros Hin. apply Hnd.
      apply in_or_app. left. exact Hin. }
    rewrite (dict_set_fresh k v acc Hk).
    rewrite IH; rewrite <- List.app_assoc; [reflexivity | exact Hnd].
Qed.

Lemma dict_of_pairs_nodup {V} (d : dict V) :
  NoDup (dict_keys d) -> dict_of_pairs d = d.
Proof.
  intros Hnd. unfold dict_of_pairs. apply (fold_dict_set_fresh d []). exact Hnd.
Qed.

Lemma elems_text_start (ta to : bool) (x : JValue) (l : list JValue) (t : string) :
  exists c r,
    String.concat ", " (map (render ta to) (x :: l)) ++ t = String c r
    /\ value_start c = true.
Proof.
  destruct (value_start_render ta to x) as (c & r & Hr & Hc).
  destruct l as [| y l]; cbn [map String.concat]; rewrite Hr; cbn [append];
    eexists; eexists; (split; [reflexivity | exact Hc]).
Qed.

Lemma members_text_start (ta to : bool) (kv : string * JValue)
      (d : dict JValue) (t : string) :
  exists r,
    String.concat ", "
      (map (fun kv => render_string (fst kv) ++ ": " ++ render ta to (snd kv))
           (kv :: d)) ++ t
    = String dq r.
Proof.
  destruct d as [| kv' d]; cbn [map String.concat]; unfold render_string at 1;
    cbn [append]; eexists; reflexivity.
Qed.

(** The decoder on the text of any value. *)
Lemma parse_value_render (ta to : bool) (v : JValue) : round_trip_at ta to v.
Proof.
  induction v as [| b | z | m e | s | l IH | d IH] using JValue_nested_ind;
    intros Hwf fuel rest Hfuel Hrest; cbn [jsize] in Hfuel;
    (destruct fuel as [| n]; [lia |]).
  - destruct rest; reflexivity.
  - destruct b, rest; reflexivity.
  - cbn [has_trailing_comma render]. unfold parses_to.
    destruct (render_int_start z rest) as (c & r & Hr & Hc).
    rewrite (parse_value_number n _ c r Hr Hc).
    rewrite (scan_number_render_int z rest Hrest). reflexivity.
  - cbn [has_trailing_comma render]. unfold parses_to.
    rewrite !append_assoc.
    destruct (render_int_start m ("e" ++ render_int e ++ rest)) as (c & r & Hr & Hc).
    rewrite (parse_value_number n _ c r Hr Hc).
    rewrite (scan_number_render_float m e rest Hrest). reflexivity.
  - cbn [has_trailing_comma render]. unfold parses_to.
    apply parse_value_string.
  - (* arrays *)
    destruct l as [| x l'].
    + destruct ta; reflexivity.
    + set (l := x :: l') in *.
      cbn [has_trailing_comma render].
      assert (Hne : negb (Nat.eqb (List.length l) 0) = true) by reflexivity.
      rewrite Hne, andb_true_r. clear Hne.
      assert (Htext : ("[" ++ String.concat ", " (map (render ta to) l)
                           ++ closing ta (List.length l) "]") ++ rest
                      = String "[" (String.concat ", " (map (render ta to) l)
                                    ++ (if ta then ",]" else "]") ++ rest)).
      { cbn [append]. rewrite append_assoc.
        subst l. cbn [List.length closing]. destruct ta; reflexivity. }
      rewrite Htext. clear Htext.
      cbn [parse_value].
      change (Ascii.eqb "[" dq) with false.
      change (Ascii.eqb "[" "{") with false.
      change (Ascii.eqb "[" "[") with true. cbv iota.
      destruct (elems_text_start ta to x l' ((if ta then ",]" else "]") ++ rest))
        as (c & r & Hr & Hc).
      fold l in Hr.
      destruct (value_start_facts c Hc) as (Hws & Hb & _).
      assert (Hskip : skip_jws (String.concat ", " (map (render ta to) l)
                                ++ (if ta then ",]" else "]") ++ rest)
                      = String.concat ", " (map (render ta to) l)
                        ++ (if ta then ",]" else "]") ++ rest).
      { rewrite Hr. cbn [skip_jws]. rewrite Hws. reflexivity. }
      rewrite Hskip.
      assert (Hstart : starts_with "]" (String.concat ", " (map (render ta to) l)
                                        ++ (if ta then ",]" else "]") ++ rest) = None).
      { rewrite Hr. cbn [starts_with]. rewrite Hb. reflexivity. }
      rewrite Hstart.
      pose proof (parse_elems_render ta to l IH (wf_value_elems l Hwf)
                    ltac:(discriminate) n rest ltac:(lia)) as Hp.
      destruct (ta || existsb (has_trailing_comma ta to) l).
      * apply parses_to_failed.
        destruct (parse_elems n _); [destruct Hp | exact I | exact I].
      * unfold parses_to in Hp |- *. rewrite Hp. reflexivity.
  - (* objects *)
    destruct d as [| kv d'].
    + destruct to; reflexivity.
    + set (d := kv :: d') in *.
      cbn [has_trailing_comma render].
      assert (Hne : negb (Nat.eqb (List.length d) 0) = true) by reflexivity.
      rewrite Hne, andb_true_r. clear Hne.
      set (member := fun kv : string * JValue =>
                       render_string (fst kv) ++ ": " ++ render ta to (snd kv)).
      assert (Htext : ("{" ++ String.concat ", " (map member d)
                           ++ closing to (List.length d) "}") ++ rest
                      = String "{" (String.concat ", " (map member d)
                                    ++ (if to then ",}" else "}") ++ rest)).
      { cbn [append]. rewrite append_assoc.
        subst d. cbn [List.length closing]. destruct to; reflexivity. }
      rewrite Htext. clear Htext.
      cbn [parse_value].
      change (Ascii.eqb "{" dq) with false.
      change (Ascii.eqb "{" "{") with true. cbv iota.
      destruct (members_text_start ta to kv d' ((if to then ",}" else "}") ++ rest))
        as (r & Hr).
      fold member in Hr. fold d in Hr.
      assert (Hskip : skip_jws (String.concat ", " (map member d)
                                ++ (if to then ",}" else "}") ++ rest)
                      = String.concat ", " (map member d)
                        ++ (if to then ",}" else "}") ++ rest).
      { rewrite Hr. reflexivity. }
      rewrite Hskip.
      assert (Hstart : starts_with "}" (String.concat ", " (map member d)
                                        ++ (if to then ",}" else "}") ++ rest) = None).
      { rewrite Hr. reflexivity. }
      rewrite Hstart.
      destruct (wf_value_members d Hwf) as (Hnd & Hwfd).
      pose proof (parse_members_render ta to d IH Hwfd
                    ltac:(discriminate) n rest ltac:(lia)) as Hp.
      fold member in Hp.
      destruct (to || existsb (fun kv => has_trailing_comma ta to (snd kv)) d).
      * apply parses_to_failed.
        destruct (parse_members n _); [destruct Hp | exact I | exact I].
      * unfold parses_to in Hp |- *. rewrite Hp.
        rewrite (dict_of_pairs_nodup d Hnd). reflexivity.
Qed.

(** ** [re.sub] *)

Lemma re_sub_fuel_enough (m : matcher) (repl : string) :
  shrinking m ->
  forall f1 f2 s,
    (String.length s < f1)%nat -> (String.length s < f2)%nat ->
    re_sub_fuel f1 m repl s = re_sub_fuel f2 m repl s.
Proof.
  intros Hm. induction f1 as [| f1 IH]; intros f2 s H1 H2; [lia |].
  destruct f2 as [| f2]; [lia |].
  cbn [re_sub_fuel]. destruct (m s) as [rest |] eqn:E.
  - f_equal. apply Hm in E. apply IH; lia.
  - destruct s as [| c r]; [reflexivity |].
    f_equal. cbn [String.length] in H1, H2. apply IH; lia.
Qed.

(** The equation of [re.sub]: replace a match at the start and go on after
    it, or keep the first character and go on. *)
Lemma re_sub_eq (m : matcher) (repl s : string) :
  shrinking m ->
  re_sub m repl s
  = match m s with
    | Some rest => repl ++ re_sub m repl rest
    | None =>
        match s with
        | String c r => String c (re_sub m repl r)
        | EmptyString => EmptyString
        end
    end.
Proof.
  intros Hm. unfold re_sub.
  change (re_sub_fuel (S (String.length s)) m repl s)
    with (match m s with
          | Some rest => repl ++ re_sub_fuel (String.length s) m repl rest
          | None =>
              match s with
              | String c r => String c (re_sub_fuel (String.length s) m repl r)
              | EmptyString => EmptyString
              end
          end).
  destruct (m s) as [rest |] eqn:E.
  - f_equal. apply Hm in E. apply (re_sub_fuel_enough m repl Hm); lia.
  - destruct s as [| c r]; reflexivity.
Qed.

Lemma all_chars_append (p : ascii -> bool) (a b : string) :
  all_chars p (a ++ b) = all_chars p a && all_chars p b.
Proof.
  induction a as [| c a IH]; cbn [append all_chars]; [reflexivity |].
  rewrite IH, andb_assoc. reflexivity.
Qed.

Lemma all_chars_impl (p q : ascii -> bool) (s : string) :
  (forall c, p c = true -> q c = true) ->
  all_chars p s = true -> all_chars q s = true.
Proof.
  intros Hpq. induction s as [| c s IH]; cbn [all_chars]; [reflexivity |].
  intros H. apply andb_prop in H. destruct H as [Hc Hs].
  rewrite (Hpq c Hc), (IH Hs). reflexivity.
Qed.

Lemma is_digit_inert (c : ascii) : is_digit c = true -> inert_char c = true.
Proof. ascii_cases c; intros H; try discriminate H; reflexivity. Qed.

Lemma all_digits_uint (d : Decimal.uint) :
  all_chars is_digit (NilEmpty.string_of_uint d) = true.
Proof.
  induction d; cbn [NilEmpty.string_of_uint all_chars]; try exact IHd; reflexivity.
Qed.

Lemma render_int_inert (z : Z) : all_chars inert_char (render_int z) = true.
Proof.
  destruct (render_int_signed z) as (neg & n & Hr & _). rewrite Hr.
  rewrite all_chars_append. apply andb_true_intro. split.
  - destruct neg; reflexivity.
  - apply (all_chars_impl is_digit); [exact is_digit_inert |].
    apply all_digits_uint.
Qed.

Section Pass.

Variables (m : matcher) (repl : string) (strip_a strip_o : bool).

Hypothesis m_shrinking : shrinking m.
Hypothesis m_inert : forall c r, inert_char c = true -> m (String c r) = None.
Hypothesis m_local :
  forall t b, m (t ++ String dq "") = None -> m ((t ++ String dq "") ++ b) = None.
Hypothesis m_sep :
  forall c r, value_start c = true ->
              m (String "," (String " " (String c r))) = None.
Hypothesis m_close_a :
  forall r, m (String "," (String "]" r)) = if strip_a then Some r else None.
Hypothesis m_close_o :
  forall r, m (String "," (String "}" r)) = if strip_o then Some r else None.
Hypothesis repl_a : strip_a = true -> repl = "]".
Hypothesis repl_o : strip_o = true -> repl = "}".

Lemma re_sub_quiet (a b : string) :
  quiet m a b -> re_sub m repl (a ++ b) = a ++ re_sub m repl b.
Proof.
  induction a as [| c a IH]; intros Hq; [reflexivity |].
  destruct Hq as [Hm Hq]. rewrite (re_sub_eq m repl _ m_shrinking), Hm.
  cbn [append]. rewrite (IH Hq). reflexivity.
Qed.

Lemma quiet_inert (a b : string) :
  all_chars inert_char a = true -> quiet m a b.
Proof.
  induction a as [| c a IH]; cbn [all_chars quiet]; [intros; exact I |].
  intros H. apply andb_prop in H. destruct H as [Hc Ha].
  split; [apply m_inert; exact Hc | apply IH; exact Ha].
Qed.

Lemma quiet_string (t b : string) :
  occurs m (t ++ String dq "") = false -> quiet m (t ++ String dq "") b.
Proof.
  induction t as [| c t IH]; cbn [append occurs quiet]; intros H.
  - destruct (m (String dq "")) eqn:E; [discriminate H |].
    split; [exact (m_local "" b E) | exact I].
  - destruct (m (String c (t ++ String dq ""))) eqn:E; [discriminate H |].
    split; [exact (m_local (String c t) b E) | exact (IH H)].
Qed.

Lemma re_sub_inert (a b : string) :
  all_chars inert_char a = true ->
  re_sub m repl (a ++ b) = a ++ re_sub m repl b.
Proof. intros H. apply re_sub_quiet, quiet_inert, H. Qed.

Lemma re_sub_char (c : ascii) (r : string) :
  inert_char c = true -> re_sub m repl (String c r) = String c (re_sub m repl r).
Proof.
  intros H. rewrite (re_sub_eq m repl _ m_shrinking), (m_inert c r H). reflexivity.
Qed.

Lemma re_sub_string (s b : string) :
  occurs m (render_string s) = false ->
  re_sub m repl (render_string s ++ b) = render_string s ++ re_sub m repl b.
Proof.
  intros H. apply re_sub_quiet.
  change (render_string s) with (String dq (render_chars s) ++ String dq "") in *.
  apply quiet_string. exact H.
Qed.

Lemma re_sub_close_a (ta : bool) (rest : string) :
  re_sub m repl ((if ta then ",]" else "]") ++ rest)
  = (if ta && negb strip_a then ",]" else "]") ++ re_sub m repl rest.
Proof.
  destruct ta; cbn [append andb].
  - rewrite (re_sub_eq m repl _ m_shrinking), m_close_a.
    remember strip_a as sa eqn:E. destruct sa; cbn [negb append].
    + rewrite (repl_a eq_refl). reflexivity.
    + rewrite re_sub_char by reflexivity. reflexivity.
  - rewrite re_sub_char by reflexivity. reflexivity.
Qed.

Lemma re_sub_close_o (to : bool) (rest : string) :
  re_sub m repl ((if to then ",}" else "}") ++ rest)
  = (if to && negb strip_o then ",}" else "}") ++ re_sub m repl rest.
Proof.
  destruct to; cbn [append andb].
  - rewrite (re_sub_eq m repl _ m_shrinking), m_close_o.
    remember strip_o as so eqn:E. destruct so; cbn [negb append].
    + rewrite (repl_o eq_refl). reflexivity.
    + rewrite re_sub_char by reflexivity. reflexivity.
  - rewrite re_sub_char by reflexivity. reflexivity.
Qed.

Lemma re_sub_separator (t : string) (c : ascii) (r : string) :
  t = String c r -> value_start c = true ->
  re_sub m repl (", " ++ t) = ", " ++ re_sub m repl t.
Proof.
  intros -> Hc. cbn [append].
  rewrite (re_sub_eq m repl _ m_shrinking), (m_sep c r Hc).
  rewrite re_sub_char by reflexivity. reflexivity.
Qed.

(** The texts of the elements of an array, up to its closing bracket. *)
Lemma pass_elems (ta to : bool) (l : list JValue) :
  Forall (fun x => forall rest,
              re_sub m repl (render ta to x ++ rest)
              = render (ta && negb strip_a) (to && negb strip_o) x
                ++ re_sub m repl rest) l ->
  l <> [] ->
  forall rest,
    re_sub m repl (String.concat ", " (map (render ta to) l)
                   ++ (if ta then ",]" else "]") ++ rest)
    = String.concat ", "
        (map (render (ta && negb strip_a) (to && negb strip_o)) l)
      ++ (if ta && negb strip_a then ",]" else "]") ++ re_sub m repl rest.
Proof.
  induction l as [| x l IH]; intros HP Hne rest; [congruence |].
  inversion HP as [| ? ? Hx HPl]; subst.
  destruct l as [| y l'].
  - cbn [map String.concat]. rewrite Hx, re_sub_close_a. reflexivity.
  - assert (Htext : forall ta0 to0 t,
               String.concat ", " (map (render ta0 to0) (x :: y :: l')) ++ t
               = render ta0 to0 x
                 ++ ", " ++ (String.concat ", " (map (render ta0 to0) (y :: l')) ++ t)).
    { intros ta0 to0 t. cbn [map String.concat]. rewrite !append_assoc. reflexivity. }
    rewrite !Htext. rewrite Hx.
    destruct (elems_text_start ta to y l' ((if ta then ",]" else "]") ++ rest))
      as (c & r & Hr & Hc).
    rewrite (re_sub_separator _ c r Hr Hc).
    rewrite (IH HPl ltac:(discriminate) rest). reflexivity.
Qed.

(** The texts of the members of an object, up to its closing brace. *)
Lemma pass_members (ta to : bool) (d : dict JValue) :
  Forall (fun kv => occurs m (render_string (fst kv)) = false) d ->
  Forall (fun kv => forall rest,
              re_sub m repl (render ta to (snd kv) ++ rest)
              = render (ta && negb strip_a) (to && negb strip_o) (snd kv)
                ++ re_sub m repl rest) d ->
  d <> [] ->
  forall rest,
    re_sub m repl
      (String.concat ", "
         (map (fun kv => render_string (fst kv) ++ ": " ++ render ta to (snd kv)) d)
       ++ (if to then ",}" else "}") ++ rest)
    = String.concat ", "
        (map (fun kv => render_string (fst kv) ++ ": "
                        ++ render (ta && negb strip_a) (to && negb strip_o) (snd kv)) d)
      ++ (if to && negb strip_o then ",}" else "}") ++ re_sub m repl rest.
Proof.
  induction d as [| [k x] d IH]; intros HK HP Hne rest; [congruence |].
  inversion HK as [| ? ? Hk HKl]; subst.
  inversion HP as [| ? ? Hx HPl]; subst.
  cbn [fst snd] in Hk, Hx.
  assert (Hmember : forall t,
             re_sub m repl ((render_string k ++ ": " ++ render ta to x) ++ t)
             = (render_string k ++ ": "
                ++ render (ta && negb strip_a) (to && negb strip_o) x)
               ++ re_sub m repl t).
  { intros t. rewrite !append_assoc. rewrite (re_sub_string k _ Hk).
    cbn [append]. rewrite !re_sub_char by reflexivity. rewrite Hx. reflexivity. }
  destruct d as [| kv d'].
  - cbn [map String.concat fst snd]. rewrite Hmember, re_sub_close_o. reflexivity.
  - assert (Htext : forall ta0 to0 t,
               String.concat ", "
                 (map (fun kv => render_string (fst kv) ++ ": "
                                 ++ render ta0 to0 (snd kv)) ((k, x) :: kv :: d')) ++ t
               = (render_string k ++ ": " ++ render ta0 to0 x)
                 ++ ", "
                 ++ (String.concat ", "
                       (map (fun kv => render_string (fst kv) ++ ": "
                                       ++ render ta0 to0 (snd kv)) (kv :: d')) ++ t)).
    { intros ta0 to0 t. cbn [map String.concat fst snd].
      rewrite !append_assoc. reflexivity. }
    rewrite !Htext. rewrite Hmember.
    destruct (members_text_start ta to kv d' ((if to then ",}" else "}") ++ rest))
      as (r & Hr).
    rewrite (re_sub_separator _ dq r Hr eq_refl).
    rewrite (IH HKl HPl ltac:(discriminate) rest). reflexivity.
Qed.

(** A substitution pass over the text of a value: the trailing commas that
    the pattern matches go, and nothing else changes. *)
Lemma pass_render (ta to : bool) (v : JValue) :
  strings_free_of m v ->
  forall rest,
    re_sub m repl (render ta to v ++ rest)
    = render (ta && negb strip_a) (to && negb strip_o) v ++ re_sub m repl rest.
Proof.
  induction v as [| b | z | k e | s | l IH | d IH] using JValue_nested_ind;
    intros Hfree rest.
  - apply (re_sub_inert "null"). reflexivity.
  - destruct b; [apply (re_sub_inert "true") | apply (re_sub_inert "false")];
      reflexivity.
  - cbn [render]. apply re_sub_inert, render_int_inert.
  - cbn [render]. apply re_sub_inert.
    rewrite !all_chars_append, !render_int_inert. reflexivity.
  - cbn [render]. apply re_sub_string.
    unfold strings_free_of in Hfree. cbn [strings_of] in Hfree.
    inversion Hfree; subst. assumption.
  - destruct l as [| x l'].
    + cbn [render map String.concat List.length closing append].
      rewrite !re_sub_char by reflexivity. reflexivity.
    + set (l := x :: l') in *.
      assert (Hl : Forall (fun x => forall rest,
                               re_sub m repl (render ta to x ++ rest)
                               = render (ta && negb strip_a) (to && negb strip_o) x
                                 ++ re_sub m repl rest) l).
      { unfold strings_free_of in Hfree. cbn [strings_of] in Hfree.
        rewrite Forall_flat_map in Hfree.
        rewrite Forall_forall in IH, Hfree |- *.
        intros y Hy. apply IH; [exact Hy | apply Hfree, Hy]. }
      assert (Htext : forall ta0 to0 t,
                 render ta0 to0 (JArr l) ++ t
                 = String "[" (String.concat ", " (map (render ta0 to0) l)
                               ++ (if ta0 then ",]" else "]") ++ t)).
      { intros ta0 to0 t. cbn [render append]. rewrite append_assoc.
        subst l. cbn [List.length closing]. destruct ta0; reflexivity. }
      rewrite !Htext. rewrite re_sub_char by reflexivity.
      rewrite (pass_elems ta to l Hl ltac:(discriminate) rest). reflexivity.
  - destruct d as [| kv d'].
    + cbn [render map String.concat List.length closing append].
      rewrite !re_sub_char by reflexivity. reflexivity.
    + set (d := kv :: d') in *.
      unfold strings_free_of in Hfree. cbn [strings_of] in Hfree.
      rewrite Forall_flat_map in Hfree.
      assert (Hk : Forall (fun kv => occurs m (render_string (fst kv)) = false) d).
      { rewrite Forall_forall in Hfree |- *. intros y Hy.
        pose proof (Hfree y Hy) as H. inversion H; subst. assumption. }
      assert (Hd : Forall (fun kv => forall rest,
                               re_sub m repl (render ta to (snd kv) ++ rest)
                               = render (ta && negb strip_a) (to && negb strip_o)
                                        (snd kv)
                                 ++ re_sub m repl rest) d).
      { rewrite Forall_forall in IH, Hfree |- *. intros y Hy.
        apply IH; [exact Hy |].
        pose proof (Hfree y Hy) as H. inversion H; subst. assumption. }
      assert (Htext : forall ta0 to0 t,
                 render ta0 to0 (JObj d) ++ t
                 = String "{"
                     (String.concat ", "
                        (map (fun kv => render_string (fst kv) ++ ": "
                                        ++ render ta0 to0 (snd kv)) d)
                      ++ (if to0 then ",}" else "}") ++ t)).
      { intros ta0 to0 t. cbn [render append]. rewrite append_assoc.
        subst d. cbn [List.length closing]. destruct to0; reflexivity. }
      rewrite !Htext. rewrite re_sub_char by reflexivity.
      rewrite (pass_members ta to d Hk Hd ltac:(discriminate) rest). reflexivity.
Qed.

End Pass.

(** ** The patterns of the parsers *)

Lemma length_lstrip (s : string) : (String.length (lstrip s) <= String.length s)%nat.
Proof.
  induction s as [| c s IH]; cbn [lstrip]; [lia |].
  destruct (is_space c); cbn [String.length]; lia.
Qed.

Lemma prefix_drop (lit s : string) :
  prefix lit s = true ->
  (String.length (drop (String.length lit) s) + String.length lit
   = String.length s)%nat.
Proof.
  revert s. induction lit as [| a lit IH]; intros s H.
  - destruct s; cbn; lia.
  - destruct s as [| c s]; [discriminate H |].
    cbn [prefix] in H. destruct (Ascii.ascii_dec a c); [| discriminate H].
    cbn [String.length drop]. specialize (IH s H). lia.
Qed.

Lemma lit_spaces_shrinking (a : ascii) (lit : string) :
  shrinking (lit_spaces (String a lit)).
Proof.
  intros s rest H. unfold lit_spaces in H.
  destruct (prefix (String a lit) s) eqn:E; [| discriminate H].
  assert (Hrest : rest = lstrip (drop (String.length (String a lit)) s))
    by congruence.
  rewrite Hrest. clear H Hrest. apply prefix_drop in E.
  pose proof (length_lstrip (drop (String.length (String a lit)) s)) as Hl.
  assert (Hk : (1 <= String.length (String a lit))%nat) by (cbn [String.length]; lia).
  revert E Hl Hk. generalize (String.length (String a lit)). intros k E Hl Hk. lia.
Qed.

Lemma lit_spaces_inert (lit : string) (c : ascii) (r : string) :
  inert_char c = true -> lit_spaces (String "`" lit) (String c r) = None.
Proof.
  intros H. unfold lit_spaces. cbn [prefix].
  destruct (Ascii.ascii_dec "`" c) as [<- |]; [discriminate H | reflexivity].
Qed.

Lemma prefix_local (lit t b : string) :
  all_chars not_dq lit = true ->
  prefix lit ((t ++ String dq "") ++ b) = prefix lit (t ++ String dq "").
Proof.
  revert t. induction lit as [| a lit IH]; intros t H.
  - destruct t; reflexivity.
  - cbn [all_chars] in H. apply andb_prop in H. destruct H as [Ha Hl].
    destruct t as [| c t]; cbn [append prefix].
    + destruct (Ascii.ascii_dec a dq) as [-> |]; [discriminate Ha | reflexivity].
    + destruct (Ascii.ascii_dec a c); [apply IH, Hl | reflexivity].
Qed.

Lemma lit_spaces_local (lit t b : string) :
  all_chars not_dq lit = true ->
  lit_spaces lit (t ++ String dq "") = None ->
  lit_spaces lit ((t ++ String dq "") ++ b) = None.
Proof.
  intros Hl. unfold lit_spaces. rewrite (prefix_local lit t b Hl).
  destruct (prefix lit (t ++ String dq "")); [discriminate | reflexivity].
Qed.

Lemma prefix_append (a b s : string) :
  prefix (a ++ b) s = true -> prefix a s = true.
Proof.
  revert s. induction a as [| x a IH]; intros s H.
  - destruct s; reflexivity.
  - destruct s as [| c s]; [discriminate H |].
    cbn [append prefix] in H |- *.
    destruct (Ascii.ascii_dec x c); [apply IH, H | discriminate H].
Qed.

Lemma occurs_fence_json (s : string) :
  occurs fence s = false -> occurs fence_json s = false.
Proof.
  induction s as [| c s IH]; cbn [occurs]; intros H.
  - reflexivity.
  - destruct (fence (String c s)) eqn:E; [discriminate H |].
    assert (Ej : fence_json (String c s) = None).
    { unfold fence_json, fence, lit_spaces in *.
      destruct (prefix (backticks ++ "json") (String c s)) eqn:Ep; [| reflexivity].
      apply prefix_append in Ep. rewrite Ep in E. discriminate E. }
    rewrite Ej. apply IH, H.
Qed.

Lemma strings_free_of_fence_json (v : JValue) :
  strings_free_of fence v -> strings_free_of fence_json v.
Proof.
  unfold strings_free_of. apply Forall_impl. intros s. apply occurs_fence_json.
Qed.

(** Removing the fences leaves the text of a value as it is. *)
Lemma fence_pass (ta to : bool) (v : JValue) (rest : string) :
  strings_free_of fence v ->
  re_sub fence "" (render ta to v ++ rest)
  = render ta to v ++ re_sub fence "" rest.
Proof.
  intros Hfree.
  rewrite (pass_render fence "" false false
             (lit_spaces_shrinking _ _)
             (lit_spaces_inert _)
             (fun t b => lit_spaces_local backticks t b eq_refl)
             (fun c r _ => eq_refl) (fun r => eq_refl) (fun r => eq_refl)
             ltac:(discriminate) ltac:(discriminate) ta to v Hfree rest).
  rewrite !andb_true_r. reflexivity.
Qed.

Lemma fence_json_pass (ta to : bool) (v : JValue) (rest : string) :
  strings_free_of fence v ->
  re_sub fence_json "" (render ta to v ++ rest)
  = render ta to v ++ re_sub fence_json "" rest.
Proof.
  intros Hfree. apply strings_free_of_fence_json in Hfree.
  rewrite (pass_render fence_json "" false false
             (lit_spaces_shrinking _ _)
             (lit_spaces_inert _)
             (fun t b => lit_spaces_local (backticks ++ "json") t b eq_refl)
             (fun c r _ => eq_refl) (fun r => eq_refl) (fun r => eq_refl)
             ltac:(discriminate) ltac:(discriminate) ta to v Hfree rest).
  rewrite !andb_true_r. reflexivity.
Qed.

Lemma comma_before_eq (close c : ascii) (r : string) :
  comma_before close (String c r)
  = if Ascii.eqb c ","
    then match lstrip r with
         | String x rest => if Ascii.eqb x close then Some rest else None
         | EmptyString => None
         end
    else None.
Proof. ascii_cases c; reflexivity. Qed.

Lemma comma_before_shrinking (close : ascii) : shrinking (comma_before close).
Proof.
  intros s rest H. destruct s as [| c r]; [discriminate H |].
  rewrite comma_before_eq in H.
  destruct (Ascii.eqb c ","); [| discriminate H].
  pose proof (length_lstrip r) as Hl.
  destruct (lstrip r) as [| x t]; [discriminate H |].
  destruct (Ascii.eqb x close); [| discriminate H].
  assert (Hrest : rest = t) by congruence.
  rewrite Hrest. cbn [String.length] in Hl |- *. lia.
Qed.

Lemma comma_before_inert (close c : ascii) (r : string) :
  inert_char c = true -> comma_before close (String c r) = None.
Proof.
  intros H. rewrite comma_before_eq.
  destruct (Ascii.eqb c ",") eqn:E; [| reflexivity].
  unfold inert_char in H. rewrite E in H. discriminate H.
Qed.

Lemma lstrip_local (t b : string) :
  exists c r,
    lstrip (t ++ String dq "") = String c r
    /\ lstrip ((t ++ String dq "") ++ b) = String c (r ++ b).
Proof.
  induction t as [| x t IH]; cbn [append lstrip].
  - exists dq, "". split; reflexivity.
  - destruct (is_space x); [exact IH |].
    eexists. eexists. split; reflexivity.
Qed.

Lemma comma_before_local (close : ascii) (t b : string) :
  comma_before close (t ++ String dq "") = None ->
  comma_before close ((t ++ String dq "") ++ b) = None.
Proof.
  destruct t as [| c t]; cbn [append]; rewrite !comma_before_eq.
  - intros _. reflexivity.
  - destruct (Ascii.eqb c ","); [| reflexivity].
    destruct (lstrip_local t b) as (x & r & H1 & H2).
    rewrite H1, H2. destruct (Ascii.eqb x close); [discriminate | reflexivity].
Qed.

Lemma value_start_not_space (c : ascii) :
  value_start c = true -> is_space c = false.
Proof. ascii_cases c; intros H; try discriminate H; reflexivity. Qed.

Lemma comma_before_sep (close c : ascii) (r : string) :
  close = "]"%char \/ close = "}"%char ->
  value_start c = true ->
  comma_before close (String "," (String " " (String c r))) = None.
Proof.
  intros Hclose Hc. rewrite comma_before_eq.
  change (Ascii.eqb "," ",") with true. cbv iota.
  change (lstrip (String " " (String c r))) with (lstrip (String c r)).
  cbn [lstrip]. rewrite (value_start_not_space c Hc).
  destruct (value_start_facts c Hc) as (_ & H1 & H2 & _).
  destruct Hclose as [-> | ->]; [rewrite H1 | rewrite H2]; reflexivity.
Qed.

(** The repair of the trailing commas before [']']. *)
Lemma comma_bracket_pass (ta to : bool) (v : JValue) (rest : string) :
  strings_free_of (comma_before "]") v ->
  re_sub (comma_before "]") "]" (render ta to v ++ rest)
  = render false to v ++ re_sub (comma_before "]") "]" rest.
Proof.
  intros Hfree.
  rewrite (pass_render (comma_before "]") "]" true false
             (comma_before_shrinking _)
             (comma_before_inert _)
             (comma_before_local _)
             (fun c r => comma_before_sep "]" c r (or_introl eq_refl))
             (fun r => eq_refl) (fun r => eq_refl)
             (fun _ => eq_refl) ltac:(discriminate) ta to v Hfree rest).
  rewrite andb_false_r, andb_true_r. reflexivity.
Qed.

(** The repair of the trailing commas before ['}']. *)
Lemma comma_brace_pass (ta to : bool) (v : JValue) (rest : string) :
  strings_free_of (comma_before "}") v ->
  re_sub (comma_before "}") "}" (render ta to v ++ rest)
  = render ta false v ++ re_sub (comma_before "}") "}" rest.
Proof.
  intros Hfree.
  rewrite (pass_render (comma_before "}") "}" false true
             (comma_before_shrinking _)
             (comma_before_inert _)
             (comma_before_local _)
             (fun c r => comma_before_sep "}" c r (or_intror eq_refl))
             (fun r => eq_refl) (fun r => eq_refl)
             ltac:(discriminate) (fun _ => eq_refl) ta to v Hfree rest).
  rewrite andb_false_r, andb_true_r. reflexivity.
Qed.

(** ** [json.loads] of what [json.dumps] wrote *)

Lemma length_concat_bound {A} (sz : A -> nat) (g : A -> string) (l : list A) :
  Forall (fun a => (sz a < 2 * String.length (g a))%nat) l ->
  (List.length l + list_sum (map sz l)
   <= 2 * String.length (String.concat ", " (map g l)))%nat.
Proof.
  induction l as [| x l IH]; intros H; [cbn; lia |].
  inversion H as [| ? ? Hx Hl]; subst. specialize (IH Hl). cbn beta in Hx.
  destruct l as [| y l'].
  - simpl. simpl in Hx. lia.
  - change (String.concat ", " (map g (x :: y :: l')))
      with (g x ++ ", " ++ String.concat ", " (map g (y :: l'))).
    rewrite !length_append.
    change (List.length (x :: y :: l')) with (S (List.length (y :: l'))).
    change (list_sum (map sz (x :: y :: l')))
      with (sz x + list_sum (map sz (y :: l')))%nat.
    cbn [String.length]. lia.
Qed.

Lemma jsize_render (ta to : bool) (v : JValue) :
  (jsize v < 2 * String.length (render ta to v))%nat.
Proof.
  induction v as [| b | z | k e | s | l IH | d IH] using JValue_nested_ind.
  - cbn. lia.
  - destruct b; cbn; lia.
  - cbn [jsize render]. destruct (render_int_start z "") as (c & r & Hr & _).
    rewrite append_nil_r in Hr. rewrite Hr. cbn [String.length]. lia.
  - cbn [jsize render]. destruct (render_int_start k ("e" ++ render_int e))
      as (c & r & Hr & _).
    rewrite Hr. cbn [String.length]. lia.
  - cbn [jsize render]. unfold render_string. cbn [String.length]. lia.
  - cbn [jsize render]. cbn [append String.length]. rewrite length_append.
    pose proof (length_concat_bound jsize (render ta to) l IH) as Hb.
    assert (Hc : (1 <= String.length (closing ta (List.length l) "]"))%nat).
    { destruct l, ta; cbn; lia. }
    lia.
  - cbn [jsize render]. rewrite !length_append. cbn [String.length].
    pose proof (length_concat_bound
                  (fun kv => jsize (snd kv))
                  (fun kv => render_string (fst kv) ++ ": " ++ render ta to (snd kv))
                  d) as Hb.
    assert (Hc : (1 <= String.length (closing to (List.length d) "}"))%nat).
    { destruct d, to; cbn; lia. }
    assert (Hd : Forall (fun kv : string * JValue =>
                           (jsize (snd kv)
                            < 2 * String.length
                                  (render_string (fst kv) ++ ": "
                                   ++ render ta to (snd kv)))%nat) d).
    { eapply Forall_impl; [| exact IH]. cbn beta. intros kv H.
      rewrite !length_append. lia. }
    specialize (Hb Hd). lia.
Qed.

Lemma json_loads_render (ta to : bool) (v : JValue) :
  wf_value v ->
  json_loads (render ta to v)
  = if has_trailing_comma ta to v then None else Some v.
Proof.
  intros Hwf. unfold json_loads.
  pose proof (skip_jws_value ta to v "") as Hs. rewrite append_nil_r in Hs.
  rewrite Hs.
  pose proof (parse_value_render ta to v Hwf
                (2 * String.length (render ta to v) + 2)%nat ""
                ltac:(pose proof (jsize_render ta to v); lia) eq_refl) as Hp.
  rewrite append_nil_r in Hp. unfold parses_to in Hp.
  destruct (has_trailing_comma ta to v).
  - destruct (parse_value _ _); [destruct Hp | reflexivity | reflexivity].
  - rewrite Hp. reflexivity.
Qed.

Lemma has_trailing_comma_none (v : JValue) :
  has_trailing_comma false false v = false.
Proof.
  induction v as [| b | z | k e | s | l IH | d IH] using JValue_nested_ind;
    cbn [has_trailing_comma andb orb]; try reflexivity.
  - induction IH as [| x l Hx _ IHl]; cbn [existsb]; [reflexivity |].
    rewrite Hx. exact IHl.
  - induction IH as [| x l Hx _ IHl]; cbn [existsb]; [reflexivity |].
    rewrite Hx. exact IHl.
Qed.

(** ** The parsers on a wrapped text *)

Lemma lstrip_value (ta to : bool) (v : JValue) (t : string) :
  lstrip (render ta to v ++ t) = render ta to v ++ t.
Proof.
  destruct (value_start_render ta to v) as (c & r & Hr & Hc).
  rewrite Hr. cbn [append lstrip]. rewrite (value_start_not_space c Hc).
  reflexivity.
Qed.

Lemma upto_last_end (c : ascii) (x : string) :
  upto_last c (x ++ String c "") = Some (x ++ String c "").
Proof.
  induction x as [| a x IH]; cbn [append upto_last].
  - rewrite Ascii.eqb_refl. reflexivity.
  - rewrite IH. reflexivity.
Qed.

Lemma search_span_whole (open close : ascii) (x : string) :
  search_span open close (String open (x ++ String close ""))
  = Some (String open (x ++ String close "")).
Proof.
  unfold search_span. cbn [from_first]. rewrite Ascii.eqb_refl.
  rewrite upto_last_end. reflexivity.
Qed.

Lemma rstrip_end (x : string) (c : ascii) (w : string) :
  is_space c = false -> rstrip w = "" ->
  rstrip (x ++ String c w) = x ++ String c "".
Proof.
  intros Hc Hw. induction x as [| a x IH]; cbn [append rstrip].
  - rewrite Hw, Hc. reflexivity.
  - rewrite IH. destruct x; reflexivity.
Qed.

(** The text of an array or an object: an opening bracket, and the closing
    one at the end. *)
Lemma render_array_shape (ta to : bool) (l : list JValue) :
  exists x, render ta to (JArr l) = String "[" (x ++ "]").
Proof.
  cbn [render append].
  destruct l as [| y l']; [exists ""; reflexivity |].
  destruct ta; cbn [List.length closing].
  - eexists (_ ++ ","). rewrite append_assoc. reflexivity.
  - eexists. reflexivity.
Qed.

Lemma render_object_shape (ta to : bool) (d : dict JValue) :
  exists x, render ta to (JObj d) = String "{" (x ++ "}").
Proof.
  cbn [render append].
  destruct d as [| kv d']; [exists ""; reflexivity |].
  destruct to; cbn [List.length closing].
  - eexists (_ ++ ","). rewrite append_assoc. reflexivity.
  - eexists. reflexivity.
Qed.

Lemma render_container_shape (ta to : bool) (v : JValue) :
  is_array v \/ is_object v ->
  exists c0 x c1,
    render ta to v = String c0 (x ++ String c1 "")
    /\ is_space c0 = false /\ is_space c1 = false.
Proof.
  intros [[l ->] | [d ->]].
  - destruct (render_array_shape ta to l) as (x & Hx).
    exists "["%char, x, "]"%char. split; [exact Hx | split; reflexivity].
  - destruct (render_object_shape ta to d) as (x & Hx).
    exists "{"%char, x, "}"%char. split; [exact Hx | split; reflexivity].
Qed.

Lemma strip_container (ta to : bool) (v : JValue) (w : string) :
  is_array v \/ is_object v -> rstrip w = "" ->
  strip (render ta to v ++ w) = render ta to v.
Proof.
  intros Hv Hw. unfold strip. rewrite lstrip_value.
  destruct (render_container_shape ta to v Hv) as (c0 & x & c1 & Hr & _ & H1).
  rewrite Hr. cbn [append]. rewrite append_assoc. cbn [append].
  change (String c0 (x ++ String c1 w)) with (String c0 x ++ String c1 w).
  rewrite (rstrip_end (String c0 x) c1 w H1 Hw). reflexivity.
Qed.

(** Removing the fences and the blanks around gives the text back. *)
Lemma unwrap_render (w : Wrapping) (ta to : bool) (v : JValue) :
  strings_free_of fence v -> is_array v \/ is_object v ->
  strip (re_sub fence "" (re_sub fence_json "" (wrap w (render ta to v))))
  = render ta to v.
Proof.
  intros Hfree Hv. set (body := render ta to v).
  assert (Hsj : shrinking fence_json) by apply lit_spaces_shrinking.
  assert (Hsf : shrinking fence) by apply lit_spaces_shrinking.
  destruct w; cbn [wrap].
  - pose proof (fence_json_pass ta to v "" Hfree) as Hj.
    pose proof (fence_pass ta to v "" Hfree) as Hf.
    pose proof (strip_container ta to v "" Hv eq_refl) as Hs.
    change (re_sub fence_json "" "") with "" in Hj.
    change (re_sub fence "" "") with "" in Hf.
    rewrite !append_nil_r in Hj, Hf, Hs.
    subst body. rewrite Hj, Hf. exact Hs.
  - assert (H1 : re_sub fence_json "" (backticks ++ nl ++ body ++ nl ++ backticks)
                 = backticks ++ nl ++ body ++ nl ++ backticks).
    { change (backticks ++ nl ++ body ++ nl ++ backticks)
        with ((backticks ++ nl) ++ (body ++ (nl ++ backticks))).
      rewrite (re_sub_quiet fence_json "" Hsj (backticks ++ nl));
        [| repeat split; reflexivity].
      subst body. rewrite (fence_json_pass ta to v _ Hfree). reflexivity. }
    rewrite H1. clear H1.
    rewrite (re_sub_eq fence "" _ Hsf).
    assert (H2 : fence (backticks ++ nl ++ body ++ nl ++ backticks)
                 = Some (body ++ (nl ++ backticks))).
    { unfold fence, lit_spaces.
      change (prefix backticks (backticks ++ nl ++ body ++ nl ++ backticks))
        with true. cbv iota.
      change (drop (String.length backticks)
                   (backticks ++ nl ++ body ++ nl ++ backticks))
        with (nl ++ body ++ nl ++ backticks).
      change (lstrip (nl ++ body ++ nl ++ backticks))
        with (lstrip (body ++ (nl ++ backticks))).
      subst body. rewrite lstrip_value. reflexivity. }
    rewrite H2. clear H2. subst body.
    rewrite (fence_pass ta to v _ Hfree).
    change (re_sub fence "" (nl ++ backticks)) with nl.
    cbn [append]. apply strip_container; [exact Hv | reflexivity].
  - rewrite (re_sub_eq fence_json "" _ Hsj).
    assert (H1 : fence_json ((backticks ++ "json") ++ nl ++ body ++ nl ++ backticks)
                 = Some (body ++ (nl ++ backticks))).
    { unfold fence_json, lit_spaces.
      change (prefix (backticks ++ "json")
                     ((backticks ++ "json") ++ nl ++ body ++ nl ++ backticks))
        with true. cbv iota.
      change (drop (String.length (backticks ++ "json"))
                   ((backticks ++ "json") ++ nl ++ body ++ nl ++ backticks))
        with (nl ++ body ++ nl ++ backticks).
      change (lstrip (nl ++ body ++ nl ++ backticks))
        with (lstrip (body ++ (nl ++ backticks))).
      subst body. rewrite lstrip_value. reflexivity. }
    change (backticks ++ "json" ++ nl ++ body ++ nl ++ backticks)
      with ((backticks ++ "json") ++ nl ++ body ++ nl ++ backticks).
    rewrite H1. clear H1. subst body. cbn [append].
    rewrite (fence_json_pass ta to v _ Hfree).
    change (re_sub fence_json "" (nl ++ backticks)) with (nl ++ backticks).
    rewrite (fence_pass ta to v _ Hfree).
    change (re_sub fence "" (nl ++ backticks)) with nl.
    apply strip_container; [exact Hv | reflexivity].
Qed.

(** [json.loads], with the repair of the trailing commas when it fails, in
    either order of the two repairs. *)
Lemma loads_or_repair (ta to : bool) (v : JValue) :
  wf_value v ->
  (has_trailing_comma ta to v = true ->
   strings_free_of (comma_before "]") v /\ strings_free_of (comma_before "}") v) ->
  json_loads (render ta to v)
  = (if has_trailing_comma ta to v then None else Some v)
  /\ json_loads (re_sub (comma_before "}") "}"
                   (re_sub (comma_before "]") "]" (render ta to v)))
     = (if has_trailing_comma ta to v then Some v
        else json_loads (re_sub (comma_before "}") "}"
                           (re_sub (comma_before "]") "]" (render ta to v))))
  /\ json_loads (re_sub (comma_before "]") "]"
                   (re_sub (comma_before "}") "}" (render ta to v)))
     = (if has_trailing_comma ta to v then Some v
        else json_loads (re_sub (comma_before "]") "]"
                           (re_sub (comma_before "}") "}" (render ta to v)))).
Proof.
  intros Hwf Hfree. split; [apply json_loads_render, Hwf |].
  destruct (has_trailing_comma ta to v); [| split; reflexivity].
  destruct (Hfree eq_refl) as [Ha Ho].
  assert (Hnone : json_loads (render false false v) = Some v).
  { rewrite (json_loads_render false false v Hwf), has_trailing_comma_none.
    reflexivity. }
  split.
  - rewrite <- (append_nil_r (render ta to v)).
    rewrite (comma_bracket_pass ta to v "" Ha).
    change (re_sub (comma_before "]") "]" "") with "".
    rewrite (comma_brace_pass false to v "" Ho).
    change (re_sub (comma_before "}") "}" "") with "".
    rewrite !append_nil_r. exact Hnone.
  - rewrite <- (append_nil_r (render ta to v)).
    rewrite (comma_brace_pass ta to v "" Ho).
    change (re_sub (comma_before "}") "}" "") with "".
    rewrite (comma_bracket_pass ta false v "" Ha).
    change (re_sub (comma_before "]") "]" "") with "".
    rewrite !append_nil_r. exact Hnone.
Qed.

(** C7 (amended): a value whose dicts have different keys, written as JSON,
    optionally with a comma before every closing bracket of an array and
    before every closing brace of an object, and optionally wrapped in a
    plain or a json-tagged code fence, is recovered by the parser of the
    claim extractor when it is an array, and by the parser of the fact
    checker when it is an object; provided no string of the value contains
    a fence and, when there is a trailing comma, none contains a comma
    followed by blanks and a closing bracket or brace. *)
Theorem extract_json_round_trip (w : Wrapping) (ta to : bool) (v : JValue) :
  wf_value v ->
  strings_free_of fence v ->
  (has_trailing_comma ta to v = true ->
   strings_free_of (comma_before "]") v /\ strings_free_of (comma_before "}") v) ->
  (is_array v ->
   ClaimExtractor.extract_json_from_text (wrap w (render ta to v)) = v)
  /\ (is_object v ->
      FactCheckerAgent.extract_json_from_text (wrap w (render ta to v)) = v).
Proof.
  intros Hwf Hfence Hcomma.
  destruct (loads_or_repair ta to v Hwf Hcomma) as (H1 & H2 & H3).
  split; intros Hv.
  - unfold ClaimExtractor.extract_json_from_text. cbv zeta.
    rewrite (unwrap_render w ta to v Hfence (or_introl Hv)).
    assert (Hspan : search_span "[" "]" (render ta to v) = Some (render ta to v)).
    { destruct Hv as [l ->]. destruct (render_array_shape ta to l) as (x & Hx).
      rewrite Hx. apply search_span_whole. }
    rewrite Hspan, H1.
    destruct (has_trailing_comma ta to v); [rewrite H2 |]; reflexivity.
  - unfold FactCheckerAgent.extract_json_from_text. cbv zeta.
    rewrite (unwrap_render w ta to v Hfence (or_intror Hv)).
    assert (Hspan : search_span "{" "}" (render ta to v) = Some (render ta to v)).
    { destruct Hv as [d ->]. destruct (render_object_shape ta to d) as (x & Hx).
      rewrite Hx. apply search_span_whole. }
    rewrite Hspan, H1.
    destruct (has_trailing_comma ta to v); [rewrite H3 |]; reflexivity.
Qed.

Lemma extract_json_round_trip_witness :
  let v := JArr [ JStr "Workflow 789 failed to start";
                  JObj [("confidence", JInt 90); ("sources", JArr [JStr "kb-1"])] ] in
  wf_value v
  /\ strings_free_of fence v
  /\ strings_free_of (comma_before "]") v
  /\ strings_free_of (comma_before "}") v
  /\ ClaimExtractor.extract_json_from_text (wrap FencedJson (render true true v)) = v.
Proof.
  intros v.
  assert (Hwf : wf_value v).
  { cbn. repeat split. repeat constructor; simpl; intuition discriminate. }
  assert (Hf : strings_free_of fence v) by (repeat constructor).
  assert (Ha : strings_free_of (comma_before "]") v) by (repeat constructor).
  assert (Ho : strings_free_of (comma_before "}") v) by (repeat constructor).
  split; [exact Hwf |]. split; [exact Hf |]. split; [exact Ha |].
  split; [exact Ho |].
  exact (proj1 (extract_json_round_trip FencedJson true true v Hwf Hf
                                        (fun _ => conj Ha Ho))
               (ex_intro _ _ eq_refl)).
Defined.

(** C7 as stated fails for an object that has an array inside: the parser of
    the claim extractor looks for a bracketed span first and returns the
    inner array; and the parser of the fact checker, which looks for braces
    only, returns its fallback record for an array without an object
    inside. *)
Lemma extract_json_nested_array_counterexample :
  wf_value (JObj [("claims", JArr [JInt 1])])
  /\ is_object (JObj [("claims", JArr [JInt 1])])
  /\ ClaimExtractor.extract_json_from_text
       (json_dumps (JObj [("claims", JArr [JInt 1])]))
     = JArr [JInt 1]
  /\ JArr [JInt 1] <> JObj [("claims", JArr [JInt 1])]
  /\ FactCheckerAgent.extract_json_from_text (json_dumps (JArr [JInt 1]))
     = FactCheckerAgent.parse_failed.
Proof.
  split.
  { cbn. repeat split. repeat constructor; simpl; intuition. }
  split; [eexists; reflexivity |].
  split; [vm_compute; reflexivity |].
  split; [discriminate |].
  vm_compute. reflexivity.
Qed.

(* ================================================================= *)
(** * Part III: further properties of the code *)
(* ================================================================= *)

(** ** The graph: steps, triggers and the stages' frames *)

Lemma invoke_step (env : Env) (fuel : nat) (n : Node) (st : ResearchState)
      (done : list Node) (evs : list Event) :
  invoke_from env (S fuel) [n] st done evs
  = invoke_from env fuel
      (triggered n (out_state (fst (node_function env n st))))
      (out_state (fst (node_function env n st)))
      (done ++ [n])%list (evs ++ snd (node_function env n st))%list.
Proof.
  cbn [invoke_from]. destruct (node_function env n st) as [out ev]. reflexivity.
Qed.

Lemma invoke_collision (env : Env) (fuel : nat) (a b : Node) (l : list Node)
      (st : ResearchState) (done : list Node) (evs : list Event) :
  invoke_from env fuel (a :: b :: l) st done evs
  = mkRun (Raise invalid_update) (done ++ a :: b :: l)%list
          (evs ++ flat_map (fun n => snd (node_function env n st)) (a :: b :: l))%list.
Proof. destruct fuel; reflexivity. Qed.

Lemma invoke_end (env : Env) (fuel : nat) (st : ResearchState)
      (done : list Node) (evs : list Event) :
  invoke_from env fuel [] st done evs = mkRun (Ok st) done evs.
Proof. destruct fuel; reflexivity. Qed.

(** A stage that has a branch triggers the next stage, and the error
    handler beside it when the state holds an error. *)
Lemma triggered_stage (n next : Node) (st : ResearchState) :
  In (n, next) (firstn 6 edges) ->
  triggered n st = if error_set st then [next; error_handler] else [next].
Proof.
  intros H. cbn [firstn edges] in H.
  repeat (destruct H as [H | H];
          [injection H as <- <-;
           unfold triggered, branches, edges, route; simpl;
           destruct (error_set st); reflexivity |]).
  destruct H.
Qed.

Lemma triggered_final_answer (st : ResearchState) :
  triggered final_answer_agent st = [].
Proof. reflexivity. Qed.

Lemma triggered_error_handler (st : ResearchState) :
  triggered error_handler st = [].
Proof. reflexivity. Qed.

Ltac node_cases :=
  unfold node_function, query_understanding_node, retrieval_node, reranker_node,
    reasoning_node, claim_extraction_node, fact_checking_node, final_answer_node,
    error_node, call;
  repeat match goal with
         | |- context [match ?x with _ => _ end] => destruct x
         end.

(** The six stages before the last leave the query and the final answer of
    the state as they are. *)
Lemma stage_frame (env : Env) (n : Node) (st : ResearchState) :
  In n (firstn 6 stage_order) ->
  original_query (out_state (fst (node_function env n st))) = original_query st
  /\ final_answer (out_state (fst (node_function env n st))) = final_answer st.
Proof.
  intros H. cbn [firstn stage_order] in H.
  repeat (destruct H as [<- | H]; [node_cases; split; reflexivity |]).
  destruct H.
Qed.

(** The last stage stores the record of [generate_final_answer], or an
    error and no final answer. *)
Lemma final_answer_node_cases (env : Env) (st : ResearchState) :
  original_query (out_state (fst (final_answer_node env st))) = original_query st
  /\ ((exists fa,
          final_answer (out_state (fst (final_answer_node env st))) = Some fa
          /\ limitations fa <> error_limitations
          /\ claim_breakdown fa <> None
          /\ error (out_state (fst (final_answer_node env st))) = error st)
      \/ (final_answer (out_state (fst (final_answer_node env st))) = final_answer st
          /\ error_set (out_state (fst (final_answer_node env st))) = true)).
Proof.
  unfold final_answer_node, FinalAnswerAgent.generate_final_answer, bind, lift,
    try_except, call, ret.
  destruct (FinalAnswerAgent.tally (verified_claims st) _) as [t | e];
    [| split; [reflexivity | right; split; reflexivity]].
  destruct (FinalAnswerAgent.sources_loop 0 _ [] []) as [ctx srcs].
  destruct (FinalAnswerAgent.calculate_overall_confidence (verified_claims st))
    as [c | e]; [| split; [reflexivity | right; split; reflexivity]].
  destruct (final_model env _) as [text | e]; cbn;
    (split; [reflexivity | left; eexists; split; [reflexivity |]]);
    (split; [discriminate | split; [discriminate | reflexivity]]).
Qed.

(** ** The runs of the graph *)

Lemma run_final (env : Env) (fuel : nat) (st : ResearchState)
      (done : list Node) (evs : list Event) :
  (1 <= fuel)%nat -> final_answer st = None ->
  run_ends (invoke_from env fuel [final_answer_agent] st done evs)
           (done ++ stages_from final_answer_agent) (original_query st).
Proof.
  intros Hfuel Hfa. destruct fuel as [| fuel]; [lia |].
  rewrite invoke_step, triggered_final_answer, invoke_end.
  cbn [node_function].
  destruct (final_answer_node_cases env st) as [Hq Hcases].
  left. eexists. split; [reflexivity |]. split; [reflexivity |].
  split; [exact Hq |].
  intros fa Hsome.
  destruct Hcases as [(fa' & Hfa' & Hlim & _) | [Hsame _]].
  - rewrite Hfa' in Hsome. injection Hsome as <-. exact Hlim.
  - rewrite Hsame, Hfa in Hsome. discriminate Hsome.
Qed.

Lemma run_stage (env : Env) (n next : Node) (k : nat) :
  In (n, next) (firstn 6 edges) ->
  (forall fuel st done evs,
      (k <= fuel)%nat -> final_answer st = None ->
      run_ends (invoke_from env fuel [next] st done evs)
               (done ++ stages_from next) (original_query st)) ->
  forall fuel st done evs,
    (S k <= fuel)%nat -> final_answer st = None ->
    run_ends (invoke_from env fuel [n] st done evs)
             (done ++ stages_from n) (original_query st).
Proof.
  intros Hin Hnext fuel st done evs Hfuel Hfa.
  destruct fuel as [| fuel]; [lia |].
  rewrite invoke_step, (triggered_stage n next _ Hin).
  assert (Hn : In n (firstn 6 stage_order) /\ stages_from n = n :: stages_from next).
  { cbn [firstn edges] in Hin.
    repeat (destruct Hin as [Hin | Hin];
            [injection Hin as <- <-; split; [cbn; tauto | reflexivity] |]).
    destruct Hin. }
  destruct Hn as [Hstage Hfrom].
  destruct (stage_frame env n st Hstage) as [Hq Hframe].
  destruct (error_set (out_state (fst (node_function env n st)))).
  - rewrite invoke_collision. right. split; [reflexivity |].
    cbn [executed]. apply in_or_app. right. right. left. reflexivity.
  - rewrite Hfrom, <- Hq.
    replace (done ++ n :: stages_from next)%list
      with ((done ++ [n]) ++ stages_from next)%list
      by (rewrite <- List.app_assoc; reflexivity).
    apply Hnext; [lia | rewrite Hframe; exact Hfa].
Qed.

Lemma run_from_start (env : Env) (fuel : nat) (st : ResearchState) :
  (7 <= fuel)%nat -> final_answer st = None ->
  run_ends (invoke_from env fuel [query_understanding] st [] [])
           stage_order (original_query st).
Proof.
  intros Hfuel Hfa.
  apply (run_stage env query_understanding retrieval 6); cbn; try tauto; try lia.
  apply (run_stage env retrieval reranking 5); cbn; try tauto.
  apply (run_stage env reranking reasoning 4); cbn; try tauto.
  apply (run_stage env reasoning claim_extraction 3); cbn; try tauto.
  apply (run_stage env claim_extraction fact_checking 2); cbn; try tauto.
  apply (run_stage env fact_checking final_answer_agent 1); cbn; try tauto.
  apply run_final.
Qed.

(** Every run of the pipeline either executes the seven stages once each,
    in order, and returns the state they leave; or it ends in the
    [except] branch of [run_research_pipeline] because the error handler
    ran in one step with the next stage. It never exceeds the recursion
    limit, and the record of the error handler is never what the caller
    gets. *)
Theorem pipeline_run_outcomes (env : Env) (query : string) :
  let r := run_research_pipeline env query in
  ((exists st,
       outcome r = Completed st /\ executed r = stage_order
       /\ original_query st = query)
   \/ (exists fa,
         outcome r = SystemError fa invalid_update
         /\ limitations fa = "Critical system failure"
         /\ confidence_score fa = 0
         /\ claim_breakdown fa = None
         /\ In error_handler (executed r)))
  /\ (forall fa,
        result_final_answer (outcome r) = Some fa ->
        limitations fa <> error_limitations).
Proof.
  cbv zeta. unfold run_research_pipeline, invoke.
  destruct (run_from_start env 25 (initial_state query) ltac:(lia) eq_refl)
    as [(st & Hout & Hex & Hq & Hlim) | [Hout Hin]]; rewrite Hout; cbn.
  - split; [left; exists st; repeat split; assumption | exact Hlim].
  - split.
    + right. eexists. repeat split; assumption.
    + intros fa H. injection H as <-. cbn. discriminate.
Qed.

(** ** Stages that swallow the failures of their collaborators *)

(** Retrieve, ExtractClaims and VerifyClaims never record an error, whatever
    their collaborators do: a failing search leaves no documents, and a
    failing claim model leaves the three stock claims (or the one stock
    claim of a blank draft, for which the model is not called). *)
Theorem stages_that_never_set_error (env : Env) (st : ResearchState) :
  (error (out_state (fst (retrieval_node env st))) = error st
   /\ (is_ok (search env (query_of st) 5) = false ->
       retrieved_docs (out_state (fst (retrieval_node env st))) = []))
  /\ (error (out_state (fst (claim_extraction_node env st))) = error st
      /\ (is_ok (claim_model env (draft_answer st)) = false ->
          extracted_claims (out_state (fst (claim_extraction_node env st)))
          = ClaimExtractor.fallback_claims
          \/ extracted_claims (out_state (fst (claim_extraction_node env st)))
             = [ClaimExtractor.no_content]))
  /\ error (out_state (fst (fact_checking_node env st))) = error st.
Proof.
  split; [| split].
  - unfold retrieval_node, run_retriever, call.
    destruct (search env (query_of st) 5); cbn; split; try reflexivity;
      discriminate.
  - unfold claim_extraction_node, ClaimExtractor.extract_claims, call.
    destruct (String.eqb (draft_answer st) "" || String.eqb (strip (draft_answer st)) "").
    + cbn. split; [reflexivity |]. intros _. right. reflexivity.
    + destruct (claim_model env (draft_answer st)); cbn; split; try reflexivity;
        [discriminate | intros _; left; reflexivity].
  - node_cases; reflexivity.
Qed.

(** ** An error in the last stage *)

Lemma tally_raises (items : dict JValue) (k : string) (v : JValue) :
  In (k, v) items -> ~ is_object v ->
  forall t, exists e, FinalAnswerAgent.tally items t = Raise e.
Proof.
  intros Hin Hv. induction items as [| [k' v'] items IH]; [destruct Hin |].
  intros t. cbn [FinalAnswerAgent.tally].
  destruct Hin as [Heq | Hin].
  - injection Heq as -> ->.
    destruct v; cbn [py_get]; try (eexists; reflexivity).
    exfalso. apply Hv. eexists. reflexivity.
  - specialize (IH Hin).
    destruct (py_get v' "verification_status" (JStr "UNKNOWN")) as [status | e];
      [| eexists; reflexivity].
    repeat match goal with
           | |- context [if ?b then _ else _] => destruct b
           end; apply IH.
Qed.

(** When an entry of [verified_claims] is not a dict (the fact model gave a
    bare string or number for a claim), the last stage calls no model,
    records an error and stores no final answer; the graph then ends: the
    last stage has no branch to the error handler. *)
Theorem final_stage_error_is_not_handled
        (env : Env) (st : ResearchState) (k : string) (v : JValue)
        (fuel : nat) (done : list Node) (evs : list Event) :
  In (k, v) (verified_claims st) -> ~ is_object v ->
  let r := invoke_from env (S fuel) [final_answer_agent] st done evs in
  exists st',
    outcome r = Ok st'
    /\ executed r = (done ++ [final_answer_agent])%list
    /\ events r = evs
    /\ error_set st' = true
    /\ final_answer st' = final_answer st.
Proof.
  intros Hin Hv. cbv zeta.
  rewrite invoke_step, triggered_final_answer, invoke_end.
  cbn [node_function outcome executed events].
  destruct (tally_raises (verified_claims st) k v Hin Hv
              (FinalAnswerAgent.mkTally [] [] [] [])) as (e & He).
  unfold final_answer_node, FinalAnswerAgent.generate_final_answer, bind, lift.
  rewrite He. cbn.
  eexists. split; [reflexivity |]. split; [reflexivity |].
  split; [apply List.app_nil_r |]. split; reflexivity.
Qed.

Lemma final_stage_error_is_not_handled_witness :
  let st := with_verified_claims (initial_state "workflow 789")
              [("Workflow 789 failed to start", JStr "SUPPORTED")] in
  In ("Workflow 789 failed to start", JStr "SUPPORTED") (verified_claims st)
  /\ exists st',
       outcome (invoke_from Examples.env_unknown_status 1 [final_answer_agent] st [] [])
       = Ok st'
       /\ error_set st' = true /\ final_answer st' = None.
Proof.
  intros st.
  assert (Hin : In ("Workflow 789 failed to start", JStr "SUPPORTED")
                   (verified_claims st)) by (left; reflexivity).
  assert (Hv : ~ is_object (JStr "SUPPORTED")) by (intros [d Hd]; discriminate Hd).
  split; [exact Hin |].
  destruct (final_stage_error_is_not_handled
              Examples.env_unknown_status st _ _ 0 [] [] Hin Hv)
    as (st' & H1 & _ & _ & H4 & H5).
  exists st'. split; [exact H1 |]. split; [exact H4 | exact H5].
Defined.

(** ** When the aggregators return *)

Lemma in_float_range_iff (v : JValue) :
  in_float_range v
  <-> exists n x, py_number v = Some n /\ to_float n = Ok x.
Proof.
  assert (Hno : forall w, py_number w = None ->
                  ~ exists n x, py_number w = Some n /\ to_float n = Ok x).
  { intros w Hw (n & x & H & _). rewrite Hw in H. discriminate H. }
  destruct v as [| b | z | m e | s | l | d]; cbn [in_float_range].
  - split; [intros [] | apply Hno; reflexivity].
  - split; [| intros _; exact I].
    intros _. destruct b; eexists; eexists; split; reflexivity.
  - split.
    + intros H. apply Z.ltb_lt in H. exists (PyInt z). cbn [to_float].
      rewrite H. eexists. split; reflexivity.
    + intros (n & x & Hn & Hx). cbn [py_number] in Hn. injection Hn as <-.
      cbn [to_float] in Hx.
      destruct (Z.ltb_spec (Z.abs z) float_limit) as [Hlt | _];
        [exact Hlt | discriminate Hx].
  - split; [| intros _; exact I].
    intros _. eexists; eexists; split; reflexivity.
  - split; [intros [] | apply Hno; reflexivity].
  - split; [intros [] | apply Hno; reflexivity].
  - split; [intros [] | apply Hno; reflexivity].
Qed.

Lemma fact_checker_loop_returns_iff (vals : list JValue) :
  forall total count,
    (exists r, FactCheckerAgent.conf_loop vals total count = Ok r)
    <-> Forall convertible vals.
Proof.
  induction vals as [| v vals IH]; intros total count.
  - split; [constructor | eexists; reflexivity].
  - cbn [FactCheckerAgent.conf_loop]. split.
    + intros [r Hr].
      destruct v as [| b | z | m e | s | l | d]; cbn [py_get] in Hr;
        try discriminate Hr.
      destruct (py_number (dict_get d "confidence" (JInt 0))) as [n |] eqn:Hn;
        [| discriminate Hr].
      unfold py_mul_float in Hr.
      destruct (to_float n) as [x |] eqn:Hx; [| discriminate Hr].
      constructor.
      * exists d. split; [reflexivity |]. apply in_float_range_iff.
        exists n, x. split; [exact Hn | exact Hx].
      * eapply IH. exists r. exact Hr.
    + intros H. inversion H as [| ? ? (d & -> & Hd) Hrest]; subst.
      apply in_float_range_iff in Hd. destruct Hd as (n & x & Hn & Hx).
      cbn [py_get]. rewrite Hn. unfold py_mul_float. rewrite Hx.
      apply IH. exact Hrest.
Qed.

(** The aggregator of the fact checker returns a number exactly when every
    entry is a dict whose confidence (0 when the key is missing) is a
    float, a bool, or an int below [2^1024 - 2^970] in absolute value. On
    any other mapping it raises: [AttributeError] for an entry that is not
    a dict, [TypeError] for a confidence that is not a number, and
    [OverflowError] for an int that does not convert to a float. *)
Theorem fact_checker_confidence_returns_iff (vc : dict JValue) :
  is_ok (FactCheckerAgent.calculate_overall_confidence vc) = true
  <-> Forall convertible (dict_values vc).
Proof.
  unfold FactCheckerAgent.calculate_overall_confidence.
  destruct vc as [| kv vc]; [split; [constructor | reflexivity] |].
  rewrite <- (fact_checker_loop_returns_iff (dict_values (kv :: vc)) 0 0).
  destruct (FactCheckerAgent.conf_loop (dict_values (kv :: vc)) 0 0)
    as [[total count] | e].
  - split; [intros _; eexists; reflexivity |].
    intros _. destruct (0 <? count)%nat; reflexivity.
  - split; [discriminate | intros [r Hr]; discriminate Hr].
Qed.

Lemma final_answer_loop_usable (items : dict JValue) :
  forall total valid r,
    FinalAnswerAgent.conf_loop items total valid = Ok r ->
    Forall usable (dict_values items).
Proof.
  induction items as [| [k v] items IH]; intros total valid r Hr.
  - constructor.
  - cbn [FinalAnswerAgent.conf_loop dict_values map snd] in Hr |- *.
    destruct v as [| b | z | m e | s | l | d]; cbn [py_get] in Hr;
      try discriminate Hr.
    fold (aggregator_status d) in Hr.
    rewrite known_status_cases in Hr.
    constructor.
    + exists d. split; [reflexivity |]. intros Hs.
      destruct (py_eq_str (aggregator_status d) "SUPPORTED").
      * destruct (py_num (dict_get d "confidence" (JInt 0))) as [c |];
          [eexists; reflexivity | discriminate Hr].
      * cbn [orb] in Hs. rewrite Hs in Hr.
        destruct (py_num (dict_get d "confidence" (JInt 0))) as [c |];
          [eexists; reflexivity | discriminate Hr].
    + destruct (py_eq_str (aggregator_status d) "SUPPORTED");
        [| destruct (py_eq_str (aggregator_status d) "PARTIALLY_SUPPORTED");
           [| destruct (py_eq_str (aggregator_status d) "NOT_SUPPORTED");
              [| destruct (py_eq_str (aggregator_status d) "CONTRADICTED")]]];
        try (destruct (py_num (dict_get d "confidence" (JInt 0))) as [c |];
             [| discriminate Hr]);
        eapply IH; exact Hr.
Qed.

(** When the aggregator of the final answer returns, every entry is a dict
    whose confidence is a number wherever the status is SUPPORTED or
    PARTIALLY_SUPPORTED (no arithmetic is done on the confidence of the
    other entries, which may be anything), and the value returned is not
    above 100. *)
Theorem final_answer_confidence_needs_usable (vc : dict JValue) (r : Q) :
  FinalAnswerAgent.calculate_overall_confidence vc = Ok r ->
  Forall usable (dict_values vc) /\ r <= 100.
Proof.
  unfold FinalAnswerAgent.calculate_overall_confidence.
  destruct vc as [| kv vc].
  - intros [= <-]. split; [constructor | discriminate].
  - destruct (FinalAnswerAgent.conf_loop (kv :: vc) 0 0) as [[total valid] | e] eqn:E;
      [| discriminate].
    intros Hr. split; [exact (final_answer_loop_usable _ _ _ _ E) |].
    destruct (valid =? 0)%nat.
    + injection Hr as <-. discriminate.
    + injection Hr as <-. unfold py_min100.
      destruct (Qle_bool 100 (py_round2 (total / inject_Z (Z.of_nat valid))))
        eqn:E'; [apply Qle_refl |].
      apply Qlt_le_weak, Qnot_le_lt. intros Hle.
      apply Qle_bool_iff in Hle. rewrite Hle in E'. discriminate E'.
Qed.

Lemma final_answer_confidence_needs_usable_witness :
  let vc := [ ("Workflow 789 failed to start",
               verification "SUPPORTED" 90 "kb-1" "stated");
              ("The trigger needs a valid API key",
               JObj [ ("verification_status", JStr "NOT_SUPPORTED");
                      ("confidence", JStr "low") ]) ] in
  exists r,
    FinalAnswerAgent.calculate_overall_confidence vc = Ok r
    /\ Forall usable (dict_values vc) /\ r <= 100.
Proof.
  intros vc. eexists. split; [reflexivity |].
  apply (final_answer_confidence_needs_usable vc). reflexivity.
Defined.

Lemma final_answer_loop_unsupported (items : dict JValue) :
  Forall unsupported (dict_values items) ->
  forall total valid, exists valid',
    FinalAnswerAgent.conf_loop items total valid = Ok (total, valid').
Proof.
  induction items as [| [k v] items IH]; intros H total valid.
  - eexists. reflexivity.
  - inversion H as [| ? ? (d & -> & H1 & H2) Hrest]; subst.
    cbn [FinalAnswerAgent.conf_loop py_get]. fold (aggregator_status d).
    rewrite H1, H2.
    destruct (FinalAnswerAgent.known_status (aggregator_status d)); apply IH, Hrest.
Qed.

Lemma py_round2_zero (q : Q) : q == 0 -> py_round2 q == 0.
Proof.
  intros Hq. unfold py_round2.
  assert (Hz : round_half_even (q * 100) = 0%Z).
  { assert (H0 : q * 100 == inject_Z 0) by (rewrite Hq; reflexivity).
    pose proof (round_half_even_le_Z (q * 100) 0) as Hle.
    pose proof (round_half_even_ge_Z (q * 100) 0) as Hge.
    assert (q * 100 <= inject_Z 0) by (rewrite H0; apply Qle_refl).
    assert (inject_Z 0 <= q * 100) by (rewrite H0; apply Qle_refl).
    specialize (Hle ltac:(assumption)). specialize (Hge ltac:(assumption)). lia. }
  rewrite Hz. reflexivity.
Qed.

(** The confidence of the final answer is 0 whenever no entry is SUPPORTED
    or PARTIALLY_SUPPORTED, whatever confidences the entries carry. *)
Theorem final_answer_confidence_zero_without_support (vc : dict JValue) :
  Forall unsupported (dict_values vc) ->
  exists r, FinalAnswerAgent.calculate_overall_confidence vc = Ok r /\ r == 0.
Proof.
  intros H. unfold FinalAnswerAgent.calculate_overall_confidence.
  destruct vc as [| kv vc]; [exists 0; split; reflexivity |].
  destruct (final_answer_loop_unsupported (kv :: vc) H 0 0) as [valid' ->].
  destruct (valid' =? 0)%nat; [exists 0; split; reflexivity |].
  eexists. split; [reflexivity |].
  assert (Hr : py_round2 (0 / inject_Z (Z.of_nat valid')) == 0).
  { apply py_round2_zero. unfold Qdiv. apply Qmult_0_l. }
  rewrite (py_min100_range _); [exact Hr | |]; rewrite Hr; discriminate.
Qed.

Lemma final_answer_confidence_zero_without_support_witness :
  let vc := [ ("Workflow 789 failed to start",
               verification "NOT_SUPPORTED" 80 "none" "no evidence");
              ("The trigger needs a valid API key",
               verification "CONTRADICTED" 95 "kb-2" "the key is optional") ] in
  Forall unsupported (dict_values vc)
  /\ exists r, FinalAnswerAgent.calculate_overall_confidence vc = Ok r /\ r == 0.
Proof.
  intros vc.
  assert (H : Forall unsupported (dict_values vc)).
  { repeat constructor; eexists; (split; [reflexivity | split; reflexivity]). }
  split; [exact H |].
  exact (final_answer_confidence_zero_without_support vc H).
Defined.

(** ** A run without documents *)

Lemma final_answer_confidence_zero_without_support_aux (vc : dict JValue) :
  Forall synthetic (dict_values vc) ->
  exists r, FinalAnswerAgent.calculate_overall_confidence vc = Ok r /\ r == 0.
Proof.
  intros H. unfold FinalAnswerAgent.calculate_overall_confidence.
  destruct vc as [| kv vc]; [exists 0; split; reflexivity |].
  assert (Hu : Forall unsupported (dict_values (kv :: vc))).
  { eapply Forall_impl; [| exact H]. intros v Hv.
    destruct Hv as (ev & ex & ->).
    eexists. split; [reflexivity | split; reflexivity]. }
  destruct (final_answer_loop_unsupported (kv :: vc) Hu 0 0) as [valid' ->].
  destruct (valid' =? 0)%nat; [exists 0; split; reflexivity |].
  eexists. split; [reflexivity |].
  assert (Hr : py_round2 (0 / inject_Z (Z.of_nat valid')) == 0).
  { apply py_round2_zero. unfold Qdiv. apply Qmult_0_l. }
  rewrite (py_min100_range _); [exact Hr | |]; rewrite Hr; discriminate.
Qed.

Lemma invoke_stage_ok (env : Env) (fuel : nat) (n next : Node)
      (st : ResearchState) (out : NodeOut) (ev : list Event)
      (done : list Node) (evs : list Event) :
  In (n, next) (firstn 6 edges) ->
  node_function env n st = (out, ev) ->
  error_set (out_state out) = false ->
  invoke_from env (S fuel) [n] st done evs
  = invoke_from env fuel [next] (out_state out) (done ++ [n])%list (evs ++ ev)%list.
Proof.
  intros Hin Hnode Herr.
  rewrite invoke_step, Hnode. cbn [fst snd].
  rewrite (triggered_stage n next _ Hin), Herr. reflexivity.
Qed.

Lemma dict_set_values_all {V} (P : V -> Prop) (k : string) (v : V) (d : dict V) :
  P v -> Forall P (dict_values d) -> Forall P (dict_values (dict_set k v d)).
Proof.
  intros Hv. induction d as [| [k' v'] d IH]; intros H; cbn [dict_set].
  - repeat constructor. exact Hv.
  - inversion H as [| ? ? Hv' Hd]; subst.
    destruct (String.eqb k k'); constructor; auto.
Qed.

Lemma fold_dict_set_values_all {V} (P : V -> Prop) (v : V) (keys : list string) :
  P v ->
  forall acc,
    Forall P (dict_values acc) ->
    Forall P (dict_values (fold_left (fun d key => dict_set key v d) keys acc)).
Proof.
  intros Hv. induction keys as [| k keys IH]; intros acc H; [exact H |].
  cbn [fold_left]. apply IH, dict_set_values_all; assumption.
Qed.

Lemma synthetic_unsupported (v : JValue) : synthetic v -> unsupported v.
Proof.
  intros (ev & ex & ->). eexists. split; [reflexivity | split; reflexivity].
Qed.

(** The first loop of [generate_final_answer] on entries that are all the
    synthetic record: every claim goes to the NOT_SUPPORTED list. *)
Lemma tally_synthetic (items : dict JValue) :
  Forall synthetic (dict_values items) ->
  forall t,
    FinalAnswerAgent.tally items t
    = Ok (FinalAnswerAgent.mkTally
            (FinalAnswerAgent.supported_claims t)
            (FinalAnswerAgent.partially_supported_claims t)
            (FinalAnswerAgent.not_supported_claims t
             ++ map (fun kv => FinalAnswerAgent.actual_claim (fst kv)) items)
            (FinalAnswerAgent.contradicted_claims t)).
Proof.
  induction items as [| [k v] items IH]; intros H t.
  - cbn. rewrite List.app_nil_r. destruct t; reflexivity.
  - inversion H as [| ? ? (ev & ex & ->) Hrest]; subst.
    cbn [FinalAnswerAgent.tally]. unfold verification. cbn [py_get].
    change (dict_get _ "verification_status" (JStr "UNKNOWN"))
      with (JStr "NOT_SUPPORTED").
    change (py_eq_str (JStr "NOT_SUPPORTED") "SUPPORTED") with false.
    change (py_eq_str (JStr "NOT_SUPPORTED") "PARTIALLY_SUPPORTED") with false.
    change (py_eq_str (JStr "NOT_SUPPORTED") "NOT_SUPPORTED") with true.
    cbv iota. rewrite (IH Hrest). cbn [FinalAnswerAgent.supported_claims
      FinalAnswerAgent.partially_supported_claims
      FinalAnswerAgent.not_supported_claims FinalAnswerAgent.contradicted_claims
      map fst].
    rewrite <- List.app_assoc. reflexivity.
Qed.

Lemma extract_claims_one_call (env : Env) (answer_text : string) :
  strip answer_text <> "" ->
  snd (ClaimExtractor.extract_claims env answer_text) = [EvClaims answer_text].
Proof.
  intros H. unfold ClaimExtractor.extract_claims, call.
  assert (H1 : String.eqb (strip answer_text) "" = false)
    by (apply String.eqb_neq; exact H).
  assert (H2 : String.eqb answer_text "" = false).
  { apply String.eqb_neq. intros ->. apply H. reflexivity. }
  rewrite H1, H2. cbn [orb].
  destruct (claim_model env answer_text); reflexivity.
Qed.

(** When the search finds nothing (it returns no document, or it raises),
    the run completes without error: the cross-encoder, the reasoning model
    and the fact model are never called, the draft is the fixed sentence,
    every claim extracted from it is recorded as not supported, and the
    final answer has confidence 0, no source, and a breakdown that puts
    every claim under [not_supported]. *)
Theorem run_without_documents (env : Env) (query text : string) :
  qu_llm env query = Ok text ->
  (forall d docs, search env (strip text) 5 <> Ok (d :: docs)) ->
  let r := run_research_pipeline env query in
  exists st fa p,
    outcome r = Completed st
    /\ executed r = stage_order
    /\ events r = [ EvRefine query; EvSearch (strip text) 5;
                    EvClaims no_documents; EvFinal p ]
    /\ fp_positive p = false
    /\ error_set st = false
    /\ draft_answer st = no_documents
    /\ Forall synthetic (dict_values (verified_claims st))
    /\ final_answer st = Some fa
    /\ confidence_score fa == 0
    /\ verified_sources fa = []
    /\ claim_breakdown fa
       = Some (mkBreakdown 0 0 (List.length (verified_claims st)) 0).
Proof.
  intros Hq Hsearch. cbv zeta.
  set (st0 := initial_state query).
  set (st1 := with_refined_query st0 (strip text)).
  set (st2 := with_retrieved_docs st1 []).
  set (st3 := with_reranked_docs st2 []).
  set (st4 := with_draft_answer st3 no_documents).
  set (claims := fst (ClaimExtractor.extract_claims env no_documents)).
  set (st5 := with_extracted_claims st4 claims).
  set (vc := fold_left (fun d claim => dict_set claim no_documents_entry d) claims []).
  set (st6 := with_verified_claims st5 vc).
  assert (N1 : node_function env query_understanding st0
               = (Copy st1, [EvRefine query])).
  { cbn [node_function].
    unfold query_understanding_node, reformulate_query, bind, call, ret.
    cbn [st0 initial_state original_query]. rewrite Hq. reflexivity. }
  assert (N2 : node_function env retrieval st1
               = (Copy st2, [EvSearch (strip text) 5])).
  { cbn [node_function]. unfold retrieval_node, run_retriever, call.
    change (query_of st1) with (strip text).
    destruct (search env (strip text) 5) as [[| d docs] | e];
      [reflexivity | exfalso; exact (Hsearch d docs eq_refl) | reflexivity]. }
  assert (N3 : node_function env reranking st2 = (Copy st3, [])) by reflexivity.
  assert (N4 : node_function env reasoning st3 = (InPlace st4, [])) by reflexivity.
  assert (N5 : node_function env claim_extraction st4
               = (Copy st5, [EvClaims no_documents])).
  { cbn [node_function]. unfold claim_extraction_node.
    change (draft_answer st4) with no_documents.
    pose proof (extract_claims_one_call env no_documents ltac:(discriminate)) as Hev.
    subst st5 claims.
    destruct (ClaimExtractor.extract_claims env no_documents) as [cl ev].
    cbn [fst snd] in *. rewrite Hev. reflexivity. }
  assert (N6 : node_function env fact_checking st5 = (Copy st6, [])) by reflexivity.
  assert (Hsyn : Forall synthetic (dict_values vc)).
  { apply fold_dict_set_values_all; [apply synthetic_no_documents | constructor]. }
  destruct (final_answer_confidence_zero_without_support_aux vc Hsyn) as (c & Hc & Hc0).
  set (b := mkBreakdown 0 0 (List.length vc) 0).
  set (p := mkFinalPrompt false query 0 0 (List.length vc) 0 "" c).
  assert (N7 : exists fa,
             node_function env final_answer_agent st6
             = (Copy (with_final_answer st6 fa), [EvFinal p])
             /\ confidence_score fa = c /\ verified_sources fa = []
             /\ claim_breakdown fa = Some b).
  { cbn [node_function].
    unfold final_answer_node, FinalAnswerAgent.generate_final_answer, bind, lift.
    change (verified_claims st6) with vc.
    change (original_query st6) with query.
    change (match reranked_docs st6 with
            | [] => retrieved_docs st6
            | _ :: _ => reranked_docs st6
            end) with (@nil Document).
    rewrite (tally_synthetic vc Hsyn). rewrite Hc.
    cbn [FinalAnswerAgent.sources_loop FinalAnswerAgent.breakdown_of
         FinalAnswerAgent.supported_claims
         FinalAnswerAgent.partially_supported_claims
         FinalAnswerAgent.not_supported_claims
         FinalAnswerAgent.contradicted_claims app List.length
         supported partially_supported not_supported contradicted
         String.concat Nat.ltb Nat.leb].
    rewrite List.length_map. fold b. fold p.
    unfold try_except, call, ret, bind.
    destruct (final_model env p) as [response | e]; cbn;
      eexists; (split; [reflexivity |]); repeat split;
      cbn; unfold FinalAnswerAgent.breakdown_of; cbn;
      rewrite List.length_map; reflexivity. }
  destruct N7 as (fa & N7 & Hfc & Hfs & Hfb).
  exists (with_final_answer st6 fa), fa, p.
  unfold run_research_pipeline, invoke. fold st0.
  rewrite (invoke_stage_ok env 24 query_understanding retrieval st0 _ _ [] []
             ltac:(cbn; tauto) N1 eq_refl).
  rewrite (invoke_stage_ok env 23 retrieval reranking st1 _ _ _ _
             ltac:(cbn; tauto) N2 eq_refl).
  rewrite (invoke_stage_ok env 22 reranking reasoning st2 _ _ _ _
             ltac:(cbn; tauto) N3 eq_refl).
  rewrite (invoke_stage_ok env 21 reasoning claim_extraction st3 _ _ _ _
             ltac:(cbn; tauto) N4 eq_refl).
  rewrite (invoke_stage_ok env 20 claim_extraction fact_checking st4 _ _ _ _
             ltac:(cbn; tauto) N5 eq_refl).
  rewrite (invoke_stage_ok env 19 fact_checking final_answer_agent st5 _ _ _ _
             ltac:(cbn; tauto) N6 eq_refl).
  cbn [out_state]. rewrite invoke_step, N7. cbn [fst snd out_state].
  rewrite triggered_final_answer, invoke_end.
  cbn [outcome executed events app].
  split; [reflexivity |]. split; [reflexivity |]. split; [reflexivity |].
  split; [reflexivity |]. split; [reflexivity |]. split; [reflexivity |].
  split; [exact Hsyn |]. split; [reflexivity |].
  split; [rewrite Hfc; exact Hc0 |]. split; [exact Hfs | exact Hfb].
Qed.

Lemma run_without_documents_witness :
  qu_llm MoreExamples.env_search_down "workflow 789"
  = Ok "Why did workflow 789 not start?"
  /\ exists st,
       outcome (run_research_pipeline MoreExamples.env_search_down "workflow 789")
       = Completed st
       /\ draft_answer st = no_documents.
Proof.
  split; [reflexivity |].
  destruct (run_without_documents
              MoreExamples.env_search_down "workflow 789"
              "Why did workflow 789 not start?" eq_refl
              ltac:(intros d docs H; discriminate H))
    as (st & fa & p & H1 & _ & _ & _ & _ & H6 & _).
  exists st. split; [exact H1 | exact H6].
Defined.

(** ** What the parsers can return *)









(** ** Texts without brackets *)

Lemma all_chars_lstrip (p : ascii -> bool) (s : string) :
  all_chars p s = true -> all_chars p (lstrip s) = true.
Proof.
  induction s as [| c s IH]; cbn [lstrip all_chars]; [reflexivity |].
  intros H. destruct (is_space c); [| exact H].
  apply andb_prop in H. apply IH, H.
Qed.

Lemma all_chars_rstrip (p : ascii -> bool) (s : string) :
  all_chars p s = true -> all_chars p (rstrip s) = true.
Proof.
  induction s as [| c s IH]; cbn [rstrip all_chars]; [reflexivity |].
  intros H. apply andb_prop in H. destruct H as [Hc Hs]. specialize (IH Hs).
  destruct (rstrip s) as [| a r].
  - destruct (is_space c); cbn [all_chars]; [reflexivity |].
    rewrite Hc. reflexivity.
  - cbn [all_chars] in IH |- *. rewrite Hc. exact IH.
Qed.

Lemma all_chars_drop (p : ascii -> bool) (n : nat) (s : string) :
  all_chars p s = true -> all_chars p (drop n s) = true.
Proof.
  revert s. induction n as [| n IH]; intros s H; [destruct s; exact H |].
  destruct s as [| c s]; [reflexivity |].
  cbn [drop]. cbn [all_chars] in H. apply andb_prop in H. apply IH, H.
Qed.

Lemma all_chars_re_sub (p : ascii -> bool) (m : matcher) (repl : string) :
  (forall s rest, m s = Some rest -> all_chars p s = true ->
                  all_chars p rest = true) ->
  all_chars p repl = true ->
  forall s, all_chars p s = true -> all_chars p (re_sub m repl s) = true.
Proof.
  intros Hm Hrepl s. unfold re_sub. generalize (S (String.length s)) as fuel.
  intros fuel. revert s. induction fuel as [| fuel IH]; intros s H; [exact H |].
  cbn [re_sub_fuel]. destruct (m s) as [rest |] eqn:E.
  - rewrite all_chars_append, Hrepl. apply IH. exact (Hm s rest E H).
  - destruct s as [| c s]; [reflexivity |].
    cbn [all_chars] in H |- *. apply andb_prop in H. destruct H as [Hc Hs].
    rewrite Hc. apply IH, Hs.
Qed.

Lemma all_chars_lit_spaces (p : ascii -> bool) (lit s rest : string) :
  lit_spaces lit s = Some rest -> all_chars p s = true -> all_chars p rest = true.
Proof.
  unfold lit_spaces. destruct (prefix lit s); [| discriminate].
  intros [= <-] H. apply all_chars_lstrip, all_chars_drop, H.
Qed.

Lemma all_chars_cleaned (p : ascii -> bool) (text : string) :
  all_chars p text = true ->
  all_chars p (strip (re_sub fence "" (re_sub fence_json "" text))) = true.
Proof.
  intros H. unfold strip. apply all_chars_rstrip, all_chars_lstrip.
  apply all_chars_re_sub; [apply all_chars_lit_spaces | reflexivity |].
  apply all_chars_re_sub; [apply all_chars_lit_spaces | reflexivity | exact H].
Qed.

Lemma search_span_lacks (open close : ascii) (s : string) :
  lacks open s = true -> search_span open close s = None.
Proof.
  intros H. unfold search_span.
  assert (Hf : from_first open s = None).
  { induction s as [| a s IH]; [reflexivity |].
    unfold lacks in H. cbn [all_chars] in H. apply andb_prop in H.
    destruct H as [Ha Hs]. cbn [from_first].
    destruct (Ascii.eqb a open); [discriminate Ha | apply IH, Hs]. }
  rewrite Hf. reflexivity.
Qed.

(** A response without an opening brace is not decoded: the parser of the
    fact checker returns its fallback record and the parser of the final
    answer agent the empty dict; without an opening square bracket either,
    the parser of the claim extractor returns [None]. *)
Theorem parsers_without_brackets (text : string) :
  lacks "{" text = true ->
  FactCheckerAgent.extract_json_from_text text = FactCheckerAgent.parse_failed
  /\ FinalAnswerParser.extract_json_from_text text = JObj []
  /\ (lacks "[" text = true -> ClaimExtractor.extract_json_from_text text = JNull).
Proof.
  intros H.
  pose proof (search_span_lacks "{" "}" _ (all_chars_cleaned _ text H)) as Hb.
  unfold FactCheckerAgent.extract_json_from_text,
    FinalAnswerParser.extract_json_from_text,
    ClaimExtractor.extract_json_from_text. cbv zeta. rewrite Hb.
  split; [reflexivity |]. split; [reflexivity |].
  intros H'.
  rewrite (search_span_lacks "[" "]" _ (all_chars_cleaned _ text H')).
  reflexivity.
Qed.

Lemma parsers_without_brackets_witness :
  lacks "{" "I could not verify any of the claims." = true
  /\ FactCheckerAgent.extract_json_from_text "I could not verify any of the claims."
     = FactCheckerAgent.parse_failed.
Proof.
  split; [reflexivity |].
  exact (proj1 (parsers_without_brackets
                  "I could not verify any of the claims." eq_refl)).
Defined.

(** ** The claims of a model that answers with a JSON list *)

Lemma claim_parser_recovers_array (w : Wrapping) (ta to : bool) (v : JValue) :
  wf_value v ->
  strings_free_of fence v ->
  (has_trailing_comma ta to v = true ->
   strings_free_of (comma_before "]") v /\ strings_free_of (comma_before "}") v) ->
  is_array v ->
  ClaimExtractor.extract_json_from_text (wrap w (render ta to v)) = v.
Proof.
  intros Hwf Hfence Hcomma Hv.
  destruct (loads_or_repair ta to v Hwf Hcomma) as (H1 & H2 & _).
  unfold ClaimExtractor.extract_json_from_text. cbv zeta.
  rewrite (unwrap_render w ta to v Hfence (or_introl Hv)).
  assert (Hspan : search_span "[" "]" (render ta to v) = Some (render ta to v)).
  { destruct Hv as [l ->]. destruct (render_array_shape ta to l) as (x & Hx).
    rewrite Hx. apply search_span_whole. }
  rewrite Hspan, H1.
  destruct (has_trailing_comma ta to v); [rewrite H2 |]; reflexivity.
Qed.

Lemma json_loads_backtick (t : string) : json_loads (String "`" t) = None.
Proof.
  unfold json_loads.
  change (skip_jws (String "`" t)) with (String "`" t).
  replace (2 * String.length (String "`" t) + 2)%nat
    with (S (2 * String.length t + 3))%nat by (cbn [String.length]; lia).
  reflexivity.
Qed.

Lemma wf_value_strs (l : list string) : wf_value (JArr (map JStr l)).
Proof. cbn [wf_value]. induction l; cbn; auto. Qed.

Lemma has_trailing_comma_strs (ta to : bool) (l : list string) :
  has_trailing_comma ta to (JArr (map JStr l)) = true -> ta = true.
Proof.
  cbn [has_trailing_comma].
  assert (H : existsb (has_trailing_comma ta to) (map JStr l) = false)
    by (induction l; [reflexivity | exact IHl]).
  rewrite H, orb_false_r. destruct ta; [reflexivity | discriminate].
Qed.

Lemma filter_claims_strs (l : list string) :
  ClaimExtractor.filter_claims (map JStr l)
  = filter (fun s => (10 <? String.length (strip s))%nat) l.
Proof.
  induction l as [| c l IH]; [reflexivity |].
  cbn [map ClaimExtractor.filter_claims ClaimExtractor.keep_claim filter].
  destruct (String.eqb c "") eqn:E.
  - apply String.eqb_eq in E. subst c. cbn. exact IH.
  - cbn [negb andb].
    destruct (10 <? String.length (strip c))%nat; rewrite IH; reflexivity.
Qed.

(** When the claim model answers with a JSON list of strings, bare or in a
    code fence, with or without a comma before the closing bracket,
    [extract_claims] returns the strings of the list that have more than 10
    characters after stripping, in the order of the list, and has called the
    model once. *)
Theorem extract_claims_reads_json_list
        (env : Env) (answer_text : string) (w : Wrapping) (ta : bool)
        (l : list string) :
  strip answer_text <> "" ->
  claim_model env answer_text
  = Ok (wrap w (render ta false (JArr (map JStr l)))) ->
  strings_free_of fence (JArr (map JStr l)) ->
  (ta = true ->
   strings_free_of (comma_before "]") (JArr (map JStr l))
   /\ strings_free_of (comma_before "}") (JArr (map JStr l))) ->
  ClaimExtractor.extract_claims env answer_text
  = (filter (fun s => (10 <? String.length (strip s))%nat) l,
     [EvClaims answer_text]).
Proof.
  intros Hblank Hmodel Hfence Hcomma.
  set (v := JArr (map JStr l)) in *.
  set (response := wrap w (render ta false v)) in *.
  assert (Hparsed : match json_loads response with
                    | Some v' => v'
                    | None => ClaimExtractor.extract_json_from_text response
                    end = v).
  { assert (Hce : ClaimExtractor.extract_json_from_text response = v).
    { apply claim_parser_recovers_array;
        [apply wf_value_strs | exact Hfence | | eexists; reflexivity].
      intros H. apply Hcomma. exact (has_trailing_comma_strs ta false l H). }
    destruct w; subst response; cbn [wrap] in *.
    - rewrite (json_loads_render ta false v (wf_value_strs l)).
      destruct (has_trailing_comma ta false v); [exact Hce | reflexivity].
    - change (backticks ++ nl ++ render ta false v ++ nl ++ backticks)
        with (String "`" ("``" ++ nl ++ render ta false v ++ nl ++ backticks)) in *.
      rewrite json_loads_backtick. exact Hce.
    - change (backticks ++ "json" ++ nl ++ render ta false v ++ nl ++ backticks)
        with (String "`" ("``json" ++ nl ++ render ta false v ++ nl ++ backticks))
        in *.
      rewrite json_loads_backtick. exact Hce. }
  unfold ClaimExtractor.extract_claims, call.
  assert (H1 : String.eqb (strip answer_text) "" = false)
    by (apply String.eqb_neq; exact Hblank).
  assert (H2 : String.eqb answer_text "" = false).
  { apply String.eqb_neq. intros ->. apply Hblank. reflexivity. }
  rewrite H1, H2, Hmodel. cbn [orb]. fold response. rewrite Hparsed.
  destruct l as [| c l'].
  - (* the empty list is falsy: the sentences of the response are tried *)
    subst response v. cbn [map].
    destruct w, ta; vm_compute; reflexivity.
  - subst v. cbn [py_truthy map negb]. cbv iota.
    rewrite <- (filter_claims_strs (c :: l')). reflexivity.
Qed.

Lemma extract_claims_reads_json_list_witness :
  ClaimExtractor.extract_claims Examples.env_unknown_status
                                "Workflow 789 failed to start."
  = (["Workflow 789 failed to start"], [EvClaims "Workflow 789 failed to start."]).
Proof.
  apply (extract_claims_reads_json_list
           Examples.env_unknown_status "Workflow 789 failed to start."
           Bare false ["Workflow 789 failed to start"]).
  - discriminate.
  - reflexivity.
  - repeat constructor.
  - discriminate.
Defined.

(** ** The Rerank stage and the number of scores *)

Lemma assign_scores_mismatch (docs : list Document) :
  forall scores,
    List.length scores <> List.length docs ->
    match RerankerAgent.assign_scores (convert_docs_to_reranker_format docs) scores with
    | Ok r => exists e, RerankerAgent.sort_keys r = Raise e
    | Raise _ => True
    end.
Proof.
  induction docs as [| d docs IH]; intros [| s scores] Hlen;
    try (exfalso; apply Hlen; reflexivity).
  - exact I.
  - cbn. eexists. reflexivity.
  - change (convert_docs_to_reranker_format (d :: docs))
      with (mkRDoc (page_content d) (doc_metadata d) None
            :: convert_docs_to_reranker_format docs).
    cbn [RerankerAgent.assign_scores].
    assert (Hlen' : List.length scores <> List.length docs)
      by (intros H; apply Hlen; cbn; rewrite H; reflexivity).
    specialize (IH scores Hlen').
    destruct (RerankerAgent.assign_scores _ scores) as [rest | e]; [| exact I].
    destruct IH as [e He]. cbn [RerankerAgent.sort_keys score]. rewrite He.
    eexists. reflexivity.
Qed.

Lemma rerank_mismatch (env : Env) (query : string) (docs : list Document)
      (scores : list Q) (top_k : nat) :
  docs <> [] ->
  predict env (map (fun d => (query, content d))
                   (convert_docs_to_reranker_format docs)) = Ok scores ->
  List.length scores <> List.length docs ->
  exists e ev,
    RerankerAgent.rerank env query (convert_docs_to_reranker_format docs) top_k
    = (Raise e, ev).
Proof.
  intros Hne Hp Hlen. unfold RerankerAgent.rerank.
  destruct docs as [| d docs]; [congruence |].
  change (convert_docs_to_reranker_format (d :: docs))
    with (mkRDoc (page_content d) (doc_metadata d) None
          :: convert_docs_to_reranker_format docs) in *.
  cbv iota. unfold bind, call, lift, ret. rewrite Hp.
  pose proof (assign_scores_mismatch (d :: docs) scores Hlen) as H.
  change (convert_docs_to_reranker_format (d :: docs))
    with (mkRDoc (page_content d) (doc_metadata d) None
          :: convert_docs_to_reranker_format docs) in H.
  destruct (RerankerAgent.assign_scores _ scores) as [r | e].
  - destruct H as [e He]. rewrite He. eexists. eexists. reflexivity.
  - eexists. eexists. reflexivity.
Qed.

(** The Rerank stage records an error exactly when the cross-encoder raises
    or returns a number of scores that is not the number of retrieved
    documents: with too many scores the assignment runs out of documents,
    with too few the sort finds a document without a score. *)
Theorem reranker_node_error_iff (env : Env) (st : ResearchState) :
  retrieved_docs st <> [] -> error_set st = false ->
  (error_set (out_state (fst (reranker_node env st))) = true
   <-> match predict env (score_pairs st) with
       | Ok scores => List.length scores <> List.length (retrieved_docs st)
       | Raise _ => True
       end).
Proof.
  intros Hne Herr. unfold score_pairs.
  destruct (predict env _) as [scores | e] eqn:Hp.
  - destruct (Nat.eq_dec (List.length scores) (List.length (retrieved_docs st)))
      as [Heq | Hneq].
    + pose proof (rerank_scored env (query_of st) (retrieved_docs st) scores 3
                    Hne Hp Heq) as Hr.
      unfold reranker_node.
      destruct (retrieved_docs st) as [| d docs] eqn:Hd; [congruence |].
      rewrite Hr. cbn [fst out_state].
      change (error_set (with_reranked_docs st _)) with (error_set st).
      rewrite Herr. split; [discriminate | intros H; exfalso; exact (H Heq)].
    + destruct (rerank_mismatch env (query_of st) (retrieved_docs st) scores 3
                  Hne Hp Hneq) as (e & ev & Hr).
      unfold reranker_node.
      destruct (retrieved_docs st) as [| d docs] eqn:Hd; [congruence |].
      rewrite Hr. cbn [fst out_state].
      split; [intros _; exact Hneq | intros _].
      apply error_set_with_error. reflexivity.
  - unfold reranker_node, RerankerAgent.rerank.
    destruct (retrieved_docs st) as [| d docs] eqn:Hd; [congruence |].
    change (convert_docs_to_reranker_format (d :: docs))
      with (mkRDoc (page_content d) (doc_metadata d) None
            :: convert_docs_to_reranker_format docs) in *.
    cbv iota. unfold bind, call. rewrite Hp. cbn [fst out_state].
    split; [intros _; exact I | intros _].
    apply error_set_with_error. reflexivity.
Qed.

Lemma reranker_node_error_iff_witness :
  let st := with_retrieved_docs (initial_state "workflow 789")
                                [Examples.doc_a; Examples.doc_b] in
  retrieved_docs st <> []
  /\ predict MoreExamples.env_search_down (score_pairs st) = Ok []
  /\ error_set (out_state (fst (reranker_node MoreExamples.env_search_down st))) = true.
Proof.
  intros st.
  assert (Hne : retrieved_docs st <> []) by discriminate.
  split; [exact Hne |]. split; [reflexivity |].
  apply (proj2 (reranker_node_error_iff MoreExamples.env_search_down st Hne eq_refl)).
  cbn. discriminate.
Defined.

(** ** The sources of the final answer *)

Lemma set_add_In (x y : string) (l : list string) :
  In x (FinalAnswerAgent.set_add y l) <-> x = y \/ In x l.
Proof.
  unfold FinalAnswerAgent.set_add.
  destruct (existsb (String.eqb y) l) eqn:E.
  - split; [auto |]. intros [-> | H]; [| exact H].
    apply existsb_eqb_In. exact E.
  - rewrite in_app_iff. cbn [In]. split.
    + intros [H | [H | []]]; [right; exact H | left; symmetry; exact H].
    + intros [-> | H]; [right; left; reflexivity | left; exact H].
Qed.

Lemma set_add_NoDup (y : string) (l : list string) :
  NoDup l -> NoDup (FinalAnswerAgent.set_add y l).
Proof.
  intros H. unfold FinalAnswerAgent.set_add.
  destruct (existsb (String.eqb y) l) eqn:E; [exact H |].
  apply NoDup_app; [exact H | repeat constructor; intros [] |].
  intros x Hx [<- | []].
  apply existsb_eqb_In in Hx. rewrite Hx in E. discriminate E.
Qed.

Lemma sources_loop_sources (docs : list Document) :
  forall i ctx srcs,
    NoDup srcs ->
    NoDup (snd (FinalAnswerAgent.sources_loop i docs ctx srcs))
    /\ forall s,
         In s (snd (FinalAnswerAgent.sources_loop i docs ctx srcs))
         <-> In s srcs
             \/ exists j doc,
                  nth_error docs j = Some doc
                  /\ s = dict_get (doc_metadata doc) "source"
                                  ("Document " ++ str_of_nat (i + j + 1)).
Proof.
  induction docs as [| d docs IH]; intros i ctx srcs Hnd.
  - cbn [FinalAnswerAgent.sources_loop snd]. split; [exact Hnd |].
    intros s. split; [auto |].
    intros [H | (j & doc & Hj & _)]; [exact H |].
    destruct j; discriminate Hj.
  - cbn [FinalAnswerAgent.sources_loop].
    set (source := dict_get (doc_metadata d) "source"
                            ("Document " ++ str_of_nat (i + 1))).
    destruct (IH (S i)
                 (ctx ++ [("[Source: " ++ source ++ "]" ++ nl
                           ++ page_content d)%string])%list
                 (FinalAnswerAgent.set_add source srcs)
                 (set_add_NoDup _ _ Hnd)) as [H1 H2].
    subst source.
    split; [exact H1 |].
    intros s. rewrite H2, set_add_In. split.
    + intros [[-> | H] | (j & doc & Hj & ->)].
      * right. exists 0%nat, d. split; [reflexivity |].
        rewrite Nat.add_0_r. reflexivity.
      * left. exact H.
      * right. exists (S j), doc. split; [exact Hj |].
        replace (i + S j + 1)%nat with (S i + j + 1)%nat by lia. reflexivity.
    + intros [H | (j & doc & Hj & ->)]; [left; right; exact H |].
      destruct j as [| j].
      * injection Hj as <-. left. left. rewrite Nat.add_0_r. reflexivity.
      * right. exists j, doc. split; [exact Hj |].
        replace (i + S j + 1)%nat with (S i + j + 1)%nat by lia. reflexivity.
Qed.

(** Whenever [generate_final_answer] returns, it has called its model once,
    and the sources it lists are, without repetition, the sources of the
    context documents: the metadata entry ["source"] of each, or
    ["Document n"] for the n-th document when it has none. *)
Theorem final_answer_lists_document_sources
        (env : Env) (original_query : string) (verified_claims : dict JValue)
        (context_docs : list Document) (fa : FinalAnswer) (ev : list Event) :
  FinalAnswerAgent.generate_final_answer env original_query verified_claims
                                         context_docs
  = (Ok fa, ev) ->
  NoDup (verified_sources fa)
  /\ (forall s,
        In s (verified_sources fa)
        <-> exists j doc,
              nth_error context_docs j = Some doc
              /\ s = dict_get (doc_metadata doc) "source"
                              ("Document " ++ str_of_nat (j + 1)))
  /\ (exists p, ev = [EvFinal p]).
Proof.
  unfold FinalAnswerAgent.generate_final_answer, bind, lift, try_except, call, ret.
  destruct (FinalAnswerAgent.tally verified_claims _) as [t | e]; [| discriminate].
  pose proof (sources_loop_sources context_docs 0 [] [] (NoDup_nil _)) as Hs.
  destruct (FinalAnswerAgent.sources_loop 0 context_docs [] []) as [ctx srcs].
  cbn [snd] in Hs. destruct Hs as [Hnd Hin].
  destruct (FinalAnswerAgent.calculate_overall_confidence verified_claims)
    as [c | e]; [| discriminate].
  assert (Hsrc : forall s,
             In s srcs
             <-> exists j doc,
                   nth_error context_docs j = Some doc
                   /\ s = dict_get (doc_metadata doc) "source"
                                   ("Document " ++ str_of_nat (j + 1))).
  { intros s. rewrite Hin. cbn [In Nat.add]. tauto. }
  destruct (final_model env _) as [text | e]; cbn; intros [= <- <-]; cbn;
    (split; [exact Hnd | split; [exact Hsrc | eexists; reflexivity]]).
Qed.

Lemma final_answer_lists_document_sources_witness :
  exists fa ev,
    FinalAnswerAgent.generate_final_answer
      Examples.env_unknown_status "workflow 789"
      [("Workflow 789 failed to start", verification "SUPPORTED" 90 "" "")]
      [Examples.doc_a; Examples.doc_b; Examples.doc_a]
    = (Ok fa, ev)
    /\ NoDup (verified_sources fa).
Proof.
  eexists. eexists. split; [reflexivity |].
  refine (proj1 (final_answer_lists_document_sources
                   Examples.env_unknown_status "workflow 789"
                   [("Workflow 789 failed to start",
                     verification "SUPPORTED" 90 "" "")]
                   [Examples.doc_a; Examples.doc_b; Examples.doc_a] _ _ _)).
  reflexivity.
Defined.

(** ** [normalize_text] *)

Lemma span_append (p : ascii -> bool) (s : string) :
  fst (span p s) ++ snd (span p s) = s.
Proof.
  induction s as [| c s IH]; [reflexivity |].
  cbn [span]. destruct (p c); [| reflexivity].
  destruct (span p s) as [run rest]. cbn [fst snd append] in *.
  rewrite IH. reflexivity.
Qed.

Lemma span_run (p : ascii -> bool) (s : string) :
  all_chars p (fst (span p s)) = true.
Proof.
  induction s as [| c s IH]; [reflexivity |].
  cbn [span]. destruct (p c) eqn:E; [| reflexivity].
  destruct (span p s) as [run rest]. cbn [fst all_chars] in *.
  rewrite E. exact IH.
Qed.

(** What follows the run does not start with a character of the class. *)
Lemma span_rest (p : ascii -> bool) (s : string) :
  run_len p (snd (span p s)) = 0%nat.
Proof.
  unfold run_len. induction s as [| c s IH]; [reflexivity |].
  cbn [span]. destruct (p c) eqn:E.
  - destruct (span p s) as [run rest]. exact IH.
  - cbn [snd span]. rewrite E. reflexivity.
Qed.

Lemma at_least_eq (p : ascii -> bool) (n : nat) (s : string) :
  at_least p n s
  = if (n <=? run_len p s)%nat then Some (snd (span p s)) else None.
Proof.
  unfold at_least, run_len. destruct (span p s) as [run rest]. reflexivity.
Qed.

Lemma run_len_cons (p : ascii -> bool) (c : ascii) (s : string) :
  run_len p (String c s) = if p c then S (run_len p s) else 0%nat.
Proof.
  unfold run_len. cbn [span]. destruct (p c); [| reflexivity].
  destruct (span p s) as [run rest]. reflexivity.
Qed.

Lemma length_span (p : ascii -> bool) (s : string) :
  (String.length (snd (span p s)) + run_len p s = String.length s)%nat.
Proof.
  unfold run_len. rewrite <- (span_append p s) at 3.
  rewrite length_append. lia.
Qed.

Lemma at_least_shrinking (p : ascii -> bool) (n : nat) :
  shrinking (at_least p (S n)).
Proof.
  intros s rest H. rewrite at_least_eq in H.
  destruct (S n <=? run_len p s)%nat eqn:E; [| discriminate H].
  assert (Hrest : rest = snd (span p s)) by congruence.
  rewrite Hrest. apply Nat.leb_le in E.
  pose proof (length_span p s). lia.
Qed.

Lemma literal_shrinking (a : ascii) (lit : string) :
  shrinking (literal (String a lit)).
Proof.
  intros s rest H. unfold literal in H.
  destruct (prefix (String a lit) s) eqn:E; [| discriminate H].
  assert (Hrest : rest = drop (String.length (String a lit)) s) by congruence.
  rewrite Hrest. apply prefix_drop in E.
  assert (Hk : (1 <= String.length (String a lit))%nat) by (cbn [String.length]; lia).
  revert E Hk. generalize (String.length (String a lit)). intros k E Hk. lia.
Qed.

(** A pass without a match changes nothing. *)
Lemma re_sub_no_match (m : matcher) (repl s : string) :
  shrinking m -> occurs m s = false -> re_sub m repl s = s.
Proof.
  intros Hm. induction s as [| c s IH]; intros H.
  - rewrite (re_sub_eq m repl _ Hm). cbn [occurs] in H.
    destruct (m ""); [discriminate H | reflexivity].
  - rewrite (re_sub_eq m repl _ Hm). cbn [occurs] in H.
    destruct (m (String c s)); [discriminate H |].
    rewrite (IH H). reflexivity.
Qed.

Lemma occurs_cons (m : matcher) (c : ascii) (s : string) :
  occurs m (String c s) = false <-> m (String c s) = None /\ occurs m s = false.
Proof.
  cbn [occurs]. destruct (m (String c s)); split.
  - discriminate.
  - intros [H _]. discriminate H.
  - intros H. split; [reflexivity | exact H].
  - intros [_ H]. exact H.
Qed.

Lemma occurs_suffix (m : matcher) (a b : string) :
  occurs m (a ++ b) = false -> occurs m b = false.
Proof.
  induction a as [| c a IH]; [auto |].
  cbn [append]. intros H. apply occurs_cons in H. apply IH, H.
Qed.

Lemma string_length_ind (P : string -> Prop) :
  (forall s, (forall t, (String.length t < String.length s)%nat -> P t) -> P s) ->
  forall s, P s.
Proof.
  intros H s.
  assert (Hlen : forall n t, (String.length t < n)%nat -> P t).
  { induction n as [| n IH]; intros t Ht; [lia |].
    apply H. intros u Hu. apply IH. lia. }
  apply (Hlen (S (String.length s))). lia.
Qed.

Lemma at_least_none (p : ascii -> bool) (n : nat) (s : string) :
  at_least p n s = None <-> (run_len p s < n)%nat.
Proof.
  rewrite at_least_eq. destruct (n <=? run_len p s)%nat eqn:E.
  - apply Nat.leb_le in E. split; [discriminate | lia].
  - apply Nat.leb_gt in E. split; [intros _; exact E | reflexivity].
Qed.

Lemma run_len_run (p : ascii -> bool) (u x : string) :
  all_chars p u = true ->
  run_len p (u ++ x) = (String.length u + run_len p x)%nat.
Proof.
  induction u as [| c u IH]; intros H; [reflexivity |].
  cbn [all_chars] in H. apply andb_prop in H. destruct H as [Hc Hu].
  cbn [append String.length]. rewrite run_len_cons, Hc, (IH Hu). reflexivity.
Qed.

Lemma occurs_run (p : ascii -> bool) (n : nat) (u x : string) :
  all_chars p u = true ->
  (String.length u + run_len p x < n)%nat ->
  occurs (at_least p n) x = false ->
  occurs (at_least p n) (u ++ x) = false.
Proof.
  induction u as [| c u IH]; intros Hu Hlen Hx; [exact Hx |].
  cbn [append]. apply occurs_cons. split.
  - apply at_least_none.
    change (String c (u ++ x)) with (String c u ++ x).
    rewrite (run_len_run p _ x Hu). exact Hlen.
  - cbn [all_chars] in Hu. apply andb_prop in Hu.
    apply IH; [apply Hu | cbn [String.length] in Hlen; lia | exact Hx].
Qed.

(** Other characters in front break every run. *)
Lemma occurs_other (q : ascii -> bool) (n : nat) (u x : string) :
  all_chars (fun c => negb (q c)) u = true ->
  occurs (at_least q (S n)) x = false ->
  occurs (at_least q (S n)) (u ++ x) = false.
Proof.
  induction u as [| c u IH]; intros Hu Hx; [exact Hx |].
  cbn [all_chars] in Hu. apply andb_prop in Hu. destruct Hu as [Hc Hu].
  cbn [append]. apply occurs_cons. split; [| apply IH; assumption].
  apply at_least_none. rewrite run_len_cons.
  destruct (q c); [discriminate Hc | lia].
Qed.

Section Collapse.

(** The pass [re.sub("[class]{n+1,}", repl, s)] where [repl] is at most
    [n] characters of the class. *)
Variables (p : ascii -> bool) (n : nat) (repl : string).
Hypothesis repl_run : all_chars p repl = true.
Hypothesis repl_short : (String.length repl <= n)%nat.

Lemma collapse_runs (s : string) :
  occurs (at_least p (S n)) (re_sub (at_least p (S n)) repl s) = false
  /\ run_len p (re_sub (at_least p (S n)) repl s)
     = if (S n <=? run_len p s)%nat then String.length repl else run_len p s.
Proof.
  induction s as [s IH] using string_length_ind.
  rewrite (re_sub_eq _ repl s (at_least_shrinking p n)).
  rewrite at_least_eq.
  destruct (S n <=? run_len p s)%nat eqn:E.
  - (* a run of more than [n]: replaced, and what follows starts outside *)
    apply Nat.leb_le in E.
    assert (Hshort : (String.length (snd (span p s)) < String.length s)%nat)
      by (pose proof (length_span p s); lia).
    destruct (IH _ Hshort) as [H1 H2].
    rewrite (span_rest p s) in H2. cbn [Nat.leb] in H2.
    split.
    + apply occurs_run; [exact repl_run | rewrite H2; lia | exact H1].
    + rewrite (run_len_run p repl _ repl_run), H2. lia.
  - apply Nat.leb_gt in E. destruct s as [| c s]; [split; reflexivity |].
    assert (Hshort : (String.length s < String.length (String c s))%nat)
      by (cbn [String.length]; lia).
    destruct (IH _ Hshort) as [H1 H2].
    rewrite run_len_cons in E.
    assert (Hrun : run_len p (String c (re_sub (at_least p (S n)) repl s))
                   = if p c then S (run_len p s) else 0%nat).
    { rewrite run_len_cons. destruct (p c); [| reflexivity].
      rewrite H2. destruct (S n <=? run_len p s)%nat eqn:E'; [| reflexivity].
      apply Nat.leb_le in E'. lia. }
    split; [| rewrite Hrun, run_len_cons; reflexivity].
    apply occurs_cons. split; [| exact H1].
    apply at_least_none. rewrite Hrun. exact E.
Qed.

End Collapse.

Section OtherRuns.

(** The same pass leaves the runs of a disjoint class [q] as they are. *)
Variables (p q : ascii -> bool) (n : nat) (repl : string).
Hypothesis disjoint : forall c, p c = true -> q c = false.
Hypothesis repl_other : all_chars (fun c => negb (q c)) repl = true.
Hypothesis repl_nonempty : repl <> "".

Lemma match_starts_in_class (s rest : string) :
  at_least p (S n) s = Some rest ->
  exists c r, s = String c r /\ p c = true.
Proof.
  rewrite at_least_eq. destruct (S n <=? run_len p s)%nat eqn:E; [| discriminate].
  apply Nat.leb_le in E. intros _.
  destruct s as [| c r]; [cbn in E; lia |].
  rewrite run_len_cons in E. exists c, r. split; [reflexivity |].
  destruct (p c); [reflexivity | lia].
Qed.

Lemma other_runs_kept (m : nat) (s : string) :
  run_len q (re_sub (at_least p (S n)) repl s) = run_len q s
  /\ (occurs (at_least q (S m)) s = false ->
      occurs (at_least q (S m)) (re_sub (at_least p (S n)) repl s) = false).
Proof.
  induction s as [s IH] using string_length_ind.
  rewrite (re_sub_eq _ repl s (at_least_shrinking p n)).
  destruct (at_least p (S n) s) as [rest |] eqn:E.
  - destruct (match_starts_in_class s rest E) as (c & r & -> & Hc).
    pose proof (at_least_shrinking p n _ _ E) as Hshort.
    destruct (IH _ Hshort) as [H1 H2].
    assert (Hrest : String c r = fst (span p (String c r)) ++ rest).
    { rewrite at_least_eq in E.
      destruct (S n <=? run_len p (String c r))%nat; [| discriminate E].
      injection E as <-. symmetry. apply span_append. }
    split.
    + rewrite run_len_cons, (disjoint c Hc).
      destruct repl as [| c0 r0]; [congruence |].
      cbn [all_chars] in repl_other. apply andb_prop in repl_other.
      cbn [append]. rewrite run_len_cons.
      destruct (q c0); [destruct repl_other; discriminate | reflexivity].
    + intros Hocc. apply occurs_other; [exact repl_other |].
      apply H2. rewrite Hrest in Hocc. exact (occurs_suffix _ _ _ Hocc).
  - destruct s as [| c s]; [split; [reflexivity | auto] |].
    assert (Hshort : (String.length s < String.length (String c s))%nat)
      by (cbn [String.length]; lia).
    destruct (IH _ Hshort) as [H1 H2].
    assert (Hrun : run_len q (String c (re_sub (at_least p (S n)) repl s))
                   = run_len q (String c s))
      by (rewrite !run_len_cons, H1; reflexivity).
    split; [exact Hrun |].
    intros Hocc. apply occurs_cons in Hocc. destruct Hocc as [Hm Hocc].
    apply occurs_cons. split; [| apply H2, Hocc].
    apply at_least_none. rewrite Hrun. apply at_least_none. exact Hm.
Qed.

End OtherRuns.

(** [strip] *)

Lemma lstrip_idem (s : string) : lstrip (lstrip s) = lstrip s.
Proof.
  induction s as [| c s IH]; [reflexivity |].
  cbn [lstrip]. destruct (is_space c) eqn:E; [exact IH |].
  cbn [lstrip]. rewrite E. reflexivity.
Qed.

Lemma lstrip_head (s : string) :
  lstrip s = "" \/ exists c r, lstrip s = String c r /\ is_space c = false.
Proof.
  induction s as [| c s IH]; [left; reflexivity |].
  cbn [lstrip]. destruct (is_space c) eqn:E; [exact IH |].
  right. exists c, s. split; [reflexivity | exact E].
Qed.

Lemma rstrip_cons (c : ascii) (s : string) :
  rstrip (String c s)
  = match rstrip s with
    | EmptyString => if is_space c then EmptyString else String c EmptyString
    | r' => String c r'
    end.
Proof. reflexivity. Qed.

Lemma rstrip_idem (s : string) : rstrip (rstrip s) = rstrip s.
Proof.
  induction s as [| c s IH]; [reflexivity |].
  rewrite rstrip_cons. destruct (rstrip s) as [| a r] eqn:E.
  - destruct (is_space c) eqn:Ec; [reflexivity |].
    cbn [rstrip]. rewrite Ec. reflexivity.
  - rewrite rstrip_cons, IH. reflexivity.
Qed.

Lemma rstrip_keeps_head (c : ascii) (r : string) :
  is_space c = false -> exists r', rstrip (String c r) = String c r'.
Proof.
  intros E. cbn [rstrip]. destruct (rstrip r); [rewrite E |]; eexists; reflexivity.
Qed.

Lemma strip_idem (s : string) : strip (strip s) = strip s.
Proof.
  unfold strip.
  destruct (lstrip_head s) as [-> | (c & r & -> & Hc)]; [reflexivity |].
  destruct (rstrip_keeps_head c r Hc) as [r' Hr]. rewrite Hr.
  cbn [lstrip]. rewrite Hc, <- Hr. apply rstrip_idem.
Qed.

Lemma all_space_lstrip (s : string) :
  all_chars is_space (lstrip s) = all_chars is_space s.
Proof.
  induction s as [| c s IH]; [reflexivity |].
  cbn [lstrip]. destruct (is_space c) eqn:E; [| reflexivity].
  cbn [all_chars]. rewrite E. exact IH.
Qed.

Lemma rstrip_empty_iff (s : string) :
  rstrip s = "" <-> all_chars is_space s = true.
Proof.
  induction s as [| c s IH]; [split; reflexivity |].
  cbn [rstrip all_chars]. destruct (rstrip s) as [| a r].
  - destruct (is_space c); cbn [andb]; [| split; discriminate].
    split; intros _; [apply IH |]; reflexivity.
  - split; [discriminate |]. intros H. apply andb_prop in H.
    destruct H as [_ H]. apply IH in H. discriminate H.
Qed.

Lemma strip_empty_iff (s : string) :
  strip s = "" <-> all_chars is_space s = true.
Proof.
  unfold strip. rewrite rstrip_empty_iff, all_space_lstrip. reflexivity.
Qed.

Lemma lstrip_suffix (s : string) : exists w, s = w ++ lstrip s.
Proof.
  induction s as [| c s IH]; [exists ""; reflexivity |].
  cbn [lstrip]. destruct (is_space c); [| exists ""; reflexivity].
  destruct IH as [w Hw]. exists (String c w). cbn [append]. rewrite <- Hw.
  reflexivity.
Qed.

Lemma rstrip_prefix (s : string) : exists w, s = rstrip s ++ w.
Proof.
  induction s as [| c s IH]; [exists ""; reflexivity |].
  cbn [rstrip]. destruct IH as [w Hw]. destruct (rstrip s) as [| a r].
  - destruct (is_space c).
    + exists (String c s). reflexivity.
    + exists w. cbn [append] in *. rewrite <- Hw. reflexivity.
  - exists w. cbn [append] in *. rewrite <- Hw. reflexivity.
Qed.

Lemma run_len_prefix (p : ascii -> bool) (a b : string) :
  (run_len p a <= run_len p (a ++ b))%nat.
Proof.
  induction a as [| c a IH]; [cbn; lia |].
  cbn [append]. rewrite !run_len_cons. destruct (p c); lia.
Qed.

Lemma occurs_prefix (p : ascii -> bool) (n : nat) (a b : string) :
  occurs (at_least p (S n)) (a ++ b) = false ->
  occurs (at_least p (S n)) a = false.
Proof.
  induction a as [| c a IH]; intros H.
  - cbn [occurs]. rewrite at_least_eq. reflexivity.
  - cbn [append] in H. apply occurs_cons in H. destruct H as [Hm H].
    apply occurs_cons. split; [| apply IH, H].
    apply at_least_none. apply at_least_none in Hm.
    pose proof (run_len_prefix p (String c a) b). cbn [append] in *. lia.
Qed.

Lemma occurs_strip (p : ascii -> bool) (n : nat) (s : string) :
  occurs (at_least p (S n)) s = false ->
  occurs (at_least p (S n)) (strip s) = false.
Proof.
  intros H. unfold strip.
  destruct (lstrip_suffix s) as [w Hw].
  destruct (rstrip_prefix (lstrip s)) as [w' Hw'].
  rewrite Hw in H. apply occurs_suffix in H.
  rewrite Hw' in H. exact (occurs_prefix p n _ _ H).
Qed.

(** The passes of [normalize_text] *)

Lemma prefix_empty (s : string) : prefix "" s = true.
Proof. destruct s; reflexivity. Qed.

Lemma literal_char (c a : ascii) (r : string) :
  literal (String c "") (String a r)
  = if Ascii.eqb a c then Some r else None.
Proof.
  unfold literal. cbn [prefix String.length drop].
  destruct (Ascii.ascii_dec c a) as [-> | Hne].
  - rewrite prefix_empty, Ascii.eqb_refl. reflexivity.
  - destruct (Ascii.eqb a c) eqn:E; [| reflexivity].
    apply Ascii.eqb_eq in E. congruence.
Qed.

Lemma lacks_after_replace (c : ascii) (new s : string) :
  lacks c new = true -> lacks c (str_replace (String c "") new s) = true.
Proof.
  intros Hnew. unfold str_replace.
  induction s as [| a s IH].
  - reflexivity.
  - rewrite (re_sub_eq _ new _ (literal_shrinking c "")), literal_char.
    destruct (Ascii.eqb a c) eqn:E.
    + unfold lacks in *. rewrite all_chars_append, Hnew. exact IH.
    + unfold lacks in *. cbn [all_chars]. rewrite E. exact IH.
Qed.

Lemma all_chars_span_rest (q p : ascii -> bool) (s : string) :
  all_chars q s = true -> all_chars q (snd (span p s)) = true.
Proof.
  intros H. rewrite <- (span_append p s), all_chars_append in H.
  apply andb_prop in H. apply H.
Qed.

Lemma all_chars_at_least (q p : ascii -> bool) (n : nat) (s rest : string) :
  at_least p n s = Some rest -> all_chars q s = true -> all_chars q rest = true.
Proof.
  rewrite at_least_eq. destruct (n <=? run_len p s)%nat; [| discriminate].
  intros [= <-]. apply all_chars_span_rest.
Qed.

Lemma occurs_literal_lacks (c : ascii) (lit s : string) :
  lacks c s = true -> occurs (literal (String c lit)) s = false.
Proof.
  induction s as [| a s IH]; intros H.
  - reflexivity.
  - unfold lacks in H. cbn [all_chars] in H. apply andb_prop in H.
    destruct H as [Ha Hs]. apply occurs_cons. split; [| apply IH, Hs].
    unfold literal. cbn [prefix].
    destruct (Ascii.ascii_dec c a) as [-> | Hne]; [| reflexivity].
    rewrite Ascii.eqb_refl in Ha. discriminate Ha.
Qed.

Lemma blank_not_nl (c : ascii) : is_blank c = true -> is_nl c = false.
Proof. ascii_cases c; intros H; try discriminate H; reflexivity. Qed.

Lemma normalize_text_invariants (s : string) : normalized (LoadDocs.normalize_text s).
Proof.
  unfold LoadDocs.normalize_text. cbv zeta.
  set (t1 := str_replace cr nl (str_replace (cr ++ nl) nl s)).
  set (t2 := re_sub (at_least is_nl 3) (nl ++ nl) t1).
  set (t3 := re_sub (at_least is_blank 2) " " t2).
  assert (H1 : lacks (ascii_of_nat 13) t1 = true)
    by (apply lacks_after_replace; reflexivity).
  assert (H2 : lacks (ascii_of_nat 13) t2 = true).
  { apply all_chars_re_sub; [apply all_chars_at_least | reflexivity | exact H1]. }
  assert (H3 : lacks (ascii_of_nat 13) t3 = true).
  { apply all_chars_re_sub; [apply all_chars_at_least | reflexivity | exact H2]. }
  assert (N2 : occurs (at_least is_nl 3) t2 = false).
  { apply (collapse_runs is_nl 2 (nl ++ nl)); [reflexivity | cbn; lia]. }
  assert (N3 : occurs (at_least is_nl 3) t3 = false).
  { apply (other_runs_kept is_blank is_nl 1 " " blank_not_nl eq_refl
                           ltac:(discriminate) 2 t2). exact N2. }
  assert (B3 : occurs (at_least is_blank 2) t3 = false).
  { apply (collapse_runs is_blank 1 " "); [reflexivity | cbn; lia]. }
  split; [| split; [| split]].
  - unfold strip. apply all_chars_rstrip, all_chars_lstrip, H3.
  - apply occurs_strip, N3.
  - apply occurs_strip, B3.
  - apply strip_idem.
Qed.

Lemma normalize_text_fixed (s : string) :
  normalized s -> LoadDocs.normalize_text s = s.
Proof.
  intros (Hcr & Hnl & Hbl & Hstrip).
  unfold LoadDocs.normalize_text, str_replace. cbv zeta.
  rewrite (re_sub_no_match (literal (cr ++ nl)) nl s
             (literal_shrinking _ _) (occurs_literal_lacks _ _ s Hcr)).
  rewrite (re_sub_no_match (literal cr) nl s
             (literal_shrinking _ _) (occurs_literal_lacks _ _ s Hcr)).
  rewrite (re_sub_no_match _ (nl ++ nl) s (at_least_shrinking is_nl 2) Hnl).
  rewrite (re_sub_no_match _ " " s (at_least_shrinking is_blank 1) Hbl).
  exact Hstrip.
Qed.

(** The text that [normalize_text] returns has no carriage return, no three
    line feeds in a row, no two blanks (space or tab) in a row, and no white
    space at either end. *)
Theorem normalize_text_output (s : string) :
  lacks (ascii_of_nat 13) (LoadDocs.normalize_text s) = true
  /\ occurs (at_least is_nl 3) (LoadDocs.normalize_text s) = false
  /\ occurs (at_least is_blank 2) (LoadDocs.normalize_text s) = false
  /\ strip (LoadDocs.normalize_text s) = LoadDocs.normalize_text s.
Proof. exact (normalize_text_invariants s). Qed.

(** [normalize_text] is idempotent, and the texts it leaves unchanged are
    exactly the normalised ones. *)
Theorem normalize_text_idempotent (s : string) :
  LoadDocs.normalize_text (LoadDocs.normalize_text s) = LoadDocs.normalize_text s
  /\ (LoadDocs.normalize_text s = s <-> normalized s).
Proof.
  split.
  - apply normalize_text_fixed, normalize_text_invariants.
  - split; [| apply normalize_text_fixed].
    intros H. rewrite <- H. apply normalize_text_invariants.
Qed.

Lemma all_space_re_sub (m : matcher) (repl : string) :
  shrinking m ->
  (forall s rest, m s = Some rest ->
                  exists u, s = u ++ rest /\ all_chars is_space u = true) ->
  all_chars is_space repl = true ->
  forall s, all_chars is_space (re_sub m repl s) = all_chars is_space s.
Proof.
  intros Hshr Hm Hrepl s.
  induction s as [s IH] using string_length_ind.
  rewrite (re_sub_eq m repl s Hshr).
  destruct (m s) as [rest |] eqn:E.
  - destruct (Hm s rest E) as (u & Hs & Hu).
    rewrite all_chars_append, Hrepl, (IH rest (Hshr s rest E)).
    cbn [andb]. rewrite Hs, all_chars_append, Hu. reflexivity.
  - destruct s as [| c s]; [reflexivity |].
    cbn [all_chars]. rewrite (IH s); [reflexivity | cbn [String.length]; lia].
Qed.

Lemma prefix_split (lit s : string) :
  prefix lit s = true -> s = lit ++ drop (String.length lit) s.
Proof.
  revert s. induction lit as [| a lit IH]; intros s H.
  - destruct s; reflexivity.
  - destruct s as [| c s]; [discriminate H |].
    cbn [prefix] in H. destruct (Ascii.ascii_dec a c) as [<- |]; [| discriminate H].
    cbn [String.length drop append]. rewrite <- (IH s H). reflexivity.
Qed.

Lemma literal_consumes (lit s rest : string) :
  all_chars is_space lit = true ->
  literal lit s = Some rest ->
  exists u, s = u ++ rest /\ all_chars is_space u = true.
Proof.
  intros Hlit. unfold literal. destruct (prefix lit s) eqn:E; [| discriminate].
  intros [= <-]. exists lit. split; [apply prefix_split, E | exact Hlit].
Qed.

Lemma at_least_consumes (p : ascii -> bool) (n : nat) (s rest : string) :
  (forall c, p c = true -> is_space c = true) ->
  at_least p n s = Some rest ->
  exists u, s = u ++ rest /\ all_chars is_space u = true.
Proof.
  intros Hp. rewrite at_least_eq. destruct (n <=? run_len p s)%nat; [| discriminate].
  intros [= <-]. exists (fst (span p s)). split; [symmetry; apply span_append |].
  apply (all_chars_impl p); [exact Hp | apply span_run].
Qed.

Lemma nl_is_space (c : ascii) : is_nl c = true -> is_space c = true.
Proof. ascii_cases c; intros H; try discriminate H; reflexivity. Qed.

Lemma blank_is_space (c : ascii) : is_blank c = true -> is_space c = true.
Proof. ascii_cases c; intros H; try discriminate H; reflexivity. Qed.

(** [normalize_text] returns the empty text, for which [process_file]
    reports that no text was extracted, exactly when the text consists of
    white space only. *)
Theorem normalize_text_empty_iff (s : string) :
  LoadDocs.normalize_text s = "" <-> all_chars is_space s = true.
Proof.
  unfold LoadDocs.normalize_text, str_replace. cbv zeta.
  rewrite strip_empty_iff.
  rewrite (all_space_re_sub _ " " (at_least_shrinking is_blank 1)
             (fun s rest => at_least_consumes is_blank 2 s rest blank_is_space)
             eq_refl).
  rewrite (all_space_re_sub _ (nl ++ nl) (at_least_shrinking is_nl 2)
             (fun s rest => at_least_consumes is_nl 3 s rest nl_is_space)
             eq_refl).
  rewrite (all_space_re_sub _ nl (literal_shrinking _ _)
             (fun s rest => literal_consumes cr s rest eq_refl) eq_refl).
  rewrite (all_space_re_sub _ nl (literal_shrinking _ _)
             (fun s rest => literal_consumes (cr ++ nl) s rest eq_refl) eq_refl).
  reflexivity.
Qed.

(** ** [RealTimeStdout] and the two captures *)

Lemma split_nl_nonempty (s : string) : split_nl s <> [].
Proof.
  induction s as [| c s IH]; cbn [split_nl]; [discriminate |].
  destruct (is_nl c); [discriminate |].
  destruct (split_nl s); discriminate.
Qed.

Lemma split_nl_cons (c : ascii) (s : string) :
  is_nl c = false ->
  exists l ls, split_nl s = l :: ls /\ split_nl (String c s) = String c l :: ls.
Proof.
  intros H. cbn [split_nl]. rewrite H.
  destruct (split_nl s) as [| l ls] eqn:E; [destruct (split_nl_nonempty s E) |].
  exists l, ls. split; reflexivity.
Qed.

Lemma cut_line_none (s : string) :
  cut_line s = None -> split_nl s = [s] /\ lacks (ascii_of_nat 10) s = true.
Proof.
  induction s as [| c s IH]; intros H; [split; reflexivity |].
  cbn [cut_line] in H. unfold lacks. cbn [split_nl all_chars].
  fold (is_nl c). destruct (is_nl c); [discriminate H |].
  destruct (cut_line s) as [[line rest] |]; [discriminate H |].
  destruct (IH eq_refl) as [-> Hl]. split; [reflexivity | exact Hl].
Qed.

Lemma cut_line_some (s line rest : string) :
  cut_line s = Some (line, rest) ->
  split_nl s = line :: split_nl rest
  /\ (String.length rest < String.length s)%nat.
Proof.
  revert line. induction s as [| c s IH]; intros line H; [discriminate H |].
  cbn [cut_line] in H. cbn [split_nl String.length].
  destruct (is_nl c).
  - injection H as <- <-. split; [reflexivity | lia].
  - destruct (cut_line s) as [[line' rest'] |]; [| discriminate H].
    injection H as <- <-. destruct (IH line' eq_refl) as [-> Hlen].
    split; [reflexivity | lia].
Qed.

Lemma last_cons_nonempty {A} (x : A) (l : list A) (d : A) :
  l <> [] -> last (x :: l) d = last l d.
Proof. destruct l; [congruence | reflexivity]. Qed.

Lemma removelast_cons_nonempty {A} (x : A) (l : list A) :
  l <> [] -> removelast (x :: l) = x :: removelast l.
Proof. destruct l; [congruence | reflexivity]. Qed.

Section LoggerFacts.

Variable get_level : string -> string.

Lemma drain_lines (fuel : nat) :
  forall buf l,
    (String.length buf < fuel)%nat ->
    StreamlitLogger.drain get_level fuel buf l
    = (last (split_nl buf) "",
       fold_left (StreamlitLogger.log_line get_level) (removelast (split_nl buf)) l).
Proof.
  induction fuel as [| fuel IH]; intros buf l Hlen; [lia |].
  cbn [StreamlitLogger.drain].
  destruct (cut_line buf) as [[line rest] |] eqn:E.
  - destruct (cut_line_some buf line rest E) as [-> Hshort].
    rewrite (IH rest _ ltac:(lia)).
    rewrite (last_cons_nonempty _ _ _ (split_nl_nonempty rest)).
    rewrite (removelast_cons_nonempty _ _ (split_nl_nonempty rest)).
    reflexivity.
  - destruct (cut_line_none buf E) as [-> _]. reflexivity.
Qed.

Lemma write_lines (out : StreamlitLogger.RealTimeStdout) (text : string) :
  StreamlitLogger.write get_level out text
  = StreamlitLogger.mkStdout
      (StreamlitLogger.original_stdout out ++ text)
      (last (split_nl (StreamlitLogger.buffer out ++ text)) "")
      (fold_left (StreamlitLogger.log_line get_level)
                 (removelast (split_nl (StreamlitLogger.buffer out ++ text)))
                 (StreamlitLogger.logs out)).
Proof.
  unfold StreamlitLogger.write. rewrite drain_lines by lia. reflexivity.
Qed.

Lemma last_line_lacks_nl (s : string) :
  lacks (ascii_of_nat 10) (last (split_nl s) "") = true.
Proof.
  induction s as [| c s IH]; [reflexivity |].
  destruct (is_nl c) eqn:E.
  - cbn [split_nl]. rewrite E.
    rewrite (last_cons_nonempty _ _ _ (split_nl_nonempty s)). exact IH.
  - destruct (split_nl_cons c s E) as (l & ls & Hs & ->).
    rewrite Hs in IH. destruct ls as [| l' ls'].
    + cbn [last] in *. unfold lacks in *. cbn [all_chars].
      fold (is_nl c). rewrite E. exact IH.
    + exact IH.
Qed.

Lemma split_nl_append (x b : string) :
  split_nl (x ++ b)
  = (removelast (split_nl x) ++ split_nl (last (split_nl x) "" ++ b))%list.
Proof.
  induction x as [| c x IH]; [reflexivity |].
  destruct (is_nl c) eqn:E.
  - cbn [append split_nl]. rewrite E.
    rewrite (last_cons_nonempty _ _ _ (split_nl_nonempty x)).
    rewrite (removelast_cons_nonempty _ _ (split_nl_nonempty x)).
    rewrite IH. reflexivity.
  - destruct (split_nl_cons c x E) as (l & ls & Hx & ->).
    cbn [append].
    destruct (split_nl_cons c (x ++ b) E) as (l' & ls' & Hxb & ->).
    rewrite IH, Hx in Hxb.
    destruct ls as [| l1 ls1].
    + cbn [removelast last app append] in *.
      destruct (split_nl_cons c (l ++ b) E) as (l2 & ls2 & Hlb & ->).
      rewrite Hlb in Hxb. injection Hxb as <- <-. reflexivity.
    + rewrite (removelast_cons_nonempty l (l1 :: ls1) ltac:(discriminate)) in Hxb.
      rewrite (removelast_cons_nonempty (String c l) (l1 :: ls1)
                 ltac:(discriminate)).
      rewrite (last_cons_nonempty l (l1 :: ls1) "" ltac:(discriminate)) in Hxb.
      rewrite (last_cons_nonempty (String c l) (l1 :: ls1) ""
                 ltac:(discriminate)).
      cbn [app] in Hxb |- *. injection Hxb as <- <-. reflexivity.
Qed.

Lemma last_app_nonempty {A} (a b : list A) (d : A) :
  b <> [] -> last (a ++ b) d = last b d.
Proof.
  intros Hb. induction a as [| x a IH]; [reflexivity |].
  cbn [app]. rewrite last_cons_nonempty; [exact IH |].
  destruct a; [exact Hb | discriminate].
Qed.

Lemma removelast_app_nonempty {A} (a b : list A) :
  b <> [] -> removelast (a ++ b) = (a ++ removelast b)%list.
Proof. intros Hb. apply removelast_app, Hb. Qed.

Lemma write_write (out : StreamlitLogger.RealTimeStdout) (a b : string) :
  StreamlitLogger.write get_level (StreamlitLogger.write get_level out a) b
  = StreamlitLogger.write get_level out (a ++ b).
Proof.
  rewrite (write_lines out a), write_lines, (write_lines out (a ++ b)).
  cbn [StreamlitLogger.original_stdout StreamlitLogger.buffer StreamlitLogger.logs].
  rewrite <- (append_assoc (StreamlitLogger.buffer out) a b).
  rewrite (split_nl_append (StreamlitLogger.buffer out ++ a) b).
  set (S1 := split_nl (StreamlitLogger.buffer out ++ a)).
  set (S2 := split_nl (last S1 "" ++ b)).
  assert (H2 : S2 <> []) by apply split_nl_nonempty.
  rewrite (last_app_nonempty _ _ _ H2), (removelast_app_nonempty _ _ H2).
  rewrite fold_left_app, append_assoc. reflexivity.
Qed.

Lemma write_nothing (out : StreamlitLogger.RealTimeStdout) :
  lacks (ascii_of_nat 10) (StreamlitLogger.buffer out) = true ->
  StreamlitLogger.write get_level out "" = out.
Proof.
  intros H. rewrite write_lines, !append_nil_r.
  assert (Hs : split_nl (StreamlitLogger.buffer out) = [StreamlitLogger.buffer out]).
  { generalize dependent (StreamlitLogger.buffer out). intros s.
    induction s as [| c s IH]; intros H; [reflexivity |].
    unfold lacks in H. cbn [all_chars] in H. apply andb_prop in H.
    destruct H as [Hc Hs]. cbn [split_nl]. fold (is_nl c) in Hc.
    destruct (is_nl c); [discriminate Hc |]. rewrite (IH Hs). reflexivity. }
  rewrite Hs. destruct out; reflexivity.
Qed.

Lemma concat_empty_cons (t : string) (ts : list string) :
  String.concat "" (t :: ts) = t ++ String.concat "" ts.
Proof.
  destruct ts as [| t' ts]; [cbn; rewrite append_nil_r; reflexivity |].
  reflexivity.
Qed.

Lemma writes_as_one (texts : list string) :
  forall out,
    lacks (ascii_of_nat 10) (StreamlitLogger.buffer out) = true ->
    fold_left (StreamlitLogger.write get_level) texts out
    = StreamlitLogger.write get_level out (String.concat "" texts).
Proof.
  induction texts as [| t ts IH]; intros out H.
  - cbn [fold_left String.concat]. symmetry. apply write_nothing, H.
  - cbn [fold_left]. rewrite IH.
    + rewrite write_write, concat_empty_cons. reflexivity.
    + rewrite write_lines. cbn [StreamlitLogger.buffer]. apply last_line_lacks_nl.
Qed.

(** What [RealTimeStdout.write] does, in terms of [split]: the text goes
    to the original stdout; the lines completed by a line feed, of the
    buffer followed by the text, are logged when they are not blank; the
    buffer keeps what follows the last line feed, and holds no line feed. *)
Theorem stdout_write_logs_complete_lines
        (out : StreamlitLogger.RealTimeStdout) (text : string) :
  StreamlitLogger.original_stdout (StreamlitLogger.write get_level out text)
  = StreamlitLogger.original_stdout out ++ text
  /\ StreamlitLogger.buffer (StreamlitLogger.write get_level out text)
     = last (split_nl (StreamlitLogger.buffer out ++ text)) ""
  /\ lacks (ascii_of_nat 10)
           (StreamlitLogger.buffer (StreamlitLogger.write get_level out text))
     = true
  /\ StreamlitLogger.logs (StreamlitLogger.write get_level out text)
     = fold_left (StreamlitLogger.log_line get_level)
                 (removelast (split_nl (StreamlitLogger.buffer out ++ text)))
                 (StreamlitLogger.logs out).
Proof.
  rewrite write_lines.
  cbn [StreamlitLogger.original_stdout StreamlitLogger.buffer StreamlitLogger.logs].
  split; [reflexivity |]. split; [reflexivity |].
  split; [apply last_line_lacks_nl | reflexivity].
Qed.

(** Writing a text in two pieces leaves the same stdout, buffer and logs as
    writing it at once. *)
Theorem stdout_write_composes
        (out : StreamlitLogger.RealTimeStdout) (a b : string) :
  StreamlitLogger.write get_level (StreamlitLogger.write get_level out a) b
  = StreamlitLogger.write get_level out (a ++ b).
Proof. apply write_write. Qed.

(** The two modes of [capture_logs] add the same entries to the logs, for
    every sequence of texts the body writes: the real-time capture, which
    logs line by line and flushes at the end, and the buffered capture,
    which splits the whole output afterwards. *)
Theorem capture_modes_agree (l : list (string * string)) (texts : list string) :
  StreamlitLogger.capture_real_time get_level l texts
  = StreamlitLogger.capture_buffered get_level l texts.
Proof.
  unfold StreamlitLogger.capture_real_time, StreamlitLogger.capture_buffered.
  rewrite (writes_as_one texts (StreamlitLogger.mkStdout "" "" l) eq_refl),
    write_lines.
  cbn [StreamlitLogger.original_stdout StreamlitLogger.buffer StreamlitLogger.logs
       append].
  pose proof (app_removelast_last "" (split_nl_nonempty (String.concat "" texts)))
    as HS.
  set (S := split_nl (String.concat "" texts)) in *.
  replace (fold_left (StreamlitLogger.log_line get_level) S l)
    with (fold_left (StreamlitLogger.log_line get_level)
                    (removelast S ++ [last S ""]) l)
    by (rewrite <- HS; reflexivity).
  rewrite fold_left_app. cbn [fold_left].
  unfold StreamlitLogger.flush.
  cbn [StreamlitLogger.buffer StreamlitLogger.logs].
  unfold StreamlitLogger.log_line.
  destruct (nonblank (last S "")); cbn [StreamlitLogger.logs]; reflexivity.
Qed.

End LoggerFacts.

(** ** A reply of the fact checker that uses the claims as keys *)








(** ** The sentence fallback of the claim extractor *)

Lemma split_sentences_aux_free (s : string) :
  forall cur in_sep,
    all_chars (fun c => negb (is_sentence_end c)) cur = true ->
    Forall (fun x => all_chars (fun c => negb (is_sentence_end c)) x = true)
           (split_sentences_aux s cur in_sep).
Proof.
  induction s as [| c s IH]; intros cur in_sep H; cbn [split_sentences_aux].
  - constructor; [exact H | constructor].
  - destruct (is_sentence_end c) eqn:E.
    + destruct in_sep; [apply IH, H |].
      constructor; [exact H | apply IH; reflexivity].
    + apply IH. rewrite all_chars_append, H. cbn [all_chars].
      rewrite E. reflexivity.
Qed.

Lemma sentence_claims_facts (text : string) :
  (List.length (ClaimExtractor.sentence_claims text) <= 5)%nat
  /\ Forall (fun c => strip c = c
                      /\ (20 < String.length c < 200)%nat
                      /\ all_chars (fun a => negb (is_sentence_end a)) c = true)
            (ClaimExtractor.sentence_claims text).
Proof.
  unfold ClaimExtractor.sentence_claims. split.
  - rewrite length_firstn. apply Nat.le_min_l.
  - apply Forall_forall. intros c Hc. apply In_firstn_In in Hc.
    apply in_map_iff in Hc as (s & <- & Hs).
    apply filter_In in Hs as [Hin Hlen].
    apply andb_prop in Hlen as [Hlo Hhi].
    apply Nat.ltb_lt in Hlo. apply Nat.ltb_lt in Hhi.
    split; [apply strip_idem |]. split; [split; assumption |].
    unfold strip. apply all_chars_rstrip, all_chars_lstrip.
    pose proof (split_sentences_aux_free text "" false eq_refl) as Hall.
    rewrite Forall_forall in Hall. apply Hall, Hin.
Qed.

Lemma filter_claims_sentences (text : string) :
  ClaimExtractor.filter_claims (map JStr (ClaimExtractor.sentence_claims text))
  = ClaimExtractor.sentence_claims text.
Proof.
  rewrite filter_claims_strs.
  destruct (sentence_claims_facts text) as [_ H].
  induction H as [| c l (Hs & Hl & _) _ IH]; [reflexivity |].
  cbn [filter]. rewrite Hs.
  destruct (Nat.ltb_spec 10 (String.length c)) as [_ | Hle]; [| lia].
  rewrite IH. reflexivity.
Qed.

(** When the claim model replies in prose (a text that is not JSON and has
    no square bracket and no brace), [extract_claims] returns sentences of
    the reply: at most five, each stripped, of 21 to 199 characters, and
    without a full stop, an exclamation mark or a question mark. *)
Theorem extract_claims_prose_reply (env : Env) (answer_text text : string) :
  strip answer_text <> "" ->
  claim_model env answer_text = Ok text ->
  json_loads text = None ->
  lacks "[" text = true ->
  lacks "{" text = true ->
  fst (ClaimExtractor.extract_claims env answer_text)
  = ClaimExtractor.sentence_claims text
  /\ (List.length (fst (ClaimExtractor.extract_claims env answer_text)) <= 5)%nat
  /\ Forall (fun c => strip c = c
                      /\ (20 < String.length c < 200)%nat
                      /\ all_chars (fun a => negb (is_sentence_end a)) c = true)
            (fst (ClaimExtractor.extract_claims env answer_text)).
Proof.
  intros Hblank Hmodel Hjson Ha Ho.
  assert (E : fst (ClaimExtractor.extract_claims env answer_text)
              = ClaimExtractor.sentence_claims text).
  { unfold ClaimExtractor.extract_claims, call.
    assert (H1 : String.eqb (strip answer_text) "" = false)
      by (apply String.eqb_neq; exact Hblank).
    assert (H2 : String.eqb answer_text "" = false).
    { apply String.eqb_neq. intros ->. apply Hblank. reflexivity. }
    rewrite H1, H2, Hmodel, Hjson. cbn [orb].
    unfold ClaimExtractor.extract_json_from_text. cbv zeta.
    rewrite (search_span_lacks "[" "]" _ (all_chars_cleaned _ text Ha)).
    rewrite (search_span_lacks "{" "}" _ (all_chars_cleaned _ text Ho)).
    cbn [py_truthy negb fst]. apply filter_claims_sentences. }
  rewrite E. split; [reflexivity |]. apply sentence_claims_facts.
Qed.

Lemma extract_claims_prose_reply_witness :
  json_loads MoreExamples.prose = None
  /\ fst (ClaimExtractor.extract_claims MoreExamples.env_prose_claims
            "Why did workflow 789 not start?")
     = ["The workflow 789 failed to start on Monday"].
Proof.
  split; [reflexivity |].
  rewrite (proj1 (extract_claims_prose_reply
                    MoreExamples.env_prose_claims
                    "Why did workflow 789 not start?" MoreExamples.prose
                    ltac:(discriminate) eq_refl eq_refl eq_refl eq_refl)).
  reflexivity.
Defined.

(** ** The calls of a run to the collaborators *)

Lemma calls_in_order_weaken (k k' : nat) (evs : list Event) :
  (k <= k')%nat -> calls_in_order k evs -> calls_in_order k' evs.
Proof.
  intros Hk [Hs Hf]. split; [exact Hs |].
  eapply Forall_impl; [| exact Hf]. cbv beta. intros e He. lia.
Qed.

Lemma calls_in_order_step (k : nat) (evs ev : list Event) :
  calls_in_order k evs ->
  (ev = [] \/ exists e, ev = [e] /\ event_rank e = k) ->
  calls_in_order (S k) (evs ++ ev).
Proof.
  intros H [-> | (e & -> & He)].
  - rewrite List.app_nil_r. apply (calls_in_order_weaken k); [lia | exact H].
  - destruct H as [Hs Hf]. split.
    + rewrite map_app. cbn [map]. rewrite He. clear He.
      induction evs as [| a evs IH]; cbn [map app].
      * constructor; constructor.
      * inversion Hs as [| ? ? Hs' Ha]; subst.
        inversion Hf as [| ? ? Hak Hf']; subst.
        constructor; [apply IH; assumption |].
        apply Forall_app. split; [exact Ha |].
        constructor; [exact Hak | constructor].
    + apply Forall_app. split.
      * eapply Forall_impl; [| exact Hf]. cbv beta. intros a Ha. lia.
      * constructor; [lia | constructor].
Qed.

(** A stage calls its collaborator once or not at all. *)
Lemma node_calls (env : Env) (n : Node) (st : ResearchState) :
  snd (node_function env n st) = []
  \/ exists e, snd (node_function env n st) = [e] /\ event_rank e = node_rank n.
Proof.
  destruct n; cbn [node_function node_rank].
  - right. unfold query_understanding_node, reformulate_query, bind, call, ret.
    destruct (qu_llm env (original_query st)); eexists; split; reflexivity.
  - right. unfold retrieval_node, run_retriever, call.
    destruct (search env (query_of st) 5); eexists; split; reflexivity.
  - unfold reranker_node. destruct (retrieved_docs st) as [| d docs];
      [left; reflexivity |].
    right. unfold RerankerAgent.rerank, convert_docs_to_reranker_format.
    cbn [map]. unfold bind, call, lift, ret.
    destruct (predict env _); [| eexists; split; reflexivity].
    destruct (RerankerAgent.assign_scores _ _); [| eexists; split; reflexivity].
    destruct (RerankerAgent.sort_keys _); eexists; split; reflexivity.
  - unfold reasoning_node, call.
    destruct (match reranked_docs st with [] => retrieved_docs st | _ => reranked_docs st end);
      [left; reflexivity |].
    right. destruct (reasoning_llm env _ _); eexists; split; reflexivity.
  - unfold claim_extraction_node, ClaimExtractor.extract_claims, call.
    destruct (String.eqb (draft_answer st) "" || String.eqb (strip (draft_answer st)) "");
      [left; reflexivity |].
    right. destruct (claim_model env (draft_answer st)); eexists; split; reflexivity.
  - unfold fact_checking_node.
    destruct (match reranked_docs st with [] => retrieved_docs st | _ => reranked_docs st end);
      [left; reflexivity |].
    right. unfold FactCheckerAgent.fact_check_claims, call.
    destruct (fact_model env _ _); [| eexists; split; reflexivity].
    destruct (py_items _); eexists; split; reflexivity.
  - unfold final_answer_node, FinalAnswerAgent.generate_final_answer, bind, lift,
      try_except, call, ret.
    destruct (FinalAnswerAgent.tally _ _); [| left; reflexivity].
    destruct (FinalAnswerAgent.sources_loop _ _ _ _).
    destruct (FinalAnswerAgent.calculate_overall_confidence _); [| left; reflexivity].
    right. destruct (final_model env _); eexists; split; reflexivity.
  - left. reflexivity.
  - left. reflexivity.
Qed.

Lemma calls_stage (env : Env) (n next : Node) :
  In (n, next) (firstn 6 edges) ->
  (forall fuel st done evs,
      calls_in_order (node_rank next) evs ->
      calls_in_order 7 (events (invoke_from env fuel [next] st done evs))) ->
  forall fuel st done evs,
    calls_in_order (node_rank n) evs ->
    calls_in_order 7 (events (invoke_from env fuel [n] st done evs)).
Proof.
  intros Hin Hnext fuel st done evs Hevs.
  assert (Hr : node_rank next = S (node_rank n) /\ (node_rank next < 7)%nat).
  { cbn [firstn edges] in Hin.
    repeat (destruct Hin as [Hin | Hin];
            [injection Hin as <- <-; cbn; lia |]).
    destruct Hin. }
  destruct Hr as [Hr Hlt].
  destruct fuel as [| fuel].
  - cbn [invoke_from events]. apply (calls_in_order_weaken (node_rank n)); [lia | exact Hevs].
  - rewrite invoke_step, (triggered_stage n next _ Hin).
    pose proof (calls_in_order_step _ _ _ Hevs (node_calls env n st)) as Hstep.
    rewrite <- Hr in Hstep.
    destruct (error_set (out_state (fst (node_function env n st)))).
    + rewrite invoke_collision. cbn [events flat_map node_function error_node snd].
      rewrite !List.app_nil_r.
      apply (calls_in_order_weaken (S (node_rank next))); [lia |].
      apply calls_in_order_step; [exact Hstep | apply node_calls].
    + apply Hnext, Hstep.
Qed.

Lemma calls_final (env : Env) (fuel : nat) (st : ResearchState)
      (done : list Node) (evs : list Event) :
  calls_in_order (node_rank final_answer_agent) evs ->
  calls_in_order 7 (events (invoke_from env fuel [final_answer_agent] st done evs)).
Proof.
  intros Hevs. destruct fuel as [| fuel].
  - cbn [invoke_from events]. apply (calls_in_order_weaken 6); [lia | exact Hevs].
  - rewrite invoke_step, triggered_final_answer, invoke_end. cbn [events].
    apply (calls_in_order_step 6); [exact Hevs | apply node_calls].
Qed.

Lemma invoke_events_extend (env : Env) (fuel : nat) :
  forall active st done evs,
    exists rest, events (invoke_from env fuel active st done evs) = (evs ++ rest)%list.
Proof.
  induction fuel as [| fuel IH]; intros active st done evs.
  - destruct active as [| a [| b l]]; cbn [invoke_from events].
    + exists []. rewrite List.app_nil_r. reflexivity.
    + exists []. rewrite List.app_nil_r. reflexivity.
    + eexists. reflexivity.
  - destruct active as [| a [| b l]].
    + rewrite invoke_end. exists []. cbn [events]. rewrite List.app_nil_r.
      reflexivity.
    + rewrite invoke_step.
      destruct (IH (triggered a (out_state (fst (node_function env a st))))
                   (out_state (fst (node_function env a st)))
                   (done ++ [a])%list
                   (evs ++ snd (node_function env a st))%list) as [rest Hrest].
      rewrite Hrest, <- List.app_assoc. eexists. reflexivity.
    + rewrite invoke_collision. eexists. reflexivity.
Qed.

(** A run of the pipeline calls its collaborators in the order of the
    stages and none of them twice, whether it completes or ends in the
    [except] branch; the first call is the query model on the user's query. *)
Theorem pipeline_calls_in_stage_order (env : Env) (query : string) :
  StronglySorted lt (map event_rank (events (run_research_pipeline env query)))
  /\ exists rest, events (run_research_pipeline env query) = EvRefine query :: rest.
Proof.
  assert (E : events (run_research_pipeline env query)
              = events (invoke env (initial_state query))).
  { unfold run_research_pipeline. cbv zeta.
    destruct (outcome (invoke env (initial_state query))); reflexivity. }
  rewrite E. unfold invoke. split.
  - refine (proj1 (_ : calls_in_order 7 _)).
    apply (calls_stage env query_understanding retrieval); [cbn; tauto | |].
    2: { split; constructor. }
    apply (calls_stage env retrieval reranking); [cbn; tauto |].
    apply (calls_stage env reranking reasoning); [cbn; tauto |].
    apply (calls_stage env reasoning claim_extraction); [cbn; tauto |].
    apply (calls_stage env claim_extraction fact_checking); [cbn; tauto |].
    apply (calls_stage env fact_checking final_answer_agent); [cbn; tauto |].
    apply calls_final.
  - rewrite invoke_step.
    match goal with
    | |- context [invoke_from env 24 ?a ?s ?d ?e] =>
        destruct (invoke_events_extend env 24 a s d e) as [rest Hrest]
    end.
    rewrite Hrest. exists rest.
    cbn [node_function app].
    unfold query_understanding_node, reformulate_query, bind, call, ret.
    change (original_query (initial_state query)) with query.
    destruct (qu_llm env query); reflexivity.
Qed.

(** ** C3: the claim breakdown of a completed run *)

Lemma tally_total (items : dict JValue) :
  forall t t',
    FinalAnswerAgent.tally items t = Ok t' ->
    breakdown_total (FinalAnswerAgent.breakdown_of t')
    = (breakdown_total (FinalAnswerAgent.breakdown_of t) + count_known items)%nat.
Proof.
  induction items as [| [k v] items IH]; intros t t' Ht.
  - cbn [FinalAnswerAgent.tally] in Ht. injection Ht as <-.
    unfold count_known. cbn [filter length]. lia.
  - cbn [FinalAnswerAgent.tally] in Ht.
    destruct v as [| b | z | m e | s | l | d]; cbn [py_get] in Ht;
      try discriminate Ht.
    unfold count_known. cbn [filter snd status_of].
    rewrite known_status_cases.
    set (status := dict_get d "verification_status" (JStr "UNKNOWN")) in *.
    destruct (py_eq_str status "SUPPORTED");
      [| destruct (py_eq_str status "PARTIALLY_SUPPORTED");
         [| destruct (py_eq_str status "NOT_SUPPORTED");
            [| destruct (py_eq_str status "CONTRADICTED")]]];
      rewrite (IH _ _ Ht);
      unfold count_known, breakdown_total, FinalAnswerAgent.breakdown_of;
      cbn [supported partially_supported not_supported contradicted
           FinalAnswerAgent.supported_claims
           FinalAnswerAgent.partially_supported_claims
           FinalAnswerAgent.not_supported_claims
           FinalAnswerAgent.contradicted_claims length];
      rewrite ?length_app; cbn [length]; lia.
Qed.

Lemma tally_returns (items : dict JValue) :
  Forall is_object (dict_values items) ->
  forall t, exists t', FinalAnswerAgent.tally items t = Ok t'.
Proof.
  induction items as [| [k v] items IH]; intros H t.
  - eexists. reflexivity.
  - cbn [dict_values map snd] in H.
    inversion H as [| ? ? [d Hd] Hrest]. subst v.
    cbn [FinalAnswerAgent.tally py_get].
    destruct (py_eq_str _ "SUPPORTED"); [apply IH, Hrest |].
    destruct (py_eq_str _ "PARTIALLY_SUPPORTED"); [apply IH, Hrest |].
    destruct (py_eq_str _ "NOT_SUPPORTED"); [apply IH, Hrest |].
    destruct (py_eq_str _ "CONTRADICTED"); apply IH, Hrest.
Qed.

Lemma count_known_le (items : dict JValue) :
  (count_known items <= List.length items)%nat.
Proof. unfold count_known. apply filter_length_le. Qed.

Lemma count_known_all (items : dict JValue) :
  count_known items = List.length items
  <-> Forall known_entry (dict_values items).
Proof.
  induction items as [| [k v] items IH].
  - split; [constructor | reflexivity].
  - pose proof (count_known_le items) as Hle.
    unfold count_known in *. cbn [filter snd dict_values map length].
    destruct (FinalAnswerAgent.known_status (status_of v)) eqn:E.
    + cbn [length]. split.
      * intros H. constructor; [exact E |]. apply IH. lia.
      * intros H. inversion H as [| ? ? _ Hrest]; subst.
        apply IH in Hrest. lia.
    + split; [lia |].
      intros H. inversion H as [| ? ? Hv _]; subst.
      unfold known_entry in Hv. rewrite E in Hv. discriminate Hv.
Qed.

(** A mapping with one entry per claim has as many entries as there are
    different claims. *)
Lemma one_entry_length (claims : list string) (vc : dict JValue) :
  one_entry_per_claim claims vc ->
  (List.length vc <= List.length claims)%nat
  /\ (List.length vc = List.length claims <-> NoDup claims).
Proof.
  intros (Hnd & Hkeys & _).
  assert (Hlen : List.length vc = List.length (dict_keys vc))
    by (unfold dict_keys; rewrite length_map; reflexivity).
  assert (H1 : incl (dict_keys vc) claims) by (intros c Hc; apply Hkeys, Hc).
  assert (H2 : incl claims (dict_keys vc)) by (intros c Hc; apply Hkeys, Hc).
  pose proof (NoDup_incl_length Hnd H1) as Hle.
  split; [lia |]. split.
  - intros Heq. apply (NoDup_incl_NoDup Hnd); [lia | exact H1].
  - intros Hc. pose proof (NoDup_incl_length Hc H2). lia.
Qed.

Lemma fact_checking_node_one_entry (env : Env) (st : ResearchState) :
  one_entry_per_claim
    (extracted_claims st)
    (verified_claims (out_state (fst (fact_checking_node env st)))).
Proof.
  unfold fact_checking_node.
  destruct (match reranked_docs st with
            | [] => retrieved_docs st
            | _ => reranked_docs st
            end) as [| d docs].
  - cbn [fst out_state verified_claims with_verified_claims].
    apply (fold_dict_set_one_entry (fun _ => no_documents_entry)).
  - unfold FactCheckerAgent.fact_check_claims, call.
    destruct (fact_model env _ _) as [text | e].
    + destruct (py_items _) as [results | e];
        cbn [fst out_state verified_claims with_verified_claims].
      * apply reconcile_one_entry.
      * apply (fold_dict_set_one_entry (fun _ => FactCheckerAgent.system_error e)).
    + cbn [fst out_state verified_claims with_verified_claims].
      apply (fold_dict_set_one_entry (fun _ => FactCheckerAgent.system_error e)).
Qed.

Lemma fact_checking_node_frame (env : Env) (st : ResearchState) :
  extracted_claims (out_state (fst (fact_checking_node env st))) = extracted_claims st
  /\ final_answer (out_state (fst (fact_checking_node env st))) = final_answer st.
Proof.
  unfold fact_checking_node.
  destruct (match reranked_docs st with
            | [] => retrieved_docs st
            | _ => reranked_docs st
            end); [split; reflexivity |].
  destruct (FactCheckerAgent.fact_check_claims env _ _). split; reflexivity.
Qed.

(** The record of [generate_final_answer], on both paths of its [try]. *)
Lemma generate_final_answer_record
      (env : Env) (query : string) (vc : dict JValue) (docs : list Document)
      (f : FinalAnswer) :
  fst (FinalAnswerAgent.generate_final_answer env query vc docs) = Ok f ->
  exists b, claim_breakdown f = Some b /\ breakdown_total b = count_known vc.
Proof.
  unfold FinalAnswerAgent.generate_final_answer, lift, bind, try_except, call, ret.
  destruct (FinalAnswerAgent.tally vc (FinalAnswerAgent.mkTally [] [] [] []))
    as [t | e] eqn:Ht; [| discriminate].
  destruct (FinalAnswerAgent.sources_loop 0 docs [] []) as [cws sources].
  destruct (FinalAnswerAgent.calculate_overall_confidence vc) as [r | e];
    [| discriminate].
  pose proof (tally_total vc _ _ Ht) as Hsum.
  match goal with
  | |- context [final_model env ?p] => destruct (final_model env p) as [text | e]
  end; cbn; intros [= <-]; eexists; (split; [reflexivity |]); exact Hsum.
Qed.

Lemma well_formed_objects (vc : dict JValue) :
  well_formed vc -> Forall is_object (dict_values vc).
Proof.
  intros H. eapply Forall_impl; [| exact H].
  intros v (d & _ & _ & _ & -> & _). exists d. reflexivity.
Qed.

Lemma generate_final_answer_returns
      (env : Env) (query : string) (vc : dict JValue) (docs : list Document) :
  well_formed vc ->
  exists f, fst (FinalAnswerAgent.generate_final_answer env query vc docs) = Ok f.
Proof.
  intros Hwf.
  unfold FinalAnswerAgent.generate_final_answer, lift, bind, try_except, call, ret.
  destruct (tally_returns vc (well_formed_objects vc Hwf)
              (FinalAnswerAgent.mkTally [] [] [] [])) as [t ->].
  destruct (FinalAnswerAgent.sources_loop 0 docs [] []) as [cws sources].
  destruct (final_answer_confidence_ok vc Hwf) as (r & -> & _).
  match goal with
  | |- context [final_model env ?p] => destruct (final_model env p) as [text | e]
  end; cbn; eexists; reflexivity.
Qed.

(** What ComposeFinalAnswer leaves: the claims and the verified mapping as
    they were, and either the record of [generate_final_answer] or no new
    record. *)
Lemma final_answer_node_record (env : Env) (st : ResearchState) :
  let st' := out_state (fst (final_answer_node env st)) in
  extracted_claims st' = extracted_claims st
  /\ verified_claims st' = verified_claims st
  /\ (well_formed (verified_claims st) -> exists fa, final_answer st' = Some fa)
  /\ (final_answer st = None ->
      forall fa, final_answer st' = Some fa ->
        exists b, claim_breakdown fa = Some b
                  /\ breakdown_total b = count_known (verified_claims st)).
Proof.
  cbv zeta. unfold final_answer_node.
  match goal with
  | |- context [FinalAnswerAgent.generate_final_answer env ?q ?vc ?docs] =>
      pose proof (generate_final_answer_record env q vc docs) as Hrec;
      pose proof (generate_final_answer_returns env q vc docs) as Hret;
      destruct (FinalAnswerAgent.generate_final_answer env q vc docs)
        as [[f | e] ev]
  end; cbn [fst] in *;
    cbn [out_state extracted_claims verified_claims final_answer
         with_final_answer with_error].
  - split; [reflexivity |]. split; [reflexivity |].
    split; [intros _; eexists; reflexivity |].
    intros _ fa [= <-]. apply Hrec. reflexivity.
  - split; [reflexivity |]. split; [reflexivity |]. split.
    + intros Hwf. destruct (Hret Hwf) as [f Hf]. discriminate Hf.
    + intros Hnone fa Hfa. rewrite Hnone in Hfa. discriminate Hfa.
Qed.

(** A run that completes went through VerifyClaims and ComposeFinalAnswer
    last, from a state without a final answer. *)
Lemma completed_final (env : Env) (fuel : nat) (st : ResearchState)
      (done : list Node) (evs : list Event) (st' : ResearchState) :
  outcome (invoke_from env fuel [final_answer_agent] st done evs) = Ok st' ->
  st' = out_state (fst (final_answer_node env st)).
Proof.
  destruct fuel as [| fuel]; [discriminate |].
  rewrite invoke_step, triggered_final_answer, invoke_end.
  cbn [outcome node_function]. intros [= <-]. reflexivity.
Qed.

Lemma completed_fact_checking (env : Env) (fuel : nat) (st : ResearchState)
      (done : list Node) (evs : list Event) (st' : ResearchState) :
  final_answer st = None ->
  outcome (invoke_from env fuel [fact_checking] st done evs) = Ok st' ->
  exists s, final_answer s = None /\ st' = verify_and_compose env s.
Proof.
  intros Hfa. destruct fuel as [| fuel]; [discriminate |].
  rewrite invoke_step,
    (triggered_stage fact_checking final_answer_agent _ ltac:(cbn; tauto)).
  cbn [node_function].
  destruct (error_set (out_state (fst (fact_checking_node env st)))).
  - rewrite invoke_collision. discriminate.
  - intros H. exists st. split; [exact Hfa |].
    exact (completed_final _ _ _ _ _ _ H).
Qed.

Lemma completed_stage (env : Env) (n next : Node) :
  In (n, next) (firstn 5 edges) ->
  (forall fuel st done evs st',
      final_answer st = None ->
      outcome (invoke_from env fuel [next] st done evs) = Ok st' ->
      exists s, final_answer s = None /\ st' = verify_and_compose env s) ->
  forall fuel st done evs st',
    final_answer st = None ->
    outcome (invoke_from env fuel [n] st done evs) = Ok st' ->
    exists s, final_answer s = None /\ st' = verify_and_compose env s.
Proof.
  intros Hin Hnext fuel st done evs st' Hfa.
  assert (Hin6 : In (n, next) (firstn 6 edges)).
  { cbn [firstn edges] in Hin |- *. cbn [In] in Hin |- *. tauto. }
  assert (Hstage : In n (firstn 6 stage_order)).
  { cbn [firstn edges] in Hin.
    repeat (destruct Hin as [Hin | Hin]; [injection Hin as <- <-; cbn; tauto |]).
    destruct Hin. }
  destruct fuel as [| fuel]; [discriminate |].
  rewrite invoke_step, (triggered_stage n next _ Hin6).
  destruct (stage_frame env n st Hstage) as [_ Hframe].
  destruct (error_set (out_state (fst (node_function env n st)))).
  - rewrite invoke_collision. discriminate.
  - apply Hnext. rewrite Hframe. exact Hfa.
Qed.

Lemma completed_run (env : Env) (query : string) (st : ResearchState) :
  outcome (run_research_pipeline env query) = Completed st ->
  exists s, final_answer s = None /\ st = verify_and_compose env s.
Proof.
  unfold run_research_pipeline. cbv zeta.
  destruct (outcome (invoke env (initial_state query))) as [st0 | e] eqn:E;
    cbn [outcome]; [| discriminate].
  intros [= <-]. unfold invoke in E.
  assert (H : forall fuel s0 done evs st',
             final_answer s0 = None ->
             outcome (invoke_from env fuel [query_understanding] s0 done evs) = Ok st' ->
             exists s, final_answer s = None /\ st' = verify_and_compose env s);
    [| exact (H 25%nat (initial_state query) [] [] st0 eq_refl E)].
  apply (completed_stage env query_understanding retrieval); [cbn; tauto |].
  apply (completed_stage env retrieval reranking); [cbn; tauto |].
  apply (completed_stage env reranking reasoning); [cbn; tauto |].
  apply (completed_stage env reasoning claim_extraction); [cbn; tauto |].
  apply (completed_stage env claim_extraction fact_checking); [cbn; tauto |].
  intros fuel st done evs st'. apply completed_fact_checking.
Qed.

(** C3 (amended). In the final state of every run of the pipeline that
    completes: when the verified mapping is well formed, a [final_answer]
    record is stored; and every record that is stored carries a
    [claim_breakdown] whose four counts sum to the number of verified
    entries with one of the four statuses. That sum never exceeds
    [len(extracted_claims)], and it equals [len(extracted_claims)] exactly
    when the extracted claims are pairwise different (the verified mapping
    has one entry for equal claims) and every verified entry has one of
    the four statuses (any other status is counted nowhere). The record of
    the error handler has no [claim_breakdown]. *)
Theorem claim_breakdown_of_completed_run
        (env : Env) (query : string) (st : ResearchState) :
  outcome (run_research_pipeline env query) = Completed st ->
  (well_formed (verified_claims st) -> exists fa, final_answer st = Some fa)
  /\ (forall fa,
        final_answer st = Some fa ->
        exists b,
          claim_breakdown fa = Some b
          /\ breakdown_total b = count_known (verified_claims st)
          /\ (breakdown_total b <= List.length (extracted_claims st))%nat
          /\ (breakdown_total b = List.length (extracted_claims st)
              <-> NoDup (extracted_claims st)
                  /\ Forall known_entry (dict_values (verified_claims st))))
  /\ (forall st0 f,
        final_answer (out_state (fst (error_node st0))) = Some f ->
        claim_breakdown f = None).
Proof.
  intros Hrun.
  destruct (completed_run env query st Hrun) as (s & Hs & ->).
  unfold verify_and_compose.
  set (s6 := out_state (fst (fact_checking_node env s))).
  destruct (fact_checking_node_frame env s) as [Hclaims Hfa6].
  fold s6 in Hclaims, Hfa6. rewrite Hs in Hfa6.
  pose proof (fact_checking_node_one_entry env s) as Hone. fold s6 in Hone.
  destruct (one_entry_length _ _ Hone) as [Hle Hlen].
  destruct (final_answer_node_record env s6) as (Hc7 & Hv7 & Hex & Hrec).
  rewrite Hc7, Hv7, Hclaims.
  split; [exact Hex |]. split.
  - intros fa Hfa. destruct (Hrec Hfa6 fa Hfa) as (b & Hb & Hsum).
    exists b. split; [exact Hb |]. split; [exact Hsum |].
    pose proof (count_known_le (verified_claims s6)) as Hk.
    split; [lia |].
    rewrite <- count_known_all, <- Hlen, Hsum. lia.
  - intros st0 f. cbn. intros [= <-]. reflexivity.
Qed.

Lemma claim_breakdown_of_completed_run_witness :
  exists st,
    outcome (run_research_pipeline Examples.env_equal_scores "expense approvals")
    = Completed st
    /\ NoDup (extracted_claims st)
    /\ breakdown_sums_to (final_answer st) (List.length (extracted_claims st)).
Proof.
  eexists. split; [vm_compute; reflexivity |].
  match goal with
  | |- NoDup (extracted_claims ?st) /\ _ =>
      destruct (claim_breakdown_of_completed_run
                  Examples.env_equal_scores "expense approvals" st
                  ltac:(vm_compute; reflexivity)) as (_ & H & _);
      destruct (H _ eq_refl) as (b & Hb & _ & _ & Hiff)
  end.
  assert (Hnd : NoDup [Examples.claim_a])
    by (constructor; [intros [] | constructor]).
  split; [exact Hnd |].
  eexists. exists b. split; [reflexivity |]. split; [exact Hb |].
  apply Hiff. split; [exact Hnd |].
  constructor; [reflexivity | constructor].
Defined.

(** C3 as stated fails in three ways. A run in which the verification
    model answers with a status outside the four values ends with one
    extracted claim and a breakdown that sums to 0. A run in which the
    claim model lists the same claim twice ends with two extracted claims,
    one verified entry and a breakdown that sums to 1. And the record of
    the error handler has no [claim_breakdown] at all. *)
Lemma claim_breakdown_counterexample :
  (exists st f b,
     outcome (run_research_pipeline Examples.env_unknown_status "q") = Completed st
     /\ final_answer st = Some f
     /\ claim_breakdown f = Some b
     /\ breakdown_total b = 0%nat
     /\ List.length (extracted_claims st) = 1%nat)
  /\ (exists st f b,
        outcome (run_research_pipeline Examples.env_duplicate_claims "q")
        = Completed st
        /\ final_answer st = Some f
        /\ claim_breakdown f = Some b
        /\ breakdown_total b = 1%nat
        /\ List.length (verified_claims st) = 1%nat
        /\ List.length (extracted_claims st) = 2%nat)
  /\ (exists f,
        final_answer (out_state (fst (error_node Examples.failed_state))) = Some f
        /\ claim_breakdown f = None).
Proof.
  split; [| split].
  - eexists. eexists. eexists.
    split; [vm_compute; reflexivity |].
    split; [reflexivity |]. split; [reflexivity |]. split; reflexivity.
  - eexists. eexists. eexists.
    split; [vm_compute; reflexivity |].
    split; [reflexivity |]. split; [reflexivity |].
    split; [reflexivity |]. split; reflexivity.
  - eexists. split; reflexivity.
Qed.
